(** * bns: the wire codec of the DNS library, embedded and checked

    A shallow embedding of [lib/util.js], [lib/encoding.js] and the message
    codec of [lib/wire.js].  JavaScript values are modelled as follows:
    - a string is a [string] (one [ascii] per code unit, the names the
      codec handles are ASCII);
    - a [Buffer] is a [list Z] of octets, written in place with stdpp's
      list insert (an out-of-range store does nothing, as in Node);
    - offsets, lengths and counters that index a buffer are [nat];
      numeric fields (id, flags, type, class, ttl, codes) are [Z];
    - a [Map] from strings to offsets is a [gmap string nat];
    - an exception is an [Err] of the [result] monad. *)

From Stdlib Require Import ZArith String Ascii List Bool Lia Sorted.
From stdpp Require Import base option list strings gmap.

Local Open Scope string_scope.
Local Open Scope Z_scope.

(** ** Exceptions *)

Inductive error : Type :=
| EncodingError (off : nat) (msg : string)
| AssertionError
| TypeError (msg : string)
| Unmodelled (what : string).

Inductive result (A : Type) : Type :=
| Ok (a : A)
| Err (e : error).
Arguments Ok {A} a.
Arguments Err {A} e.

#[global] Instance result_ret : MRet result := @Ok.
#[global] Instance result_bind : MBind result :=
  λ A B f r, match r with Ok a => f a | Err e => Err e end.

Definition assert (b : bool) : result unit :=
  if b then Ok tt else Err AssertionError.

Definition is_ok {A} (r : result A) : bool :=
  match r with Ok _ => true | Err _ => false end.

(** ** JavaScript 32-bit integer operators *)

Module js.

Definition toUint32 (x : Z) : Z := x mod 2 ^ 32.
Definition toInt32 (x : Z) : Z := (x + 2 ^ 31) mod 2 ^ 32 - 2 ^ 31.

(** [a & b], [a | b], [a ^ b], [~a], [a << k], [a >>> k]. *)
Definition and (a b : Z) : Z := Z.land (toInt32 a) (toInt32 b).
Definition or (a b : Z) : Z := Z.lor (toInt32 a) (toInt32 b).
Definition xor (a b : Z) : Z := Z.lxor (toInt32 a) (toInt32 b).
Definition not (a : Z) : Z := Z.lnot (toInt32 a).
Definition shl (a k : Z) : Z := toInt32 (Z.shiftl (toInt32 a) (k mod 32)).
Definition ushr (a k : Z) : Z := Z.shiftr (toUint32 a) (k mod 32).

End js.

(** ** Constants

    Modelled from the spec: [lib/constants.js] is not among the sources; the
    values are those of spec section 6 and, for the record types and classes
    it lists by name only, their registered numbers. *)

Module types.
Definition UNKNOWN : Z := 0.
Definition A : Z := 1.
Definition NS : Z := 2.
Definition CNAME : Z := 5.
Definition SIG : Z := 24.
Definition OPT : Z := 41.
Definition TSIG : Z := 250.
Definition ANY : Z := 255.
End types.

Module classes.
Definition IN : Z := 1.
Definition ANY : Z := 255.
End classes.

Module flags.
Definition QR : Z := 0x8000.
Definition AA : Z := 0x0400.
Definition TC : Z := 0x0200.
Definition RD : Z := 0x0100.
Definition CD : Z := 0x0010.
End flags.

Module codes.
Definition NOERROR : Z := 0.
Definition BADVERS : Z := 16.
End codes.

Module opcodes.
Definition QUERY : Z := 0.
End opcodes.

Module options.
Definition RESERVED : Z := 0.
Definition LOCALSTART : Z := 65001.
Definition LOCALEND : Z := 65534.
End options.

Definition MAX_UDP_SIZE : nat := 512.
Definition MAX_EDNS_SIZE : nat := 4096.

(** ** lib/util.js *)

Module util.

(** [s.charCodeAt(i)]; only called below with [i] inside the string. *)
Definition charCodeAt (s : string) (i : nat) : Z :=
  match String.get i s with
  | Some c => Z.of_nat (nat_of_ascii c)
  | None => -1
  end.

(** The body of the loop of [util.equal], for [i] from [n - 1] down to 0.
    Both [ai] and [bi] are declared [const] and read from [a]; the
    compound assignment to a [const] binding throws a [TypeError]. *)
Fixpoint equal_from (a b : string) (n : nat) : result bool :=
  match n with
  | O => Ok true
  | S i =>
      let ai := charCodeAt a i in
      let bi := charCodeAt a i in
      if (0x41 <=? ai) && (ai <=? 0x5a) then
        Err (TypeError "Assignment to constant variable.")
      else if (0x41 <=? bi) && (bi <=? 0x5a) then
        Err (TypeError "Assignment to constant variable.")
      else if negb (ai =? bi) then Ok false
      else equal_from a b i
  end.

Definition equal (a b : string) : result bool :=
  if negb (String.length a =? String.length b)%nat then Ok false
  else equal_from a b (String.length a).

Definition isFQDN (s : string) : bool :=
  if (String.length s =? 0)%nat then false
  else match String.get (String.length s - 1) s with
       | Some c => Ascii.eqb c "."
       | None => false
       end.

(** [s.slice(0, -1)] *)
Definition slice_0_m1 (s : string) : string :=
  String.substring 0 (String.length s - 1) s.

Definition fqdn (s : string) : string :=
  if negb (isFQDN s) then s else slice_0_m1 s.

Definition trimFQDN (s : string) : string :=
  if (String.length s =? 0)%nat then s
  else if isFQDN s then slice_0_m1 s else s.

(** The two-argument ASCII case fold that the specification asks of
    [util.equal]: this definition follows the spec's words, not the code. *)
Definition fold_char (c : Z) : Z :=
  if (0x41 <=? c) && (c <=? 0x5a) then Z.lor c (0x61 - 0x41) else c.

Fixpoint spec_fold_equal_from (a b : string) (n : nat) : bool :=
  match n with
  | O => true
  | S i => (fold_char (charCodeAt a i) =? fold_char (charCodeAt b i))
           && spec_fold_equal_from a b i
  end.

Definition spec_fold_equal (a b : string) : bool :=
  (String.length a =? String.length b)%nat
  && spec_fold_equal_from a b (String.length a).

(** [s.substring(a, b)]: either index is clamped to the string and the two
    are swapped when out of order; a missing start counts as 0 and a missing
    end as the length. *)
Definition js_substring (s : string) (a b : nat) : string :=
  let a := Nat.min a (String.length s) in
  let b := Nat.min b (String.length s) in
  String.substring (Nat.min a b) (Nat.max a b - Nat.min a b) s.

Definition js_substring_opt (s : string) (a b : option nat) : string :=
  js_substring s (default 0%nat a) (default (String.length s) b).

(** [l[i]] for a number [i]: [undefined] outside the array. *)
Definition index (l : list nat) (i : Z) : option nat :=
  if i <? 0 then None else l !! Z.to_nat i.

Definition loop_bound : error := Unmodelled "util: loop bound".

(** The loop of [util.nextLabel] at index [i], with [k] indices left before
    [s.length - 1]; [continue] still runs the increment. *)
Fixpoint nextLabel_loop (s : string) (k i : nat) (quote : bool) : nat * bool :=
  match k with
  | O => ((i + 1)%nat, true)
  | S k =>
      let c := charCodeAt s i in
      if c =? 0x5c then nextLabel_loop s k (i + 1) (negb quote)
      else if c =? 0x2e then
        if quote then nextLabel_loop s k (i + 1) (negb quote)
        else ((i + 1)%nat, false)
      else nextLabel_loop s k (i + 1) false
  end.

Definition nextLabel (s : string) (off : nat) : nat * bool :=
  nextLabel_loop s (String.length s - 1 - off) off false.

(** The [for (;;)] loop of [util.split]. *)
Fixpoint split_loop (fuel : nat) (s : string) (off : nat) (idx : list nat)
    : result (list nat) :=
  match fuel with
  | O => Err loop_bound
  | S fuel =>
      let '(off, end_) := nextLabel s off in
      if end_ then Ok idx
      else split_loop fuel s off (idx ++ [off])%list
  end.

Definition split (s : string) : result (list nat) :=
  if String.eqb s "." then Ok []
  else split_loop (String.length s + 1) s 0 [0%nat].

(** The [for (;;)] loop of [util.countLabels]. *)
Fixpoint countLabels_loop (fuel : nat) (s : string) (off labels : nat)
    : result nat :=
  match fuel with
  | O => Err loop_bound
  | S fuel =>
      let '(off, end_) := nextLabel s off in
      let labels := (labels + 1)%nat in
      if end_ then Ok labels
      else countLabels_loop fuel s off labels
  end.

Definition countLabels (s : string) : result nat :=
  if String.eqb s "." then Ok 0%nat
  else countLabels_loop (String.length s + 1) s 0 0.

(** The loop of [util.splitName] over [idx[1]], [idx[2]], ...: the value of
    [begin] and the labels pushed. *)
Fixpoint splitName_loop (s : string) (rest : list nat) (begin : nat)
    (labels : list string) : nat * list string :=
  match rest with
  | [] => (begin, labels)
  | end_ :: rest =>
      splitName_loop s rest end_
        (labels ++ [js_substring s begin (end_ - 1)])%list
  end.

Definition splitName (s : string) : result (list string) :=
  if (String.length s =? 0)%nat then Ok []
  else
    idx ← split s;
    let fend :=
      if charCodeAt s (String.length s - 1) =? 0x2e
      then (String.length s - 1)%nat else String.length s in
    match idx with
    | [] => Ok []
    | _ :: rest =>
        let '(begin, labels) := splitName_loop s rest 0 [] in
        Ok (labels ++ [js_substring s begin fend])%list
    end.

(** The [for (;;)] loop of [util.compareName]. *)
Fixpoint compareName_loop (fuel : nat) (s1 s2 : string) (l1 l2 : list nat)
    (i1 j1 i2 j2 : Z) (n : nat) : result nat :=
  match fuel with
  | O => Err loop_bound
  | S fuel =>
      if (i1 <? 0) || (i2 <? 0) then Ok n
      else
        let a := js_substring_opt s1 (index l1 i1) (index l1 j1) in
        let b := js_substring_opt s2 (index l2 i2) (index l2 j2) in
        if negb (String.eqb a b) then Ok n
        else compareName_loop fuel s1 s2 l1 l2 (i1 - 1) (j1 - 1) (i2 - 1)
               (j2 - 1) (n + 1)
  end.

Definition compareName (s1 s2 : string) : result nat :=
  if String.eqb s1 "." || String.eqb s2 "." then Ok 0%nat
  else
    l1 ← split s1;
    l2 ← split s2;
    let j1 := Z.of_nat (length l1) - 1 in
    let i1 := Z.of_nat (length l1) - 2 in
    let j2 := Z.of_nat (length l2) - 1 in
    let i2 := Z.of_nat (length l2) - 2 in
    let a := js_substring_opt s1 (index l1 j1) None in
    let b := js_substring_opt s2 (index l2 j2) None in
    if negb (String.eqb a b) then Ok 0%nat
    else compareName_loop (length l1 + 1) s1 s2 l1 l2 i1 j1 i2 j2 1.

Definition isSubdomain (parent child : string) : result bool :=
  n ← compareName parent child;
  c ← countLabels parent;
  Ok (n =? c)%nat.

(** [util.label(s, labels, index)] *)
Definition label (s : string) (labels : list nat) (index_ : Z) : string :=
  let index_ :=
    if index_ <? 0 then index_ + Z.of_nat (length labels) else index_ in
  if Z.of_nat (length labels) <=? index_ then ""
  else
    let start := index labels index_ in
    if index_ + 1 =? Z.of_nat (length labels) then
      if isFQDN s then
        (* s.slice(start, -1) *)
        let a := Nat.min (default 0%nat start) (String.length s) in
        String.substring a (String.length s - 1 - a) s
      else js_substring_opt s start None
    else
      match index labels (index_ + 1) with
      | Some end_ => js_substring_opt s start (Some (end_ - 1)%nat)
      | None => js_substring_opt s start (Some 0%nat)
      end.

(** [String.prototype.startsWith] and [endsWith], which Node defines, so the
    fallback code of [util.startsWith] and [util.endsWith] never runs. *)
Definition startsWith (s pre : string) : bool := String.prefix pre s.

Definition endsWith (s suf : string) : bool :=
  (String.length suf <=? String.length s)%nat
  && String.eqb
       (String.substring (String.length s - String.length suf)
          (String.length suf) s) suf.

(** [s.slice(pre.length)] *)
Definition trimPrefix (s pre : string) : string :=
  if startsWith s pre
  then String.substring (String.length pre)
         (String.length s - String.length pre) s
  else s.

(** [s.slice(0, -suf.length)]: for the empty suffix the end index is [-0],
    which is 0. *)
Definition trimSuffix (s suf : string) : string :=
  if endsWith s suf
  then String.substring 0
         (if (String.length suf =? 0)%nat then 0%nat
          else (String.length s - String.length suf)%nat) s
  else s.

End util.

(** ** bufio: the reader and the fixed-size writer the codec is written against

    The package is a dependency of the repository.  Its reader checks every
    read against the end of its buffer; its static writer checks every write
    against its capacity, and [render] asserts that the buffer was filled
    exactly. *)

Module BufferReader.

Record t : Type := mk { data : list Z; offset : nat }.

Definition byte (d : list Z) (i : nat) : Z := default 0 (d !! i).

Definition left (br : t) : nat := (length (data br) - offset br)%nat.

Definition check (br : t) (size : nat) : result unit :=
  if (length (data br) <? offset br + size)%nat
  then Err (EncodingError (offset br) "Out of bounds read")
  else Ok tt.

Definition readU8 (br : t) : result (Z * t) :=
  _ ← check br 1;
  Ok (byte (data br) (offset br), mk (data br) (offset br + 1)).

Definition readU16BE (br : t) : result (Z * t) :=
  _ ← check br 2;
  Ok (byte (data br) (offset br) * 256 + byte (data br) (offset br + 1),
      mk (data br) (offset br + 2)).

Definition readU32BE (br : t) : result (Z * t) :=
  _ ← check br 4;
  Ok (((byte (data br) (offset br) * 256
        + byte (data br) (offset br + 1)) * 256
        + byte (data br) (offset br + 2)) * 256
        + byte (data br) (offset br + 3),
      mk (data br) (offset br + 4)).

Definition readBytes (br : t) (size : nat) : result (list Z * t) :=
  _ ← check br size;
  Ok (take size (drop (offset br) (data br)), mk (data br) (offset br + size)).

End BufferReader.

Module StaticWriter.

Record t : Type := mk { data : list Z; offset : nat }.

(** [bio.write(size)].  The fresh buffer is not initialised by the library;
    every octet of it is overwritten before [render] succeeds. *)
Definition write (size : nat) : t := mk (replicate size 0) 0.

Definition check (bw : t) (size : nat) : result unit :=
  if (length (data bw) <? offset bw + size)%nat
  then Err (EncodingError (offset bw) "Out of bounds write")
  else Ok tt.

Definition writeBytes (bw : t) (value : list Z) : result t :=
  _ ← check bw (length value);
  Ok (mk (list_inserts (offset bw) value (data bw))
         (offset bw + length value)).

Definition u8 (v : Z) : list Z := [v mod 256].
Definition u16be (v : Z) : list Z := [(v / 256) mod 256; v mod 256].
Definition u32be (v : Z) : list Z :=
  [(v / 16777216) mod 256; (v / 65536) mod 256; (v / 256) mod 256; v mod 256].

Definition writeU8 (bw : t) (v : Z) : result t := writeBytes bw (u8 v).
Definition writeU16BE (bw : t) (v : Z) : result t := writeBytes bw (u16be v).
Definition writeU32BE (bw : t) (v : Z) : result t := writeBytes bw (u32be v).

Definition render (bw : t) : result (list Z) :=
  _ ← assert (offset bw =? length (data bw))%nat;
  Ok (data bw).

End StaticWriter.

(** ** lib/encoding.js *)

Module encoding.

Definition byte (d : list Z) (i : nat) : Z := default 0 (d !! i).

Definition bytes_of_string (s : string) : list Z :=
  (λ c, Z.of_nat (nat_of_ascii c)) <$> list_ascii_of_string s.

Definition char_of_byte (b : Z) : ascii := ascii_of_nat (Z.to_nat b).

(** [n.toString('ascii', 0, nl)]: the decoder clears the high bit. *)
Definition toString_ascii (n : list Z) (nl : nat) : string :=
  string_of_list_ascii ((λ b, char_of_byte (Z.land b 0x7f)) <$> take nl n).

(** [name.substring(begin)] *)
Definition substring_from (begin : nat) (s : string) : string :=
  String.substring begin (String.length s - begin) s.

Definition isDigit (ch : Z) : bool := (0 <=? ch - 0x30) && (ch - 0x30 <=? 9).

Definition toByte (n : list Z) (i : nat) : Z :=
  (byte n i - 0x30) * 100 + (byte n (i + 1) - 0x30) * 10 + (byte n (i + 2) - 0x30) * 1.

(** [for (j = from; j < to; j++) n[j] = n[j + k]], run for [cnt = to - from]
    rounds. *)
Fixpoint shift_down (k : nat) (n : list Z) (j cnt : nat) : list Z :=
  match cnt with
  | O => n
  | S c => shift_down k (<[j := byte n (j + k)]> n) (j + 1) c
  end.

(** [if (data) data[off] = v] *)
Definition store (data : option (list Z)) (off : nat) (v : Z) : option (list Z) :=
  (λ d, <[off := v mod 256]> d) <$> data.

(** The copy of one label, [for (j = begin; j < i; j++)], for [cnt = i - j]
    rounds. *)
Fixpoint copy_label (len : nat) (n : list Z) (data : option (list Z))
    (off j cnt : nat) : result (option (list Z) * nat) :=
  match cnt with
  | O => Ok (data, off)
  | S c =>
      if (len <? off + 1)%nat then Err (EncodingError off "EOF")
      else copy_label len n (store data off (byte n j)) (off + 1) (j + 1) c
  end.

(** The variables of [writeName] that its loop updates. *)
Record wstate : Type := mkw {
  w_n : list Z;
  w_nl : nat;
  w_name : string;
  w_off : nat;
  w_data : option (list Z);
  w_map : option (gmap string nat);
  w_pos : Z;
  w_ptr : Z;
  w_begin : nat;
  w_fresh : bool;
  w_escaped : bool;
  w_labels : nat
}.

Inductive ctl : Type :=
| Next (s : wstate)
| Break (s : wstate).

(** The escape branch of the loop body, [n[i] === 0x5c]. *)
Definition writeName_escape (len i : nat) (s : wstate) : result ctl :=
  let n := shift_down 1 (w_n s) i (w_nl s - 1 - i) in
  let nl := (w_nl s - 1)%nat in
  if (len <? w_off s + 1)%nat then Err (EncodingError (w_off s) "EOF")
  else
    let '(n, nl) :=
      if (i + 2 <? nl)%nat && isDigit (byte n i) && isDigit (byte n (i + 1))
         && isDigit (byte n (i + 2))
      then
        let n := <[i := toByte n i mod 256]> n in
        (shift_down 2 n (i + 1) (nl - 2 - (i + 1)), (nl - 2)%nat)
      else (n, nl) in
    Ok (Next (mkw n nl (w_name s) (w_off s) (w_data s) (w_map s) (w_pos s)
                  (w_ptr s) (w_begin s) false true (w_labels s))).

(** The label branch of the loop body, [n[i] === 0x2e]. *)
Definition writeName_dot (len : nat) (cmp : bool) (i : nat) (s : wstate)
    : result ctl :=
  if (0 <? i)%nat && (byte (w_n s) (i - 1) =? 0x2e) && negb (w_escaped s)
  then Err (EncodingError (w_off s) "Multiple dots")
  else if (64 <=? i - w_begin s)%nat
  then Err (EncodingError (w_off s) "Bad top bits")
  else if (len <? w_off s + 1)%nat
  then Err (EncodingError (w_off s) "EOF")
  else
    let data := store (w_data s) (w_off s) (Z.land (Z.of_nat (i - w_begin s)) 0xff) in
    let offset := w_off s in
    '(data, off) ← copy_label len (w_n s) data (w_off s + 1) (w_begin s)
                     (i - w_begin s);
    let '(name, fresh) :=
      if cmp && negb (w_fresh s)
      then (toString_ascii (w_n s) (w_nl s), true)
      else (w_name s, w_fresh s) in
    let continue (map : option (gmap string nat)) :=
      Next (mkw (w_n s) (w_nl s) name off data map (w_pos s) (w_ptr s)
                (i + 1) fresh false (w_labels s + 1)) in
    match w_map s with
    | None => Ok (continue None)
    | Some m =>
        let sfx := substring_from (w_begin s) name in
        if String.eqb sfx "." then Ok (continue (Some m))
        else
          match m !! sfx with
          | None =>
              if Z.of_nat offset <? Z.shiftl 2 13
              then Ok (continue (Some (<[sfx := offset]> m)))
              else Ok (continue (Some m))
          | Some p =>
              if cmp && (w_ptr s =? -1)
              then Ok (Break (mkw (w_n s) (w_nl s) name off data (Some m)
                                  (Z.of_nat offset) (Z.of_nat p) (w_begin s)
                                  fresh (w_escaped s) (w_labels s)))
              else Ok (continue (Some m))
          end
    end.

Definition writeName_body (len : nat) (cmp : bool) (i : nat) (s : wstate)
    : result ctl :=
  if byte (w_n s) i =? 0x5c then writeName_escape len i s
  else if byte (w_n s) i =? 0x2e then writeName_dot len cmp i s
  else Ok (Next (mkw (w_n s) (w_nl s) (w_name s) (w_off s) (w_data s)
                     (w_map s) (w_pos s) (w_ptr s) (w_begin s) (w_fresh s)
                     false (w_labels s))).

(** [for (let i = 0; i < nl; i++)].  [nl] never grows and [i] grows by one
    each round, so the initial [nl] bounds the number of rounds. *)
Fixpoint writeName_loop (fuel len : nat) (cmp : bool) (i : nat) (s : wstate)
    : result wstate :=
  if (i <? w_nl s)%nat then
    match fuel with
    | O => Err (Unmodelled "writeName: loop bound")
    | S f =>
        c ← writeName_body len cmp i s;
        match c with
        | Next s' => writeName_loop f len cmp (i + 1) s'
        | Break s' => Ok s'
        end
    end
  else Ok s.

(** What [writeName] returns: a bare offset for the empty name, a pair
    otherwise. *)
Inductive wret : Type :=
| RetOff (off : nat)
| RetPair (off labels : nat).

(** [data.writeUInt16BE(value, offset, true)]: with [noAssert] the two
    stores are unchecked, and a store outside the buffer is dropped. *)
Definition writeUInt16BE_noAssert (d : list Z) (value : Z) (offset : Z) : list Z :=
  let o := Z.to_nat (js.toUint32 offset) in
  <[(o + 1)%nat := js.toUint32 value mod 256]>
    (<[o := js.ushr value 8 mod 256]> d).

Definition get_last_char (s : string) : option ascii :=
  String.get (String.length s - 1) s.

(** [writeName(data, name, off, map, cmp)]; the buffer and the map are
    updated in place, so both are returned with the result. *)
Definition writeName (data : option (list Z)) (name : string) (off : nat)
    (map : option (gmap string nat)) (cmp : bool)
    : result (wret * option (list Z) * option (gmap string nat)) :=
  _ ← assert (String.length name <=? 254)%nat;
  let len := match data with Some d => length d | None => 256%nat end in
  let nl := String.length name in
  if (nl =? 0)%nat then Ok (RetOff off, data, map)
  else
    '(name, nl) ←
      match data with
      | None =>
          if negb (bool_decide (get_last_char name = Some "."%char))
          then Ok (name ++ ".", (nl + 1)%nat)
          else Ok (name, nl)
      | Some _ =>
          if negb (bool_decide (get_last_char name = Some "."%char))
          then Err (EncodingError 0 "No dot")
          else Ok (name, nl)
      end;
    let n := bytes_of_string name in
    if negb (length n =? nl)%nat then Err (EncodingError 0 "Bad ascii string")
    else
      s ← writeName_loop nl len cmp 0
            (mkw n nl name off data map (-1) (-1) 0 true false 0);
      if (length n =? 1)%nat && (byte (w_n s) 0 =? 0x2e)
      then Ok (RetPair (w_off s) (w_labels s), w_data s, w_map s)
      else if negb (w_ptr s =? -1) then
        let data :=
          (λ d, writeUInt16BE_noAssert d (w_pos s) (js.xor (w_ptr s) 0xc000))
            <$> w_data s in
        Ok (RetPair (Z.to_nat (w_pos s + 2)) (w_labels s), data, w_map s)
      else
        let data :=
          if (w_off s <? len)%nat then store (w_data s) (w_off s) 0
          else w_data s in
        Ok (RetPair (w_off s + 1) (w_labels s), data, w_map s).

(** [const [off] = exports.writeName(null, name, 0, map, cmp)]: a bare
    number cannot be destructured. *)
Definition sizeName (name : string) (map : option (gmap string nat))
    (cmp : bool) : result (nat * option (gmap string nat)) :=
  '(r, _, map) ← writeName None name 0 map cmp;
  match r with
  | RetPair off _ => Ok (off, map)
  | RetOff _ => Err (TypeError "undefined is not a function")
  end.

(** The table [ASCII] of the decoder. *)
Definition ASCII_table : list string :=
  [" "; " "; " "; " "; " "; " "; " "; " ";
   " "; " "; " "; " "; " "; " "; " "; " ";
   " "; " "; " "; " "; " "; " "; " "; " ";
   " "; " "; " "; " "; " "; " "; " "; " ";
   " "; "!"; String (ascii_of_nat 34) ""; "#"; "$"; "%"; "&"; "'";
   "("; ")"; "*"; "+"; ","; "-"; "."; "/";
   "0"; "1"; "2"; "3"; "4"; "5"; "6"; "7";
   "8"; "9"; ":"; ";"; "<"; "="; ">"; "?";
   "@"; "A"; "B"; "C"; "D"; "E"; "F"; "G";
   "H"; "I"; "J"; "K"; "L"; "M"; "N"; "O";
   "P"; "Q"; "R"; "S"; "T"; "U"; "V"; "W";
   "X"; "Y"; "Z"; "["; "\"; "]"; "^"; "_";
   "`"; "a"; "b"; "c"; "d"; "e"; "f"; "g";
   "h"; "i"; "j"; "k"; "l"; "m"; "n"; "o";
   "p"; "q"; "r"; "s"; "t"; "u"; "v"; "w";
   "x"; "y"; "z"; "{"; "|"; "}"; "~"; " "].

Definition ASCII (b : Z) : string := nth (Z.to_nat b) ASCII_table "undefined".

Definition digit (d : Z) : ascii := ascii_of_nat (Z.to_nat (0x30 + d)).

(** [toDDD(b)] for an octet [b]: its decimal digits, padded to three. *)
Definition toDDD (b : Z) : string :=
  String (digit (b / 100)) (String (digit (b / 10 mod 10))
    (String (digit (b mod 10)) "")).

Definition is_special (b : Z) : bool :=
  (b =? 0x2e) || (b =? 0x28) || (b =? 0x29) || (b =? 0x3b)
  || (b =? 0x20) || (b =? 0x40) || (b =? 0x22) || (b =? 0x5c).

(** The inner loop of the decoder over the octets of one label,
    [for (j = off; j < off + c; j++)], for [cnt] rounds; [off] is only used
    in the error. *)
Fixpoint read_label (data : list Z) (off : nat) (name : string) (max : nat)
    (j cnt : nat) : result (string * nat) :=
  match cnt with
  | O => Ok (name, max)
  | S k =>
      let b := byte data j in
      let '(name, max) :=
        if is_special b then (name ++ "\" ++ ASCII b, (max + 1)%nat)
        else if (b <? 0x20) || (0x7e <? b)
             then (name ++ "\" ++ toDDD b, (max + 3)%nat)
             else (name ++ ASCII b, max) in
      if (max <=? String.length name)%nat
      then Err (EncodingError off "Max name length exceeded")
      else read_label data off name max (j + 1) k
  end.

(** The variables of [readName]. *)
Record rstate : Type := mkr {
  r_off : nat;
  r_name : string;
  r_res : nat;
  r_max : nat;
  r_ptr : nat
}.

Inductive rstep : Type :=
| Continue (s : rstate)
| Done (s : rstate)
| Fail (e : error).

(** One round of the [for (;;)] of [readName]. *)
Definition readName_step (data : list Z) (s : rstate) : rstep :=
  if (length data <=? r_off s)%nat then Fail (EncodingError (r_off s) "EOF")
  else
    let c := byte data (r_off s) in
    let off := (r_off s + 1)%nat in
    if c =? 0x00 then Done (mkr off (r_name s) (r_res s) (r_max s) (r_ptr s))
    else if Z.land c 0xc0 =? 0x00 then
      if (length data <? off + Z.to_nat c)%nat
      then Fail (EncodingError off "EOF")
      else
        match read_label data off (r_name s) (r_max s) off (Z.to_nat c) with
        | Err e => Fail e
        | Ok (name, max) =>
            Continue (mkr (off + Z.to_nat c) (name ++ ".") (r_res s) max
                          (r_ptr s))
        end
    else if Z.land c 0xc0 =? 0xc0 then
      if (length data <=? off)%nat then Fail (EncodingError off "EOF")
      else
        let c1 := byte data off in
        let off := (off + 1)%nat in
        let res := if (r_ptr s =? 0)%nat then off else r_res s in
        let ptr := (r_ptr s + 1)%nat in
        if (10 <? ptr)%nat then Fail (EncodingError off "Too many pointers")
        else
          Continue (mkr (Z.to_nat (Z.lor (Z.shiftl (Z.lxor c 0xc0) 8) c1))
                        (r_name s) res (r_max s) ptr)
    else Fail (EncodingError off "Bad character").

(** The loop, with an explicit bound on its rounds; the bound is never
    reached (lemma [readName_loop_bounded] below). *)
Definition loop_bound : error := Unmodelled "readName: loop bound".

Fixpoint readName_loop (fuel : nat) (data : list Z) (s : rstate)
    : result rstate :=
  match fuel with
  | O => Err loop_bound
  | S f =>
      match readName_step data s with
      | Continue s' => readName_loop f data s'
      | Done s' => Ok s'
      | Fail e => Err e
      end
  end.

(** Each round either follows one of at most ten pointers or moves
    forward in the buffer. *)
Definition readName_bound (data : list Z) : nat :=
  (12 * (length data + 2))%nat.

Definition readName_init (off : nat) : rstate := mkr off "" 0 255 0.

Definition readName_finish (s : rstate) : result (nat * string) :=
  let res := if (r_ptr s =? 0)%nat then r_off s else r_res s in
  let name := if (String.length (r_name s) =? 0)%nat then "." else r_name s in
  if (r_max s <=? String.length name)%nat
  then Err (EncodingError (r_off s) "Max name length exceeded")
  else Ok (res, name).

Definition readName (data : list Z) (off : nat) : result (nat * string) :=
  s ← readName_loop (readName_bound data) data (readName_init off);
  readName_finish s.

Definition writeNameBW (bw : StaticWriter.t) (name : string)
    (map : option (gmap string nat)) (cmp : bool)
    : result (nat * StaticWriter.t * option (gmap string nat)) :=
  '(r, data, map) ←
    writeName (Some (StaticWriter.data bw)) name (StaticWriter.offset bw) map cmp;
  match r with
  | RetPair off labels =>
      Ok (labels, StaticWriter.mk (default [] data) off, map)
  | RetOff _ => Err (TypeError "undefined is not a function")
  end.

Definition readNameBR (br : BufferReader.t)
    : result (string * BufferReader.t) :=
  '(off, name) ← readName (BufferReader.data br) (BufferReader.offset br);
  Ok (name, BufferReader.mk (BufferReader.data br) off).

End encoding.

(** ** lib/wire.js: the data model *)

Module wire.

Import encoding.

Abbreviation cmap := (option (gmap string nat)).

(** EDNS0 option payloads.  Only the opaque payloads ([UNKNOWNOption] and
    [LOCALOption], whose codecs are identical) are modelled. *)
Inductive OptionData : Type :=
| UNKNOWNOption (data : list Z)
| LOCALOption (data : list Z).

Record Option : Type := mkOption {
  o_code : Z;
  o_option : OptionData
}.

(** Record payloads: the variants whose codecs the message codec itself
    relies on, plus [ARecord] as a value (its codec calls [readIP] and
    [writeIP], which are not among the sources). *)
Inductive RecordData : Type :=
| UNKNOWNRecord (data : list Z)
| ARecord (address : string)
| CNAMERecord (target : string)
| OPTRecord (options : list Option)
| SIGRecord (typeCovered algorithm labels origTTL expiration inception
             keyTag : Z) (signerName : string) (signature : list Z)
| TSIGRecord (algorithm : string) (timeSigned fudge : Z) (mac : list Z)
             (origID error : Z) (other : list Z).

Record Record_ : Type := mkRecord {
  rr_name : string;
  rr_type : Z;
  rr_class : Z;
  rr_ttl : Z;
  rr_data : RecordData
}.

Record Question : Type := mkQuestion {
  q_name : string;
  q_type : Z;
  q_class : Z
}.

Record EDNS : Type := mkEDNS {
  e_enabled : bool;
  e_size : Z;
  e_code : Z;
  e_version : Z;
  e_flags : Z;
  e_options : list OptionData
}.

Record Message : Type := mkMessage {
  id : Z;
  flags : Z;
  opcode : Z;
  code : Z;
  question : list Question;
  answer : list Record_;
  authority : list Record_;
  additional : list Record_;
  edns : EDNS;
  tsig : option Record_;
  sig0 : option Record_;
  size : nat;
  trailing : list Z
}.

Definition new_EDNS : EDNS := mkEDNS false (Z.of_nat MAX_UDP_SIZE) 0 0 0 [].

Definition new_Message : Message :=
  mkMessage 0 0 opcodes.QUERY codes.NOERROR [] [] [] [] new_EDNS None None 0 [].

Definition new_Record : Record_ :=
  mkRecord "." types.UNKNOWN classes.IN 0 (UNKNOWNRecord []).

(** [new Question()]: the constructor passes the empty name through
    [util.fqdn]. *)
Definition new_Question : Question :=
  mkQuestion (util.fqdn "") types.ANY classes.IN.

(** *** Options *)

Definition OptionData_code (o : OptionData) : Z :=
  match o with
  | UNKNOWNOption _ => options.RESERVED
  | LOCALOption _ => options.LOCALSTART
  end.

Definition OptionData_getSize (o : OptionData) : nat :=
  match o with
  | UNKNOWNOption d | LOCALOption d => length d
  end.

Definition OptionData_write (o : OptionData) (bw : StaticWriter.t)
    : result StaticWriter.t :=
  match o with
  | UNKNOWNOption d | LOCALOption d => StaticWriter.writeBytes bw d
  end.

Definition Option_getSize (o : Option) : nat :=
  (4 + OptionData_getSize (o_option o))%nat.

Definition Option_write (o : Option) (bw : StaticWriter.t)
    : result StaticWriter.t :=
  bw ← StaticWriter.writeU16BE bw (o_code o);
  bw ← StaticWriter.writeU16BE bw (Z.of_nat (OptionData_getSize (o_option o)));
  OptionData_write (o_option o) bw.

(** The option codes the registry dispatches to a typed payload that is
    not modelled here (LLQ, UL, NSID, DAU, DHU, N3U, SUBNET, EXPIRE, COOKIE,
    TCPKEEPALIVE, PADDING, CHAIN, KEYTAG). *)
Definition typed_options : list Z := [1; 2; 3; 5; 6; 7; 8; 9; 10; 11; 12; 13; 14].

(** [readOption(code, br)]: the child reader ends at [offset + size]; the
    parent continues where the child stopped. *)
Definition readOption (code : Z) (br : BufferReader.t)
    : result (OptionData * BufferReader.t) :=
  '(size, br) ← BufferReader.readU16BE br;
  let data := BufferReader.data br in
  let offset := BufferReader.offset br in
  let len := (offset + Z.to_nat size)%nat in
  _ ← assert (len <=? length data)%nat;
  let cbr := BufferReader.mk (take len data) offset in
  '(opt, cbr) ←
    (if bool_decide (code ∈ typed_options)
     then Err (Unmodelled "typed option")
     else
       '(d, cbr) ← BufferReader.readBytes cbr (BufferReader.left cbr);
       if (options.LOCALSTART <=? code) && (code <=? options.LOCALEND)
       then Ok (LOCALOption d, cbr)
       else Ok (UNKNOWNOption d, cbr));
  Ok (opt, BufferReader.mk data (BufferReader.offset cbr)).

Definition Option_read (br : BufferReader.t) : result (Option * BufferReader.t) :=
  '(code, br) ← BufferReader.readU16BE br;
  '(opt, br) ← readOption code br;
  Ok (mkOption code opt, br).

(** *** Record payloads *)

Definition RecordData_getSize (rd : RecordData) (map : cmap)
    : result (nat * cmap) :=
  match rd with
  | UNKNOWNRecord d => Ok (length d, map)
  | ARecord _ => Ok (4%nat, map)
  | CNAMERecord target => sizeName target map false
  | OPTRecord opts => Ok (foldl (λ sz o, sz + Option_getSize o)%nat 0%nat opts, map)
  | SIGRecord _ _ _ _ _ _ _ signerName signature =>
      '(sz, map) ← sizeName signerName map false;
      Ok ((18 + sz + length signature)%nat, map)
  | TSIGRecord algorithm _ _ mac _ _ other =>
      '(sz, map) ← sizeName algorithm map false;
      Ok ((16 + sz + length mac + length other)%nat, map)
  end.

Fixpoint write_options (opts : list Option) (bw : StaticWriter.t)
    : result StaticWriter.t :=
  match opts with
  | [] => Ok bw
  | o :: rest => bw ← Option_write o bw; write_options rest bw
  end.

Definition RecordData_write (rd : RecordData) (bw : StaticWriter.t) (map : cmap)
    : result (StaticWriter.t * cmap) :=
  match rd with
  | UNKNOWNRecord d => bw ← StaticWriter.writeBytes bw d; Ok (bw, map)
  | ARecord _ => Err (Unmodelled "writeIP")
  | CNAMERecord target =>
      '(_, bw, map) ← writeNameBW bw target map false; Ok (bw, map)
  | OPTRecord opts => bw ← write_options opts bw; Ok (bw, map)
  | SIGRecord typeCovered algorithm labels origTTL expiration inception
              keyTag signerName signature =>
      bw ← StaticWriter.writeU16BE bw typeCovered;
      bw ← StaticWriter.writeU8 bw algorithm;
      bw ← StaticWriter.writeU8 bw labels;
      bw ← StaticWriter.writeU32BE bw origTTL;
      bw ← StaticWriter.writeU32BE bw expiration;
      bw ← StaticWriter.writeU32BE bw inception;
      bw ← StaticWriter.writeU16BE bw keyTag;
      '(_, bw, map) ← writeNameBW bw signerName map false;
      bw ← StaticWriter.writeBytes bw signature;
      Ok (bw, map)
  | TSIGRecord algorithm timeSigned fudge mac origID error other =>
      '(_, bw, map) ← writeNameBW bw algorithm map false;
      bw ← StaticWriter.writeU16BE bw (js.toUint32 (timeSigned / 0x100000000));
      bw ← StaticWriter.writeU32BE bw (js.toUint32 timeSigned);
      bw ← StaticWriter.writeU16BE bw fudge;
      bw ← StaticWriter.writeU16BE bw (Z.of_nat (length mac));
      bw ← StaticWriter.writeBytes bw mac;
      bw ← StaticWriter.writeU16BE bw origID;
      bw ← StaticWriter.writeU16BE bw error;
      bw ← StaticWriter.writeU16BE bw (Z.of_nat (length other));
      bw ← StaticWriter.writeBytes bw other;
      Ok (bw, map)
  end.

(** [while (br.left()) this.options.push(Option.read(br))]; every round
    consumes at least four octets. *)
Fixpoint read_options (fuel : nat) (br : BufferReader.t) (acc : list Option)
    : result (list Option * BufferReader.t) :=
  if (BufferReader.left br =? 0)%nat then Ok (acc, br)
  else
    match fuel with
    | O => Err (Unmodelled "OPTRecord.read: loop bound")
    | S f =>
        '(o, br) ← Option_read br;
        read_options f br (acc ++ [o])
    end.

Definition CNAMERecord_read (br : BufferReader.t)
    : result (RecordData * BufferReader.t) :=
  '(target, br) ← readNameBR br;
  Ok (CNAMERecord target, br).

Definition UNKNOWNRecord_read (br : BufferReader.t)
    : result (RecordData * BufferReader.t) :=
  '(d, br) ← BufferReader.readBytes br (BufferReader.left br);
  Ok (UNKNOWNRecord d, br).

Definition OPTRecord_read (br : BufferReader.t)
    : result (RecordData * BufferReader.t) :=
  '(opts, br) ← read_options (BufferReader.left br) br [];
  Ok (OPTRecord opts, br).

Definition SIGRecord_read (br : BufferReader.t)
    : result (RecordData * BufferReader.t) :=
  '(typeCovered, br) ← BufferReader.readU16BE br;
  '(algorithm, br) ← BufferReader.readU8 br;
  '(labels, br) ← BufferReader.readU8 br;
  '(origTTL, br) ← BufferReader.readU32BE br;
  '(expiration, br) ← BufferReader.readU32BE br;
  '(inception, br) ← BufferReader.readU32BE br;
  '(keyTag, br) ← BufferReader.readU16BE br;
  '(signerName, br) ← readNameBR br;
  '(signature, br) ← BufferReader.readBytes br (BufferReader.left br);
  Ok (SIGRecord typeCovered algorithm labels origTTL expiration inception
                keyTag signerName signature, br).

Definition TSIGRecord_read (br : BufferReader.t)
    : result (RecordData * BufferReader.t) :=
  '(algorithm, br) ← readNameBR br;
  '(hi, br) ← BufferReader.readU16BE br;
  '(lo, br) ← BufferReader.readU32BE br;
  let timeSigned := hi * 0x100000000 + lo in
  '(fudge, br) ← BufferReader.readU16BE br;
  '(n, br) ← BufferReader.readU16BE br;
  '(mac, br) ← BufferReader.readBytes br (Z.to_nat n);
  '(origID, br) ← BufferReader.readU16BE br;
  '(error, br) ← BufferReader.readU16BE br;
  '(n, br) ← BufferReader.readU16BE br;
  '(other, br) ← BufferReader.readBytes br (Z.to_nat n);
  Ok (TSIGRecord algorithm timeSigned fudge mac origID error other, br).

(** The record types of the registry whose payload parsers are not
    modelled: every type of spec section 6 other than UNKNOWN, CNAME, SIG,
    OPT and TSIG, by its registered number. *)
Definition typed_records : list Z :=
  [1; 2; 3; 4; 6; 7; 8; 9; 10; 11; 12; 13; 14; 15; 16; 17; 18; 19; 20; 21;
   22; 23; 25; 26; 27; 28; 29; 30; 31; 32; 33; 34; 35; 36; 37; 38; 39; 40;
   42; 43; 44; 45; 46; 47; 48; 49; 50; 51; 52; 53; 55; 56; 57; 58; 59; 60;
   61; 62; 99; 100; 101; 102; 103; 104; 105; 106; 107; 108; 109; 249; 255;
   256; 257; 258; 259; 32768; 32769].

(** The [switch (type)] of [read]. *)
Definition read_switch (type : Z) (cbr : BufferReader.t)
    : result (RecordData * BufferReader.t) :=
  if type =? types.CNAME then CNAMERecord_read cbr
  else if type =? types.SIG then SIGRecord_read cbr
  else if type =? types.OPT then OPTRecord_read cbr
  else if type =? types.TSIG then TSIGRecord_read cbr
  else if bool_decide (type ∈ typed_records)
       then Err (Unmodelled "typed record")
       else UNKNOWNRecord_read cbr.

(** [read(type, br)]: the child reader is cut at [offset + size]; after
    the payload is parsed the parent takes the child's offset. *)
Definition read (type : Z) (br : BufferReader.t)
    : result (RecordData * BufferReader.t) :=
  '(size, br) ← BufferReader.readU16BE br;
  let data := BufferReader.data br in
  let offset := BufferReader.offset br in
  let len := (offset + Z.to_nat size)%nat in
  _ ← assert (len <=? length data)%nat;
  let cdata := take len data in
  let cbr := BufferReader.mk cdata offset in
  '(rd, cbr) ← read_switch type cbr;
  Ok (rd, BufferReader.mk data (BufferReader.offset cbr)).

(** *** Question and Record *)

Definition Question_getSize (qs : Question) (map : cmap) : result (nat * cmap) :=
  '(sz, map) ← sizeName (q_name qs) map false;
  Ok ((sz + 4)%nat, map).

Definition Question_write (qs : Question) (bw : StaticWriter.t) (map : cmap)
    : result (StaticWriter.t * cmap) :=
  '(_, bw, map) ← writeNameBW bw (q_name qs) map false;
  bw ← StaticWriter.writeU16BE bw (q_type qs);
  bw ← StaticWriter.writeU16BE bw (q_class qs);
  Ok (bw, map).

Definition Question_read (br : BufferReader.t)
    : result (Question * BufferReader.t) :=
  let qs := new_Question in
  '(name, br) ← readNameBR br;
  if (BufferReader.left br =? 0)%nat
  then Ok (mkQuestion name (q_type qs) (q_class qs), br)
  else
    '(type, br) ← BufferReader.readU16BE br;
    if (BufferReader.left br =? 0)%nat
    then Ok (mkQuestion name type (q_class qs), br)
    else
      '(class, br) ← BufferReader.readU16BE br;
      Ok (mkQuestion name type class, br).

Definition isOPT (rr : Record_) : bool := rr_type rr =? types.OPT.

Definition isTSIG (rr : Record_) : bool :=
  (rr_type rr =? types.TSIG) && (rr_class rr =? classes.ANY).

(** [this.data.typeCovered === 0]; only a SIG payload has the field. *)
Definition typeCovered_is_0 (rd : RecordData) : bool :=
  match rd with
  | SIGRecord typeCovered _ _ _ _ _ _ _ _ => typeCovered =? 0
  | _ => false
  end.

Definition isSIG0 (rr : Record_) : bool :=
  String.eqb (rr_name rr) "." && (rr_type rr =? types.SIG)
  && (rr_class rr =? classes.ANY) && (rr_ttl rr =? 0)
  && typeCovered_is_0 (rr_data rr).

Definition Record_getSize (rr : Record_) (map : cmap) : result (nat * cmap) :=
  '(sz, map) ← sizeName (rr_name rr) map false;
  '(dsz, map) ← RecordData_getSize (rr_data rr) map;
  Ok ((sz + 10 + dsz)%nat, map).

Definition Record_write (rr : Record_) (bw : StaticWriter.t) (map : cmap)
    : result (StaticWriter.t * cmap) :=
  '(_, bw, map) ← writeNameBW bw (rr_name rr) map false;
  bw ← StaticWriter.writeU16BE bw (rr_type rr);
  bw ← StaticWriter.writeU16BE bw (rr_class rr);
  bw ← StaticWriter.writeU32BE bw (rr_ttl rr);
  '(dsz, map) ← RecordData_getSize (rr_data rr) map;
  bw ← StaticWriter.writeU16BE bw (Z.of_nat dsz);
  RecordData_write (rr_data rr) bw map.

Definition Record_read (br : BufferReader.t)
    : result (Record_ * BufferReader.t) :=
  '(name, br) ← readNameBR br;
  '(type, br) ← BufferReader.readU16BE br;
  '(class, br) ← BufferReader.readU16BE br;
  '(ttl, br) ← BufferReader.readU32BE br;
  '(data, br) ← read type br;
  Ok (mkRecord name type class ttl data, br).

(** *** EDNS *)

(** [EDNS.toRecord]: the fresh record's [ttl] is 0 before the three
    [|=]; [>>>= 0] makes it unsigned. *)
Definition EDNS_toRecord (e : EDNS) : Record_ :=
  let ttl := 0 in
  let ttl := js.or ttl (js.shl (js.and (e_code e) 0xff) 24) in
  let ttl := js.or ttl (js.shl (js.and (e_version e) 0xff) 16) in
  let ttl := js.or ttl (js.and (e_flags e) 0xffff) in
  let ttl := js.ushr ttl 0 in
  mkRecord "." types.OPT (e_size e) ttl
    (OPTRecord ((λ o, mkOption (OptionData_code o) o) <$> e_options e)).

(** [rd.options] of the record's payload; only an OPT payload has it. *)
Definition RecordData_options (rd : RecordData) : result (list Option) :=
  match rd with
  | OPTRecord opts => Ok opts
  | _ => Err (TypeError "rd.options is not iterable")
  end.

Definition EDNS_setRecord (rr : Record_) : result EDNS :=
  _ ← assert (rr_type rr =? types.OPT);
  opts ← RecordData_options (rr_data rr);
  Ok (mkEDNS true (rr_class rr)
        (js.and (js.ushr (rr_ttl rr) 24) 0xff)
        (js.and (js.ushr (rr_ttl rr) 16) 0xff)
        (js.and (rr_ttl rr) 0xffff)
        (o_option <$> opts)).

(** *** Message *)

Definition bool_nat (b : bool) : nat := if b then 1%nat else 0%nat.

Definition arcount (m : Message) : nat :=
  (length (additional m) + bool_nat (e_enabled (edns m))
   + bool_nat (bool_decide (is_Some (tsig m)))
   + bool_nat (bool_decide (is_Some (sig0 m))))%nat.

Definition bodyLength (m : Message) : nat :=
  (length (answer m) + length (authority m) + arcount m)%nat.

Definition getFlag (m : Message) (bit : Z) : bool :=
  negb (js.and (flags m) bit =? 0).

Definition tc (m : Message) : bool := getFlag m flags.TC.

(** [rr.data.target] *)
Definition RecordData_target (rd : RecordData) : option string :=
  match rd with
  | CNAMERecord target => Some target
  | _ => None
  end.

(** [util.equal(rr.name, target)]; an undefined [target] has no length. *)
Definition equal_target (a : string) (target : option string) : result bool :=
  match target with
  | Some b => util.equal a b
  | None => Err (TypeError "Cannot read property 'length' of undefined")
  end.

Fixpoint collect_loop (rrs : list Record_) (type : Z) (target : option string)
    (result_ : list Record_) : result (list Record_) :=
  match rrs with
  | [] => Ok result_
  | rr :: rest =>
      eq ← equal_target (rr_name rr) target;
      if negb eq then collect_loop rest type target result_
      else if rr_type rr =? types.CNAME then
        let target := RecordData_target (rr_data rr) in
        if (type =? types.ANY) || (type =? types.CNAME)
        then collect_loop rest type target (result_ ++ [rr])
        else collect_loop rest type target result_
      else if negb (type =? types.ANY) && negb (rr_type rr =? type)
      then collect_loop rest type target result_
      else collect_loop rest type target (result_ ++ [rr])
  end.

Definition collect (m : Message) (name : string) (type : Z)
    : result (list Record_) :=
  _ ← assert (js.and type 0xffff =? type);
  collect_loop (answer m) type (Some (util.fqdn name)) [].

(** The result of one pass of [getSizes] over a section. *)
Inductive sizes : Type :=
| Full (size items : nat) (map : cmap)
| Cut (size items : nat).

(** [for (const rr of section)] of [getSizes].  [over] is what is returned
    when a record does not fit. *)
Fixpoint size_records (udp : bool) (max : Z) (rrs : list Record_)
    (size items : nat) (map : cmap) (over : nat * nat -> nat * nat)
    : result sizes :=
  match rrs with
  | [] => Ok (Full size items map)
  | rr :: rest =>
      '(sz, map) ← Record_getSize rr map;
      if udp && (max <? Z.of_nat (size + sz))
      then Ok (let '(s, i) := over (size, items) in Cut s i)
      else size_records udp max rest (size + sz) (items + 1) map over
  end.

Fixpoint size_questions (qs : list Question) (size : nat) (map : cmap)
    : result (nat * cmap) :=
  match qs with
  | [] => Ok (size, map)
  | q :: rest =>
      '(sz, map) ← Question_getSize q map;
      size_questions rest (size + sz) map
  end.

Definition opt_list {A} (o : option A) : list A :=
  match o with Some a => [a] | None => [] end.

(** [getSizes(udp, map)] returns [[size, items]], with [items = -1] when
    [udp] is false. *)
Definition getSizes (m : Message) (udp : bool) (map : cmap)
    : result (nat * Z * cmap) :=
  let max := Z.of_nat MAX_UDP_SIZE in
  let max :=
    if udp && e_enabled (edns m) && (max <=? e_size (edns m))
    then e_size (edns m) else max in
  '(size, map) ← size_questions (question m) 12 map;
  _ ← assert (Z.of_nat size <=? max);
  r ← size_records udp max (answer m) size 0 map (λ p, p);
  match r with
  | Cut size items => Ok (size, Z.of_nat items, map)
  | Full size items map =>
  r ← size_records udp max (authority m) size items map (λ p, p);
  match r with
  | Cut size items => Ok (size, Z.of_nat items, map)
  | Full size items map =>
  let osize := size in
  let oitems := items in
  let over := λ _ : nat * nat, (osize, oitems) in
  r ← size_records udp max (additional m) size items map over;
  match r with
  | Cut size items => Ok (size, Z.of_nat items, map)
  | Full size items map =>
  r ← size_records udp max
        (if e_enabled (edns m) then [EDNS_toRecord (edns m)] else [])
        size items map over;
  match r with
  | Cut size items => Ok (size, Z.of_nat items, map)
  | Full size items map =>
  r ← size_records udp max (opt_list (tsig m)) size items map over;
  match r with
  | Cut size items => Ok (size, Z.of_nat items, map)
  | Full size items map =>
  r ← size_records udp max (opt_list (sig0 m)) size items map over;
  match r with
  | Cut size items => Ok (size, Z.of_nat items, map)
  | Full size items map =>
      Ok (size, if udp then Z.of_nat items else -1, map)
  end end end end end end.

(** The flags word [write] emits. *)
Definition header_bits (m : Message) (items : Z) : Z :=
  let bits := flags m in
  let bits := js.and bits (js.not (js.shl 0x0f 11)) in
  let bits := js.or bits (js.shl (js.and (opcode m) 0x0f) 11) in
  let bits := js.and bits (js.not 0x0f) in
  let bits := js.or bits (js.and (code m) 0x0f) in
  if items <? Z.of_nat (bodyLength m) then js.or bits flags.TC else bits.

Inductive wflow : Type :=
| WReturn (bw : StaticWriter.t) (map : cmap)
| WGo (bw : StaticWriter.t) (items : Z) (map : cmap).

(** [for (const rr of section) { rr.write(bw, map); if (--items === 0)
    return this; }] *)
Fixpoint write_records (rrs : list Record_) (bw : StaticWriter.t) (items : Z)
    (map : cmap) : result wflow :=
  match rrs with
  | [] => Ok (WGo bw items map)
  | rr :: rest =>
      '(bw, map) ← Record_write rr bw map;
      let items := items - 1 in
      if items =? 0 then Ok (WReturn bw map)
      else write_records rest bw items map
  end.

Fixpoint write_questions (qs : list Question) (bw : StaticWriter.t) (map : cmap)
    : result (StaticWriter.t * cmap) :=
  match qs with
  | [] => Ok (bw, map)
  | q :: rest =>
      '(bw, map) ← Question_write q bw map;
      write_questions rest bw map
  end.

Definition set_edns (m : Message) (e : EDNS) : Message :=
  mkMessage (id m) (flags m) (opcode m) (code m) (question m) (answer m)
    (authority m) (additional m) e (tsig m) (sig0 m) (size m) (trailing m).

(** [if (this.code > 0x0f) { this.edns.enabled = true; this.edns.code =
    this.code >>> 4; }] *)
Definition promote_code (m : Message) : Message :=
  if 0x0f <? code m
  then set_edns m (mkEDNS true (e_size (edns m)) (js.ushr (code m) 4)
                     (e_version (edns m)) (e_flags (edns m))
                     (e_options (edns m)))
  else m.

Definition write_header (m : Message) (items : Z) (bw : StaticWriter.t)
    : result StaticWriter.t :=
  bw ← StaticWriter.writeU16BE bw (id m);
  bw ← StaticWriter.writeU16BE bw (header_bits m items);
  bw ← StaticWriter.writeU16BE bw (Z.of_nat (length (question m)));
  bw ← StaticWriter.writeU16BE bw (Z.of_nat (length (answer m)));
  bw ← StaticWriter.writeU16BE bw (Z.of_nat (length (authority m)));
  StaticWriter.writeU16BE bw (Z.of_nat (arcount m)).

(** [write(bw, items, map)]; the receiver, the writer and the map are
    updated in place and returned. *)
Definition Message_write (m : Message) (bw : StaticWriter.t) (items : Z)
    (map : cmap) : result (Message * StaticWriter.t * cmap) :=
  let body := Z.of_nat (bodyLength m) in
  let items := if items =? -1 then body else items in
  bw ← write_header m items bw;
  '(bw, map) ← write_questions (question m) bw map;
  r ← write_records (answer m) bw items map;
  match r with
  | WReturn bw map => Ok (m, bw, map)
  | WGo bw items map =>
  r ← write_records (authority m) bw items map;
  match r with
  | WReturn bw map => Ok (m, bw, map)
  | WGo bw items map =>
  r ← write_records (additional m) bw items map;
  match r with
  | WReturn bw map => Ok (m, bw, map)
  | WGo bw items map =>
  let m := promote_code m in
  r ← write_records
        (if e_enabled (edns m) then [EDNS_toRecord (edns m)] else [])
        bw items map;
  match r with
  | WReturn bw map => Ok (m, bw, map)
  | WGo bw items map =>
  r ← write_records (opt_list (tsig m)) bw items map;
  match r with
  | WReturn bw map => Ok (m, bw, map)
  | WGo bw items map =>
  r ← write_records (opt_list (sig0 m)) bw items map;
  match r with
  | WReturn bw map => Ok (m, bw, map)
  | WGo bw items map => Ok (m, bw, map)
  end end end end end end.

(** [encode(udp)]: the buffer, and the receiver as [write] left it. *)
Definition encode (m : Message) (udp : bool) : result (list Z * Message) :=
  '(size, items, _) ← getSizes m udp None;
  let bw := StaticWriter.write size in
  '(m, bw, _) ← Message_write m bw items None;
  d ← StaticWriter.render bw;
  Ok (d, m).

(** [compress(udp)]: the size pass and the write pass share a map, cleared
    in between. *)
Definition compress (m : Message) (udp : bool) : result (list Z * Message) :=
  '(size, items, _) ← getSizes m udp (Some ∅);
  let bw := StaticWriter.write size in
  '(m, bw, _) ← Message_write m bw items (Some ∅);
  d ← StaticWriter.render bw;
  Ok (d, m).

Inductive rflow : Type :=
| RReturn (m : Message)
| RGo (m : Message) (br : BufferReader.t).

Definition push_question (m : Message) (qs : Question) : Message :=
  mkMessage (id m) (flags m) (opcode m) (code m) (question m ++ [qs])
    (answer m) (authority m) (additional m) (edns m) (tsig m) (sig0 m)
    (size m) (trailing m).

Definition push_answer (m : Message) (rr : Record_) : Message :=
  mkMessage (id m) (flags m) (opcode m) (code m) (question m)
    (answer m ++ [rr]) (authority m) (additional m) (edns m) (tsig m)
    (sig0 m) (size m) (trailing m).

Definition push_authority (m : Message) (rr : Record_) : Message :=
  mkMessage (id m) (flags m) (opcode m) (code m) (question m) (answer m)
    (authority m ++ [rr]) (additional m) (edns m) (tsig m) (sig0 m)
    (size m) (trailing m).

Definition push_additional (m : Message) (rr : Record_) : Message :=
  mkMessage (id m) (flags m) (opcode m) (code m) (question m) (answer m)
    (authority m) (additional m ++ [rr]) (edns m) (tsig m) (sig0 m)
    (size m) (trailing m).

(** [this.edns.setRecord(rr); this.code &= 0x0f; this.code |=
    this.edns.code << 4;] *)
Definition take_opt (m : Message) (rr : Record_) : result Message :=
  e ← EDNS_setRecord rr;
  let c := js.and (code m) 0x0f in
  let c := js.or c (js.shl (e_code e) 4) in
  Ok (mkMessage (id m) (flags m) (opcode m) c (question m) (answer m)
        (authority m) (additional m) e (tsig m) (sig0 m) (size m)
        (trailing m)).

Definition set_tsig (m : Message) (rr : Record_) : Message :=
  mkMessage (id m) (flags m) (opcode m) (code m) (question m) (answer m)
    (authority m) (additional m) (edns m) (Some rr) (sig0 m) (size m)
    (trailing m).

Definition set_sig0 (m : Message) (rr : Record_) : Message :=
  mkMessage (id m) (flags m) (opcode m) (code m) (question m) (answer m)
    (authority m) (additional m) (edns m) (tsig m) (Some rr) (size m)
    (trailing m).

Fixpoint read_questions (cnt : nat) (m : Message) (br : BufferReader.t)
    : result rflow :=
  match cnt with
  | O => Ok (RGo m br)
  | S k =>
      if (BufferReader.left br =? 0)%nat then Ok (RReturn m)
      else
        '(qs, br) ← Question_read br;
        read_questions k (push_question m qs) br
  end.

(** The loops over the answer and the authority section; [push] is the
    section's [push]. *)
Fixpoint read_section (push : Message -> Record_ -> Message) (cnt : nat)
    (m : Message) (br : BufferReader.t) : result rflow :=
  match cnt with
  | O => Ok (RGo m br)
  | S k =>
      if tc m && (BufferReader.left br =? 0)%nat then Ok (RReturn m)
      else
        '(rr, br) ← Record_read br;
        read_section push k (push m rr) br
  end.

Fixpoint read_additional (cnt : nat) (m : Message) (br : BufferReader.t)
    : result rflow :=
  match cnt with
  | O => Ok (RGo m br)
  | S k =>
      if (BufferReader.left br =? 0)%nat then Ok (RReturn m)
      else
        '(rr, br) ← Record_read br;
        if isOPT rr then m ← take_opt m rr; read_additional k m br
        else if isTSIG rr then read_additional k (set_tsig m rr) br
        else if isSIG0 rr then read_additional k (set_sig0 m rr) br
        else read_additional k (push_additional m rr) br
  end.

(** [Message.read(br)] on the receiver [m0], in four steps: the header,
    the question, answer and authority sections, the additional section, and
    the size and trailing octets. *)
Definition read_header (m0 : Message) (br : BufferReader.t)
    : result (Message * (nat * nat * nat * nat) * BufferReader.t) :=
  '(id_, br) ← BufferReader.readU16BE br;
  '(bits, br) ← BufferReader.readU16BE br;
  '(qdcount, br) ← BufferReader.readU16BE br;
  '(ancount, br) ← BufferReader.readU16BE br;
  '(nscount, br) ← BufferReader.readU16BE br;
  '(arcount, br) ← BufferReader.readU16BE br;
  let fl := js.and (js.and bits (js.not (js.shl 0x0f 11))) (js.not 0x0f) in
  Ok (mkMessage id_ fl (js.and (js.ushr bits 11) 0x0f) (js.and bits 0x0f)
        (question m0) (answer m0) (authority m0) (additional m0)
        (edns m0) (tsig m0) (sig0 m0) (size m0) (trailing m0),
      (Z.to_nat qdcount, Z.to_nat ancount, Z.to_nat nscount, Z.to_nat arcount),
      br).

Definition read_body (qdcount ancount nscount : nat) (m : Message)
    (br : BufferReader.t) : result rflow :=
  r ← read_questions qdcount m br;
  match r with
  | RReturn m => Ok (RReturn m)
  | RGo m br =>
  r ← read_section push_answer ancount m br;
  match r with
  | RReturn m => Ok (RReturn m)
  | RGo m br => read_section push_authority nscount m br
  end end.

Definition read_finish (total : nat) (m : Message) (br : BufferReader.t)
    : result Message :=
  '(trailing, br) ←
    (if (0 <? BufferReader.left br)%nat
     then BufferReader.readBytes br (BufferReader.left br)
     else Ok (trailing m, br));
  Ok (mkMessage (id m) (flags m) (opcode m) (code m) (question m)
        (answer m) (authority m) (additional m) (edns m) (tsig m)
        (sig0 m) total trailing).

Definition Message_read (m0 : Message) (br : BufferReader.t) : result Message :=
  let total := length (BufferReader.data br) in
  '(m, (qdcount, ancount, nscount, arcount), br) ← read_header m0 br;
  r ← read_body qdcount ancount nscount m br;
  match r with
  | RReturn m => Ok m
  | RGo m br =>
  r ← read_additional arcount m br;
  match r with
  | RReturn m => Ok m
  | RGo m br => read_finish total m br
  end end.

(** [Message.decode(data)] *)
Definition decode (data : list Z) : result Message :=
  Message_read new_Message (BufferReader.mk data 0).

Definition set_flags (m : Message) (fl : Z) : Message :=
  mkMessage (id m) fl (opcode m) (code m) (question m) (answer m)
    (authority m) (additional m) (edns m) (tsig m) (sig0 m) (size m)
    (trailing m).

(** [setFlag(bit, value)]: the receiver with its flags updated, and
    [Boolean(value)]. *)
Definition setFlag (m : Message) (bit : Z) (value : bool) : Message * bool :=
  (set_flags m (if value then js.or (flags m) bit
                else js.and (flags m) (js.not bit)),
   value).

(** *** Responding to a request

    [eflags.DO] is a constant of [lib/constants.js], which is not among the
    sources: the functions that use it take it as a parameter. *)

Section Respond.

Variable DO : Z.

Definition EDNS_getFlag (e : EDNS) (bit : Z) : bool :=
  negb (js.and (e_flags e) bit =? 0).

Definition EDNS_setFlag (e : EDNS) (bit : Z) (value : bool) : EDNS * bool :=
  (mkEDNS (e_enabled e) (e_size e) (e_code e) (e_version e)
     (if value then js.or (e_flags e) bit
      else js.and (e_flags e) (js.not bit))
     (e_options e),
   value).

(** [get dnssec()] and [set dnssec(value)] *)
Definition dnssec (e : EDNS) : bool := EDNS_getFlag e DO.

Definition set_dnssec (e : EDNS) (value : bool) : EDNS :=
  (EDNS_setFlag e DO value).1.

(** [EDNS.reset()] *)
Definition EDNS_reset (e : EDNS) : EDNS :=
  mkEDNS false (Z.of_nat MAX_UDP_SIZE) 0 0 0 [].

Definition isEDNS (m : Message) : bool := e_enabled (edns m).

Definition setEDNS (m : Message) (size_ : Z) (dnssec_ : bool) : Message :=
  let e := EDNS_reset (edns m) in
  let e := mkEDNS true (e_size e) (e_code e) (e_version e) (e_flags e)
             (e_options e) in
  let e := mkEDNS (e_enabled e) size_ (e_code e) (e_version e) (e_flags e)
             (e_options e) in
  set_edns m (set_dnssec e dnssec_).

Definition unsetEDNS (m : Message) : Message :=
  let m := set_edns m (EDNS_reset (edns m)) in
  if 0x0f <? code m
  then mkMessage (id m) (flags m) (opcode m) codes.NOERROR (question m)
         (answer m) (authority m) (additional m) (edns m) (tsig m) (sig0 m)
         (size m) (trailing m)
  else m.

Definition isDNSSEC (m : Message) : bool :=
  if negb (e_enabled (edns m)) then false else dnssec (edns m).

(** [respond(req)] on the receiver [m], an object other than [req]. *)
Definition respond (m req : Message) : Message :=
  let m := mkMessage (id req) (flags m) (opcode req) (code m) (question m)
             (answer m) (authority m) (additional m) (edns m) (tsig m)
             (sig0 m) (size m) (trailing m) in
  let m := (setFlag m flags.QR true).1 in
  let m := (setFlag m flags.RD (getFlag req flags.RD)).1 in
  let m := (setFlag m flags.CD (getFlag req flags.CD)).1 in
  let m := mkMessage (id m) (flags m) (opcode m) (code m) (question req)
             (answer m) (authority m) (additional m) (edns m) (tsig m)
             (sig0 m) (size m) (trailing m) in
  if e_enabled (edns req)
  then setEDNS m (e_size (edns req)) (dnssec (edns req))
  else unsetEDNS m.

End Respond.

End wire.

(** * Example values *)

Import encoding wire.

(** ** lib/util.js: the functions over lists of records

    They read [rr.type], [rr.class] and [rr.name] only; a [Set] of types is
    asked for membership only, so it is modelled by the list it is built
    from. *)

Module rrsets.

Definition isRRSet (rrset : list Record_) : bool :=
  match rrset with
  | [] => false
  | [_] => true
  | rr0 :: rest =>
      forallb
        (λ rr, negb (negb (rr_type rr =? rr_type rr0)
                     || negb (rr_class rr =? rr_class rr0)
                     || negb (String.eqb (rr_name rr) (rr_name rr0))))
        rest
  end.

Definition filterSet (records : list Record_) (types : list Z)
    : list Record_ :=
  List.filter (λ rr, negb (bool_decide (rr_type rr ∈ types))) records.

Definition extractSet (records : list Record_) (name : string)
    (types : list Z) : list Record_ :=
  List.filter
    (λ rr, bool_decide (rr_type rr ∈ types)
           && negb (negb (String.eqb name "")
                    && negb (String.eqb name (rr_name rr))))
    records.

Definition hasAll (records : list Record_) (type : Z) : bool :=
  forallb (λ rr, negb (negb (rr_type rr =? type))) records.

End rrsets.

Module examples.

(** [example.com. CNAME www.example.com.] and
    [www.example.com. A 93.184.216.34] *)
Definition rr_cname : Record_ :=
  mkRecord "example.com." types.CNAME classes.IN 300
    (CNAMERecord "www.example.com.").

Definition rr_a : Record_ :=
  mkRecord "www.example.com." types.A classes.IN 300
    (ARecord "93.184.216.34").

Definition cname_answer : Message :=
  mkMessage 0 0 opcodes.QUERY codes.NOERROR [] [rr_cname; rr_a] [] []
    new_EDNS None None 0 [].

(** A response with the extended code BADVERS, one question and one answer,
    on which EDNS was not switched on. *)
Definition badvers_response : Message :=
  mkMessage 0x1234 flags.QR opcodes.QUERY codes.BADVERS
    [mkQuestion "example.com." types.A classes.IN] [rr_cname] [] []
    new_EDNS None None 0 [].

(** The same without any record. *)
Definition badvers_empty : Message :=
  mkMessage 0x1234 flags.QR opcodes.QUERY codes.BADVERS
    [mkQuestion "example.com." types.A classes.IN] [] [] []
    new_EDNS None None 0 [].

(** A message that already carries TC and has no record to drop. *)
Definition tc_query : Message :=
  mkMessage 7 flags.TC opcodes.QUERY codes.NOERROR
    [mkQuestion "example.com." types.A classes.IN] [] [] []
    new_EDNS None None 0 [].





End examples.

(** [decode(encode(m))] *)
Definition roundtrip (m : Message) : result Message :=
  '(buf, _) ← encode m false;
  decode buf.

(** ** Notions used in the statements below *)

(** A parser leaves its reader's buffer alone and stops inside it. *)
Definition stays_inside {A} (f : BufferReader.t -> result (A * BufferReader.t))
    : Prop :=
  forall br a br', f br = Ok (a, br') ->
    BufferReader.data br' = BufferReader.data br
    /\ (BufferReader.offset br' <= length (BufferReader.data br'))%nat.


(** The states the loop of [readName] goes through. *)
Inductive reaches (data : list Z) : rstate -> rstate -> Prop :=
| reaches_refl s : reaches data s s
| reaches_step s s1 s2 :
    readName_step data s = Continue s1 -> reaches data s1 s2 ->
    reaches data s s2.

(** What is left to the loop of [readName]: pointers it may still follow,
    and octets ahead of it. *)
Definition rmeasure (data : list Z) (s : rstate) : nat :=
  ((11 - r_ptr s) * (length data + 1) + (length data - r_off s))%nat.

(** *** Names as label sequences (spec sections 3 and 4.1)

    A name is a list of labels, a label a list of octets.  Its presentation
    form escapes the reserved characters as [\X] and the octets outside
    [0x20, 0x7e] as [\DDD], and ends every label with a dot; its wire form
    prefixes every label with its length and ends with the root octet. *)

Definition esc_codes (b : Z) : list Z :=
  if is_special b then [0x5c; b]
  else if (b <? 0x20) || (0x7e <? b)
       then [0x5c; 0x30 + b / 100; 0x30 + b / 10 mod 10; 0x30 + b mod 10]
       else [b].

Definition label_codes (l : list Z) : list Z := concat (esc_codes <$> l).

Definition pres_codes (labels : list (list Z)) : list Z :=
  concat ((λ l, (label_codes l ++ [0x2e])%list) <$> labels).

Definition string_of_codes (l : list Z) : string :=
  string_of_list_ascii (char_of_byte <$> l).

Definition presentation (labels : list (list Z)) : string :=
  match labels with
  | [] => "."
  | _ => string_of_codes (pres_codes labels)
  end.

Definition wire_label (l : list Z) : list Z := Z.of_nat (length l) :: l.

Definition wire_labels (labels : list (list Z)) : list Z :=
  concat (wire_label <$> labels).

Definition wire_name (labels : list (list Z)) : list Z :=
  (wire_labels labels ++ [0])%list.

Definition octets (l : list Z) : Prop := Forall (λ b, 0 <= b < 256) l.

(** The name invariants of spec section 3. *)
Definition valid_label (l : list Z) : Prop :=
  (1 <= length l <= 63)%nat /\ octets l.

Definition valid_name (labels : list (list Z)) : Prop :=
  Forall valid_label labels /\ (length (wire_name labels) <= 255)%nat.

(** The number of labels [writeName] reports: the root counts as one. *)
Definition label_count (labels : list (list Z)) : nat :=
  match labels with
  | [] => 1%nat
  | _ => length labels
  end.

(** The key under which [writeName], with compression on, looks up and
    records the suffix that starts with the label [l] and goes on with the
    labels [rest]. *)
Definition cmp_key (l : list Z) (rest : list (list Z)) : string :=
  string_of_list_ascii
    ((λ b, char_of_byte (Z.land b 0x7f))
       <$> (l ++ [0x2e] ++ pres_codes rest)%list).

(** The compression discipline of spec section 4.1, label by label: a
    suffix found in the map ends the name with a pointer to the offset found;
    a suffix not found is recorded, if its offset fits in 14 bits, and its
    first label is written out.  The result is the labels written out, the
    offset pointed to, if any, and the map. *)
Fixpoint compress_scan (m : gmap string nat) (off : nat)
    (labels : list (list Z))
    : list (list Z) * option nat * gmap string nat :=
  match labels with
  | [] => ([], None, m)
  | l :: rest =>
      match m !! cmp_key l rest with
      | Some p => ([], Some p, m)
      | None =>
          let m := if Z.of_nat off <? 16384 then <[cmp_key l rest := off]> m
                   else m in
          let '(ls, p, m) := compress_scan m (off + 1 + length l) rest in
          (l :: ls, p, m)
      end
  end.

(** The same for the optional map of [writeName]: without a map every
    label is written out. *)
Definition scan (map : cmap) (off : nat) (labels : list (list Z))
    : list (list Z) * option nat * cmap :=
  match map with
  | None => (labels, None, None)
  | Some m =>
      let '(ls, p, m) := compress_scan m off labels in (ls, p, Some m)
  end.

(** *** The records of a message in the order [write] emits them *)







(** A state of [writeName]'s loop as the size pass has it: [data] is
    [null]. *)
Definition without_data (s : wstate) : wstate :=
  mkw (w_n s) (w_nl s) (w_name s) (w_off s) None (w_map s) (w_pos s)
    (w_ptr s) (w_begin s) (w_fresh s) (w_escaped s) (w_labels s).

Definition ctl_without_data (c : ctl) : ctl :=
  match c with
  | Next s => Next (without_data s)
  | Break s => Break (without_data s)
  end.

(** The octets [v] stand in the buffer [d] from the offset [o] on. *)
Definition holds (d : list Z) (o : nat) (v : list Z) : Prop :=
  take (length v) (drop o d) = v.

(** The same states and results with the compression map left out. *)
Definition without_map (s : wstate) : wstate :=
  mkw (w_n s) (w_nl s) (w_name s) (w_off s) (w_data s) None (w_pos s)
    (w_ptr s) (w_begin s) (w_fresh s) (w_escaped s) (w_labels s).

Definition ctl_without_map (c : ctl) : ctl :=
  match c with
  | Next s => Next (without_map s)
  | Break s => Break (without_map s)
  end.

Definition result_map {A B} (f : A -> B) (r : result A) : result B :=
  match r with
  | Ok a => Ok (f a)
  | Err e => Err e
  end.

Definition forget_map {A} (r : result (A * cmap)) : result A :=
  result_map fst r.

Definition sizes_without_map (r : sizes) : sizes :=
  match r with
  | Full size items _ => Full size items None
  | Cut size items => Cut size items
  end.

Definition wflow_without_map (r : wflow) : wflow :=
  match r with
  | WReturn bw _ => WReturn bw None
  | WGo bw items _ => WGo bw items None
  end.

(** The octets of an EDNS option on the wire: code, length, payload. *)
Definition OptionData_data (o : OptionData) : list Z :=
  match o with
  | UNKNOWNOption d | LOCALOption d => d
  end.

Definition option_octets (o : Option) : list Z :=
  (StaticWriter.u16be (o_code o)
     ++ StaticWriter.u16be (Z.of_nat (OptionData_getSize (o_option o)))
     ++ OptionData_data (o_option o))%list.

(** An option as [readOption] builds it: a 16-bit code that has no typed
    payload, a [LOCALOption] exactly for the codes of the local range, and a
    payload whose length fits in 16 bits. *)
Definition plain_option (o : Option) : Prop :=
  0 <= o_code o < 65536
  /\ (o_code o ∉ typed_options)
  /\ Z.of_nat (OptionData_getSize (o_option o)) < 65536
  /\ (options.LOCALSTART <=? o_code o) && (o_code o <=? options.LOCALEND)
     = match o_option o with
       | LOCALOption _ => true
       | UNKNOWNOption _ => false
       end.

Definition options_octets (opts : list Option) : list Z :=
  concat (option_octets <$> opts).

(** *** Questions and records on the wire

    The octets of a question, and of a record whose payload is opaque or
    a CNAME target, with the conditions under which the codec stores every
    field in full: valid names, 16-bit type and class, 32-bit TTL, a payload
    length that fits in 16 bits. *)
Inductive wire_question : Question -> list Z -> Prop :=
| wire_question_intro labels type class :
    valid_name labels ->
    (String.length (presentation labels) <= 254)%nat ->
    0 <= type < 65536 -> 0 <= class < 65536 ->
    wire_question (mkQuestion (presentation labels) type class)
      (wire_name labels ++ StaticWriter.u16be type
         ++ StaticWriter.u16be class)%list.

Inductive wire_record : Record_ -> list Z -> Prop :=
| wire_record_opaque labels type class ttl payload :
    valid_name labels ->
    (String.length (presentation labels) <= 254)%nat ->
    0 <= type < 65536 -> 0 <= class < 65536 -> 0 <= ttl < 4294967296 ->
    Z.of_nat (length payload) < 65536 ->
    type <> types.CNAME -> type <> types.SIG -> type <> types.OPT ->
    type <> types.TSIG -> type ∉ typed_records ->
    wire_record
      (mkRecord (presentation labels) type class ttl (UNKNOWNRecord payload))
      (wire_name labels ++ StaticWriter.u16be type
         ++ StaticWriter.u16be class ++ StaticWriter.u32be ttl
         ++ StaticWriter.u16be (Z.of_nat (length payload)) ++ payload)%list
| wire_record_cname labels target class ttl :
    valid_name labels ->
    (String.length (presentation labels) <= 254)%nat ->
    valid_name target ->
    (String.length (presentation target) <= 254)%nat ->
    0 <= class < 65536 -> 0 <= ttl < 4294967296 ->
    wire_record
      (mkRecord (presentation labels) types.CNAME class ttl
         (CNAMERecord (presentation target)))
      (wire_name labels ++ StaticWriter.u16be types.CNAME
         ++ StaticWriter.u16be class ++ StaticWriter.u32be ttl
         ++ StaticWriter.u16be (Z.of_nat (length (wire_name target)))
         ++ wire_name target)%list.

(** The twelve octets of the header of a message without pseudo-records,
    written in full. *)
Definition header_octets (m : Message) : list Z :=
  (StaticWriter.u16be (id m)
     ++ StaticWriter.u16be (header_bits m (Z.of_nat (bodyLength m)))
     ++ StaticWriter.u16be (Z.of_nat (length (question m)))
     ++ StaticWriter.u16be (Z.of_nat (length (answer m)))
     ++ StaticWriter.u16be (Z.of_nat (length (authority m)))
     ++ StaticWriter.u16be (Z.of_nat (arcount m)))%list.

(** The offsets [util.split] pushes: each one follows a dot inside the
    string. *)
Definition label_start (s : string) (x : nat) : Prop :=
  (0 < x < String.length s)%nat /\ util.charCodeAt s (x - 1) = 0x2e.

(** The offsets [util.nextLabel] returns one after the other from [off]
    on, up to the call that reports the end. *)
Inductive offsets_from (s : string) : nat -> list nat -> Prop :=
| offsets_end off off' :
    util.nextLabel s off = (off', true) -> offsets_from s off []
| offsets_more off off' new :
    util.nextLabel s off = (off', false) ->
    offsets_from s off' new -> offsets_from s off (off' :: new).

(** The octets of the OPT record that carries an EDNS state: the root name,
    type 41, the UDP size as class, the TTL that packs code, version and
    flags, and the options behind their length. *)
Definition edns_octets (e : EDNS) : list Z :=
  let opts := (λ o, mkOption (OptionData_code o) o) <$> e_options e in
  ([0] ++ StaticWriter.u16be types.OPT ++ StaticWriter.u16be (e_size e)
     ++ StaticWriter.u32be
          (e_code e * 16777216 + e_version e * 65536 + e_flags e)
     ++ StaticWriter.u16be (Z.of_nat (length (options_octets opts)))
     ++ options_octets opts)%list.

(** * Properties *)

Local Open Scope list_scope.
Local Open Scope Z_scope.

(** * util.equal *)

Lemma equal_from_not_false (a b : string) (n : nat) :
  util.equal_from a b n <> Ok false.
Proof.
  induction n as [|i IH]; simpl; [discriminate|].
  destruct (_ && _); [discriminate|].
  rewrite Z.eqb_refl. simpl. exact IH.
Qed.

(** Strings of one length are never told apart: the second argument is
    only measured. *)
Lemma equal_same_length (a b : string) :
  String.length a = String.length b -> util.equal a b <> Ok false.
Proof.
  intros Hlen. unfold util.equal.
  rewrite Hlen, Nat.eqb_refl. simpl. rewrite <- Hlen.
  apply equal_from_not_false.
Qed.

(** C7. [util.equal("a", "b")] returns [true], where the two-argument
    case fold of the specification tells the strings apart: the loop reads
    both characters from [a]. *)
Theorem equal_reads_one_string :
  util.equal "a" "b" = Ok true /\ util.spec_fold_equal "a" "b" = false.
Proof. split; reflexivity. Qed.

(** An upper-case letter in [a] makes [util.equal] throw. *)
Lemma equal_upper_case_throws :
  util.equal "A" "a" = Err (TypeError "Assignment to constant variable.").
Proof. reflexivity. Qed.

(** * Message.collect *)

(** C8. On the answer section [example.com. CNAME www.example.com.,
    www.example.com. A 93.184.216.34], [collect('example.com.', A)] returns
    the empty list: [util.fqdn] strips the final dot of the query name, so no
    owner name has the length of the target.  Started from the qualified
    name, the same loop follows the CNAME and returns the A record. *)
Theorem collect_cname_example :
  collect examples.cname_answer "example.com." types.A = Ok []
  /\ util.fqdn "example.com." = "example.com"
  /\ collect_loop (answer examples.cname_answer) types.A
       (Some "example.com.") [] = Ok [examples.rr_a].
Proof. repeat split; reflexivity. Qed.

(** * Extended response codes *)

(** C1. The response with code BADVERS (16) and EDNS switched off is
    encoded without error, and decoding the buffer yields a message whose
    code is 0 and whose EDNS slot is still disabled: [write] promotes the
    code to EDNS only after the header, the sizes and the record budget were
    fixed, and returns before it reaches the promotion. *)
Theorem roundtrip_loses_extended_code :
  match roundtrip examples.badvers_response with
  | Ok m' =>
      code examples.badvers_response = 16 /\ code m' = 0
      /\ e_enabled (edns m') = false
      /\ question m' = question examples.badvers_response
      /\ answer m' = answer examples.badvers_response
  | Err _ => False
  end.
Proof. vm_compute. repeat split; reflexivity. Qed.

(** C3. For the code BADVERS (16) on a message without EDNS: with one
    answer record, the buffer [encode] returns announces no additional
    record (octets 10 and 11) and ends with the answer, so no OPT record
    carries the high bits, and the header keeps the low nibble 0; without
    any record, [write] does reach the promotion, emits an OPT record the
    size pass did not count, and overflows the buffer. *)
Theorem extended_code_without_edns :
  match encode examples.badvers_response false with
  | Ok (buf, _) =>
      length buf = 69%nat
      /\ BufferReader.byte buf 3 = 0
      /\ BufferReader.byte buf 10 = 0 /\ BufferReader.byte buf 11 = 0
      /\ match decode buf with Ok m' => code m' = 0 | Err _ => False end
  | Err _ => False
  end
  /\ encode examples.badvers_empty false = Err (EncodingError 29 "EOF").
Proof. vm_compute. repeat split; reflexivity. Qed.
(** * The write pass *)

Lemma bind_Ok {A B} (r : result A) (k : A -> result B) (b : B) :
  (r ≫= k) = Ok b -> exists a, r = Ok a /\ k a = Ok b.
Proof. destruct r as [a|e]; simpl; [eauto | discriminate]. Qed.

Ltac bind_ok H :=
  let a := fresh "a" in
  let Ha := fresh "Ha" in
  apply bind_Ok in H; destruct H as (a & Ha & H).


Tactic Notation "bind_in" hyp(H) "as" simple_intropattern(p) ident(Ha) :=
  apply bind_Ok in H; destruct H as (p & Ha & H).

Lemma write_records_flow rrs : forall bw items map r,
  write_records rrs bw items map = Ok r ->
  match r with
  | WReturn _ _ => 0 < items <= Z.of_nat (length rrs)
  | WGo _ items' _ =>
      items' = items - Z.of_nat (length rrs)
      /\ ~ (0 < items <= Z.of_nat (length rrs))
  end.
Proof.
  induction rrs as [|rr rest IH]; intros bw items map r H.
  - simpl in H. injection H as <-. simpl. lia.
  - cbn [write_records] in H. bind_ok H. destruct a as [bw1 map1].
    destruct (items - 1 =? 0) eqn:E.
    + injection H as <-. apply Z.eqb_eq in E. simpl length. lia.
    + apply Z.eqb_neq in E. apply IH in H.
      destruct r; simpl length; lia.
Qed.

Lemma promote_code_small m : code m <= 0x0f -> promote_code m = m.
Proof.
  intros H. unfold promote_code.
  destruct (0x0f <? code m) eqn:E; [apply Z.ltb_lt in E; lia | reflexivity].
Qed.

Lemma promote_code_sections m :
  answer (promote_code m) = answer m /\ authority (promote_code m) = authority m
  /\ additional (promote_code m) = additional m
  /\ tsig (promote_code m) = tsig m /\ sig0 (promote_code m) = sig0 m.
Proof. unfold promote_code. destruct (_ <? _); repeat split; reflexivity. Qed.

Lemma Message_write_receiver m bw items map m' bw' map' :
  Message_write m bw items map = Ok (m', bw', map') ->
  let budget := if items =? -1 then Z.of_nat (bodyLength m) else items in
  let n := Z.of_nat (length (answer m) + length (authority m)
                     + length (additional m)) in
  (0 < budget <= n -> m' = m) /\ (~ (0 < budget <= n) -> m' = promote_code m).
Proof.
  intros H budget n. unfold Message_write in H. fold budget in H.
  bind_ok H. bind_ok H. destruct a0 as [bw1 map1].
  bind_ok H. pose proof (write_records_flow _ _ _ _ _ Ha1) as F1.
  destruct a0 as [bwr mapr | bw2 it2 map2].
  { injection H as <- _ _. subst n. split; [reflexivity | intros; lia]. }
  destruct F1 as [-> F1].
  bind_ok H. pose proof (write_records_flow _ _ _ _ _ Ha2) as F2.
  destruct a0 as [bwr mapr | bw3 it3 map3].
  { injection H as <- _ _. subst n. split; [reflexivity | intros; lia]. }
  destruct F2 as [-> F2].
  bind_ok H. pose proof (write_records_flow _ _ _ _ _ Ha3) as F3.
  destruct a0 as [bwr mapr | bw4 it4 map4].
  { injection H as <- _ _. subst n. split; [reflexivity | intros; lia]. }
  destruct F3 as [-> F3].
  assert (m' = promote_code m) as ->.
  { bind_ok H. destruct a0; [injection H as <- _ _; reflexivity|].
    bind_ok H. destruct a0; [injection H as <- _ _; reflexivity|].
    bind_ok H. destruct a0; injection H as <- _ _; reflexivity. }
  subst n. split; [intros; lia | reflexivity].
Qed.

Lemma Message_write_cases m bw items map m' bw' map' :
  Message_write m bw items map = Ok (m', bw', map') ->
  (m' = m \/ m' = promote_code m) /\ (code m <= 0x0f -> m' = m).
Proof.
  intros H. destruct (Message_write_receiver _ _ _ _ _ _ _ H) as [Hearly Hlate].
  set (budget := if items =? -1 then Z.of_nat (bodyLength m) else items) in *.
  set (n := Z.of_nat (length (answer m) + length (authority m)
                      + length (additional m))) in *.
  destruct (Z_lt_le_dec 0 budget) as [H0|H0];
    [destruct (Z_le_gt_dec budget n) as [Hn|Hn]|].
  - rewrite Hearly by lia. auto.
  - rewrite Hlate by lia. split; [auto | apply promote_code_small].
  - rewrite Hlate by lia. split; [auto | apply promote_code_small].
Qed.

(** * Readers stay inside their buffer *)

Section Inside.

Import BufferReader.

Lemma check_Ok br size :
  check br size = Ok tt <-> (offset br + size <= length (data br))%nat.
Proof.
  unfold check. destruct (Nat.ltb_spec (length (data br)) (offset br + size));
    split; intros; try discriminate; try reflexivity; lia.
Qed.

Lemma check_inv br size u :
  check br size = Ok u -> (offset br + size <= length (data br))%nat.
Proof. destruct u. apply check_Ok. Qed.




Lemma readBytes_inside size : stays_inside (λ br, readBytes br size).
Proof.
  intros br a br' H. unfold readBytes in H. bind_ok H. apply check_inv in Ha.
  injection H as _ <-. simpl. split; [reflexivity | lia].
Qed.

Lemma readBytes_left_inside : stays_inside (λ br, readBytes br (left br)).
Proof. intros br a br' H. exact (readBytes_inside _ _ _ _ H). Qed.


End Inside.

Lemma readName_loop_inside data : forall fuel s s',
  (r_ptr s <> 0%nat -> (r_res s <= length data)%nat) ->
  readName_loop fuel data s = Ok s' ->
  (r_off s' <= length data)%nat
  /\ (r_ptr s' <> 0%nat -> (r_res s' <= length data)%nat).
Proof.
  induction fuel as [|f IH]; intros s s' Hres H; [discriminate|].
  cbn [readName_loop] in H. unfold readName_step in H.
  destruct (Nat.leb_spec (length data) (r_off s)) as [|Hoff]; [discriminate|].
  destruct (byte data (r_off s) =? 0).
  { injection H as <-. simpl. split; [lia | exact Hres]. }
  destruct (Z.land _ _ =? 0).
  { destruct (Nat.ltb_spec (length data) (r_off s + 1 + Z.to_nat (byte data (r_off s))));
      [discriminate|].
    destruct (read_label _ _ _ _ _ _) as [[name max]|e]; [|discriminate].
    apply IH in H; [exact H | exact Hres]. }
  destruct (Z.land _ _ =? 0xc0); [|discriminate].
  destruct (Nat.leb_spec (length data) (r_off s + 1)); [discriminate|].
  destruct (Nat.ltb_spec 10 (r_ptr s + 1)); [discriminate|].
  apply IH in H; [exact H|]. simpl. intros _.
  destruct (Nat.eqb_spec (r_ptr s) 0); [lia | auto].
Qed.

Lemma readName_inside data off res name :
  readName data off = Ok (res, name) -> (res <= length data)%nat.
Proof.
  unfold readName. intros H. bind_ok H.
  apply readName_loop_inside in Ha; [|simpl; lia].
  unfold readName_finish in H. destruct (_ <=? _)%nat; [discriminate|].
  injection H as <- _. destruct Ha as [H1 H2].
  destruct (Nat.eqb_spec (r_ptr a) 0); [exact H1 | auto].
Qed.















(** * The record frame *)




(** * What [write] does to its receiver *)




(** [encode] hands back the receiver as [write] left it. *)
Lemma encode_receiver m udp buf m' :
  encode m udp = Ok (buf, m') ->
  (m' = m \/ m' = promote_code m) /\ (code m <= 0x0f -> m' = m).
Proof.
  unfold encode. intros H. bind_in H as [[sz items] mp] Hs.
  bind_in H as [[m1 bw1] mp1] Hw. bind_in H as d Hr. injection H as _ <-.
  exact (Message_write_cases _ _ _ _ _ _ _ Hw).
Qed.

(** * The additional section *)













(** * readName: termination and rejections *)

Lemma read_label_error data off : forall cnt name max j e,
  read_label data off name max j cnt = Err e ->
  e = EncodingError off "Max name length exceeded".
Proof.
  induction cnt as [|k IH]; intros name max j e H; simpl in H; [discriminate|].
  destruct (is_special _); [|destruct (_ || _)];
    (destruct (_ <=? _)%nat; [injection H as <-; reflexivity | eauto]).
Qed.

Lemma readName_step_error data s e :
  readName_step data s = Fail e -> exists o msg, e = EncodingError o msg.
Proof.
  unfold readName_step. intros H.
  destruct (_ <=? _)%nat; [injection H as <-; eauto|].
  destruct (_ =? 0); [discriminate|].
  destruct (Z.land _ _ =? 0).
  { destruct (_ <? _)%nat; [injection H as <-; eauto|].
    destruct (read_label _ _ _ _ _ _) as [[name max]|e'] eqn:E; [discriminate|].
    injection H as <-. apply read_label_error in E. eauto. }
  destruct (Z.land _ _ =? 0xc0); [|injection H as <-; eauto].
  destruct (_ <=? _)%nat; [injection H as <-; eauto|].
  destruct (_ <? _)%nat; [injection H as <-; eauto | discriminate].
Qed.

Lemma rmeasure_step data s s' :
  readName_step data s = Continue s' -> (r_ptr s <= 10)%nat ->
  (rmeasure data s' < rmeasure data s)%nat /\ (r_ptr s' <= 10)%nat.
Proof.
  unfold readName_step, rmeasure. intros H Hp.
  destruct (Nat.leb_spec (length data) (r_off s)); [discriminate|].
  destruct (_ =? 0); [discriminate|].
  destruct (Z.land _ _ =? 0).
  { destruct (Nat.ltb_spec (length data)
                (r_off s + 1 + Z.to_nat (byte data (r_off s)))); [discriminate|].
    destruct (read_label _ _ _ _ _ _) as [[name max]|e']; [|discriminate].
    injection H as <-. simpl. split; [nia | lia]. }
  destruct (Z.land _ _ =? 0xc0); [|discriminate].
  destruct (Nat.leb_spec (length data) (r_off s + 1)); [discriminate|].
  destruct (Nat.ltb_spec 10 (r_ptr s + 1)); [discriminate|].
  injection H as <-. simpl. split; [nia | lia].
Qed.

Lemma readName_loop_bounded data : forall fuel s,
  (r_ptr s <= 10)%nat -> (rmeasure data s < fuel)%nat ->
  readName_loop fuel data s <> Err loop_bound.
Proof.
  induction fuel as [|f IH]; intros s Hp Hm; [lia|].
  cbn [readName_loop].
  destruct (readName_step data s) as [s'|s'|e] eqn:E.
  - destruct (rmeasure_step _ _ _ E Hp). apply IH; [assumption | lia].
  - discriminate.
  - apply readName_step_error in E as (o & msg & ->). discriminate.
Qed.

Lemma rmeasure_init data off :
  (rmeasure data (readName_init off) < readName_bound data)%nat.
Proof. unfold rmeasure, readName_bound. simpl. lia. Qed.

Lemma reaches_loop data s0 s :
  reaches data s0 s -> (r_ptr s0 <= 10)%nat ->
  forall fuel, (rmeasure data s0 < fuel)%nat ->
  exists fuel', (rmeasure data s < fuel')%nat /\ (r_ptr s <= 10)%nat
    /\ readName_loop fuel data s0 = readName_loop fuel' data s.
Proof.
  induction 1 as [s|s s1 s2 Hstep Hreach IH]; intros Hp fuel Hm.
  - exists fuel. auto.
  - destruct (rmeasure_step _ _ _ Hstep Hp) as [Hlt Hp1].
    destruct fuel as [|f]; [lia|].
    destruct (IH Hp1 f ltac:(lia)) as (fuel' & H1 & H2 & H3).
    exists fuel'. split; [assumption|]. split; [assumption|].
    cbn [readName_loop]. rewrite Hstep. exact H3.
Qed.

(** A state the loop reaches on which the next round fails decides the
    result. *)
Lemma reaches_fail data off s e :
  reaches data (readName_init off) s -> readName_step data s = Fail e ->
  readName data off = Err e.
Proof.
  intros Hr Hs.
  destruct (reaches_loop _ _ _ Hr ltac:(simpl; lia) _ (rmeasure_init data off))
    as (fuel' & Hm & _ & Heq).
  unfold readName. rewrite Heq.
  destruct fuel' as [|f]; [lia|]. cbn [readName_loop]. rewrite Hs. reflexivity.
Qed.

(** * Strings and character codes *)

Lemma string_app_cons x (a b : string) :
  String x a +:+ b = String x (a +:+ b).
Proof. reflexivity. Qed.

Lemma string_of_list_ascii_app a b :
  string_of_list_ascii (a ++ b)
  = string_of_list_ascii a +:+ string_of_list_ascii b.
Proof.
  induction a as [|c a IH]; [reflexivity|].
  simpl. rewrite IH, string_app_cons. reflexivity.
Qed.

Lemma string_of_codes_app a b :
  string_of_codes (a ++ b) = string_of_codes a +:+ string_of_codes b.
Proof. unfold string_of_codes. rewrite fmap_app. apply string_of_list_ascii_app. Qed.

Lemma length_string_of_list_ascii l :
  String.length (string_of_list_ascii l) = length l.
Proof. induction l as [|c l IH]; simpl; [reflexivity | rewrite IH; reflexivity]. Qed.

Lemma length_string_of_codes l : String.length (string_of_codes l) = length l.
Proof.
  unfold string_of_codes. rewrite length_string_of_list_ascii.
  apply length_fmap.
Qed.

Lemma string_length_app (a b : string) :
  String.length (a +:+ b) = (String.length a + String.length b)%nat.
Proof.
  induction a as [|c a IH]; [reflexivity|].
  rewrite string_app_cons. simpl. rewrite IH. reflexivity.
Qed.

Lemma string_app_assoc (a b c : string) :
  (a +:+ b) +:+ c = a +:+ (b +:+ c).
Proof.
  induction a as [|x a IH]; [reflexivity|].
  rewrite !string_app_cons, IH. reflexivity.
Qed.

Lemma string_app_nil_r (a : string) : a +:+ "" = a.
Proof.
  induction a as [|x a IH]; [reflexivity|].
  rewrite string_app_cons, IH. reflexivity.
Qed.

(** The decoder's table holds, at every printable code, the character of
    that code. *)
Lemma ASCII_table_printable :
  forallb (λ n, String.eqb (ASCII (Z.of_nat n)) (string_of_codes [Z.of_nat n]))
    (seq 32 95) = true.
Proof. vm_compute. reflexivity. Qed.

Lemma ASCII_printable b : 0x20 <= b <= 0x7e -> ASCII b = string_of_codes [b].
Proof.
  intros H. pose proof ASCII_table_printable as T.
  rewrite forallb_forall in T.
  specialize (T (Z.to_nat b)). rewrite Z2Nat.id in T by lia.
  apply String.eqb_eq, T, in_seq. lia.
Qed.

Lemma is_special_cases b :
  is_special b = true ->
  b = 0x2e \/ b = 0x28 \/ b = 0x29 \/ b = 0x3b \/ b = 0x20 \/ b = 0x40
  \/ b = 0x22 \/ b = 0x5c.
Proof.
  unfold is_special. rewrite !orb_true_iff, !Z.eqb_eq. tauto.
Qed.

Lemma is_special_printable b : is_special b = true -> 0x20 <= b <= 0x7e.
Proof. intros H. apply is_special_cases in H. lia. Qed.

(** What the decoder appends for one octet is the presentation of that
    octet. *)
Lemma esc_codes_string b :
  (if is_special b then "\" +:+ ASCII b
   else if (b <? 0x20) || (0x7e <? b) then "\" +:+ toDDD b else ASCII b)
  = string_of_codes (esc_codes b).
Proof.
  unfold esc_codes. destruct (is_special b) eqn:S.
  - rewrite ASCII_printable by (apply is_special_printable, S). reflexivity.
  - destruct (_ || _) eqn:P; [reflexivity|].
    apply orb_false_elim in P as [P1 P2].
    apply Z.ltb_ge in P1, P2. apply ASCII_printable. lia.
Qed.

Lemma length_esc_codes b :
  length (esc_codes b)
  = if is_special b then 2%nat
    else if (b <? 0x20) || (0x7e <? b) then 4%nat else 1%nat.
Proof. unfold esc_codes. destruct (is_special b); [|destruct (_ || _)]; reflexivity. Qed.

Lemma label_codes_cons b l : label_codes (b :: l) = esc_codes b ++ label_codes l.
Proof. reflexivity. Qed.

Lemma label_codes_app a b : label_codes (a ++ b) = label_codes a ++ label_codes b.
Proof. unfold label_codes. rewrite fmap_app, concat_app. reflexivity. Qed.

Lemma pres_codes_app a b : pres_codes (a ++ b) = pres_codes a ++ pres_codes b.
Proof. unfold pres_codes. rewrite fmap_app, concat_app. reflexivity. Qed.

Lemma pres_codes_cons l ls :
  pres_codes (l :: ls) = label_codes l ++ [0x2e] ++ pres_codes ls.
Proof. unfold pres_codes. simpl. rewrite <- app_assoc. reflexivity. Qed.

Lemma wire_labels_app a b : wire_labels (a ++ b) = wire_labels a ++ wire_labels b.
Proof. unfold wire_labels. rewrite fmap_app, concat_app. reflexivity. Qed.

Lemma wire_labels_cons l ls :
  wire_labels (l :: ls) = Z.of_nat (length l) :: l ++ wire_labels ls.
Proof. reflexivity. Qed.

Lemma byte_lookup (d : list Z) (i : nat) (x : Z) :
  d !! i = Some x -> byte d i = x.
Proof. unfold byte. intros ->. reflexivity. Qed.

Lemma take_drop_S (d : list Z) (j k : nat) :
  (j < length d)%nat ->
  take (S k) (drop j d) = byte d j :: take k (drop (S j) d).
Proof.
  intros H. destruct (lookup_lt_is_Some_2 d j H) as [x Hx].
  rewrite (byte_lookup _ _ _ Hx).
  rewrite (drop_S _ _ _ Hx). reflexivity.
Qed.

Lemma read_label_S data off name max j k :
  read_label data off name max j (S k)
  = let b := byte data j in
    let name1 := name +:+ string_of_codes (esc_codes b) in
    let max1 := (max + (length (esc_codes b) - 1))%nat in
    if (max1 <=? String.length name1)%nat
    then Err (EncodingError off "Max name length exceeded")
    else read_label data off name1 max1 (j + 1) k.
Proof.
  cbn [read_label]. cbn zeta.
  rewrite <- esc_codes_string, length_esc_codes.
  destruct (is_special _); [reflexivity|].
  destruct (_ || _); [reflexivity|].
  simpl. rewrite Nat.add_0_r. reflexivity.
Qed.

(** The inner loop of the decoder appends the presentation of the octets
    it reads, and raises [max] by the length of the escapes. *)
Lemma read_label_spec data off : forall cnt name max j name' max',
  (j + cnt <= length data)%nat ->
  read_label data off name max j cnt = Ok (name', max') ->
  let bs := take cnt (drop j data) in
  name' = name +:+ string_of_codes (label_codes bs)
  /\ (String.length name' + max = String.length name + max' + cnt)%nat
  /\ (String.length name' < max' \/ cnt = 0)%nat.
Proof.
  induction cnt as [|k IH]; intros name max j name' max' Hj H.
  - simpl in H. injection H as <- <-. simpl. rewrite string_app_nil_r.
    split; [reflexivity|]. split; [lia | auto].
  - rewrite read_label_S in H. cbn zeta in H |- *.
    rewrite take_drop_S by lia.
    rewrite label_codes_cons, string_of_codes_app.
    set (b := byte data j) in *.
    assert (L : (1 <= length (esc_codes b))%nat).
    { rewrite length_esc_codes. destruct (is_special b); [|destruct (_ || _)]; lia. }
    destruct (Nat.leb_spec (max + (length (esc_codes b) - 1))
                (String.length (name +:+ string_of_codes (esc_codes b))))
      as [|Hlt]; [discriminate|].
    replace (j + 1)%nat with (S j) in H by lia.
    apply IH in H as (-> & H2 & H3); [|lia].
    rewrite <- string_app_assoc. split; [reflexivity|].
    rewrite !string_length_app, !length_string_of_codes in *.
    split; [lia|]. left. destruct H3 as [H3 | ->]; [lia|].
    simpl in *. lia.
Qed.

(** The name the decoder has built is the presentation of the labels it
    has read, and [max] exceeds 255 by the length of the escapes. *)
Lemma readName_step_name data s s' :
  (exists labels,
      r_name s = string_of_codes (pres_codes labels)
      /\ (String.length (r_name s) + 255
          = length (wire_labels labels) + r_max s)%nat) ->
  readName_step data s = Continue s' ->
  exists labels,
      r_name s' = string_of_codes (pres_codes labels)
      /\ (String.length (r_name s') + 255
          = length (wire_labels labels) + r_max s')%nat.
Proof.
  intros (labels & Hn & Hl) H. unfold readName_step in H.
  destruct (Nat.leb_spec (length data) (r_off s)); [discriminate|].
  destruct (_ =? 0); [discriminate|].
  destruct (Z.land _ _ =? 0).
  { destruct (Nat.ltb_spec (length data)
                (r_off s + 1 + Z.to_nat (byte data (r_off s)))); [discriminate|].
    destruct (read_label _ _ _ _ _ _) as [[name max]|e'] eqn:E; [|discriminate].
    injection H as <-. simpl.
    apply read_label_spec in E as (-> & E2 & _); [|lia].
    set (bs := take _ _) in *.
    assert (Hbs : length bs = Z.to_nat (byte data (r_off s))).
    { subst bs. rewrite length_take, length_drop. lia. }
    exists (labels ++ [bs]). split.
    - rewrite pres_codes_app, !string_of_codes_app, Hn.
      unfold pres_codes. simpl. rewrite app_nil_r, string_of_codes_app.
      rewrite string_app_assoc. reflexivity.
    - rewrite wire_labels_app, length_app. unfold wire_labels at 2. simpl.
      rewrite app_nil_r. simpl. rewrite !string_length_app, !length_string_of_codes in *. simpl. lia. }
  destruct (Z.land _ _ =? 0xc0); [|discriminate].
  destruct (_ <=? _)%nat; [discriminate|].
  destruct (_ <? _)%nat; [discriminate|].
  injection H as <-. simpl. eauto.
Qed.

Lemma readName_step_done data s s' :
  readName_step data s = Done s' ->
  r_name s' = r_name s /\ r_max s' = r_max s.
Proof.
  unfold readName_step. intros H.
  destruct (_ <=? _)%nat; [discriminate|].
  destruct (_ =? 0); [injection H as <-; auto|].
  destruct (Z.land _ _ =? 0).
  { destruct (_ <? _)%nat; [discriminate|].
    destruct (read_label _ _ _ _ _ _) as [[name max]|e']; discriminate. }
  destruct (Z.land _ _ =? 0xc0); [|discriminate].
  destruct (_ <=? _)%nat; [discriminate|].
  destruct (_ <? _)%nat; discriminate.
Qed.

Lemma readName_loop_name data : forall fuel s s',
  (exists labels,
      r_name s = string_of_codes (pres_codes labels)
      /\ (String.length (r_name s) + 255
          = length (wire_labels labels) + r_max s)%nat) ->
  readName_loop fuel data s = Ok s' ->
  exists labels,
      r_name s' = string_of_codes (pres_codes labels)
      /\ (String.length (r_name s') + 255
          = length (wire_labels labels) + r_max s')%nat.
Proof.
  induction fuel as [|f IH]; intros s s' Hinv H; [discriminate|].
  cbn [readName_loop] in H.
  destruct (readName_step data s) as [s1|s1|e] eqn:E; [| |discriminate].
  - eapply IH; [|exact H]. eapply readName_step_name; eauto.
  - injection H as <-. apply readName_step_done in E as [-> ->]. exact Hinv.
Qed.

(** A name that [readName] returns is the presentation of a label sequence
    whose wire form has at most 255 octets. *)
Lemma readName_length data off res name :
  readName data off = Ok (res, name) ->
  exists labels,
    name = presentation labels /\ (length (wire_name labels) <= 255)%nat.
Proof.
  unfold readName. intros H. bind_in H as s Hs.
  apply readName_loop_name in Hs as (labels & Hn & Hl).
  2:{ exists []. simpl. split; [reflexivity | lia]. }
  unfold readName_finish in H.
  destruct (Nat.leb_spec (r_max s)
              (String.length (if (String.length (r_name s) =? 0)%nat
                              then "." else r_name s))) as [|Hlt];
    [discriminate|].
  injection H as _ <-. exists labels.
  unfold wire_name. rewrite length_app. simpl.
  destruct labels as [|l ls].
  - rewrite Hn. simpl. split; [reflexivity | lia].
  - assert (Hpos : (0 < String.length (r_name s))%nat).
    { rewrite Hn, length_string_of_codes, pres_codes_cons, !length_app.
      simpl. lia. }
    destruct (Nat.eqb_spec (String.length (r_name s)) 0); [lia|].
    split; [exact Hn | lia].
Qed.

(** C5, as the code has it.  [readName] raises an encoding error whenever
    its loop comes upon a length octet whose top two bits are 01 or 10, or
    upon an eleventh pointer; a name it returns is the presentation of labels
    whose wire form has at most 255 octets; and its loop always ends.  The
    target of a pointer is not compared with the current offset. *)
Theorem readName_rejects data off :
  (forall s, reaches data (readName_init off) s ->
     (r_off s < length data)%nat ->
     Z.land (byte data (r_off s)) 0xc0 = 0x40
     \/ Z.land (byte data (r_off s)) 0xc0 = 0x80 ->
     readName data off = Err (EncodingError (r_off s + 1) "Bad character"))
  /\ (forall s, reaches data (readName_init off) s ->
        r_ptr s = 10%nat -> (r_off s < length data)%nat ->
        Z.land (byte data (r_off s)) 0xc0 = 0xc0 ->
        readName data off
        = Err (if (r_off s + 1 <? length data)%nat
               then EncodingError (r_off s + 2) "Too many pointers"
               else EncodingError (r_off s + 1) "EOF"))
  /\ (forall res name, readName data off = Ok (res, name) ->
        exists labels,
          name = presentation labels
          /\ (length (wire_name labels) <= 255)%nat)
  /\ readName data off <> Err loop_bound.
Proof.
  split; [|split; [|split]].
  - intros s Hr Hoff Hbits. apply (reaches_fail _ _ _ _ Hr).
    unfold readName_step.
    destruct (Nat.leb_spec (length data) (r_off s)); [lia|].
    destruct (Z.eqb_spec (byte data (r_off s)) 0) as [E|_];
      [rewrite E in Hbits; destruct Hbits; discriminate|].
    destruct Hbits as [-> | ->]; reflexivity.
  - intros s Hr Hptr Hoff Hbits. apply (reaches_fail _ _ _ _ Hr).
    unfold readName_step.
    destruct (Nat.leb_spec (length data) (r_off s)); [lia|].
    destruct (Z.eqb_spec (byte data (r_off s)) 0) as [E|_];
      [rewrite E in Hbits; discriminate|].
    rewrite Hbits, Hptr. simpl.
    destruct (Nat.leb_spec (length data) (r_off s + 1));
      destruct (Nat.ltb_spec (r_off s + 1) (length data)); try lia; try reflexivity.
    replace (r_off s + 1 + 1)%nat with (r_off s + 2)%nat by lia. reflexivity.
  - intros res name. apply readName_length.
  - unfold readName. intros H.
    destruct (readName_loop _ _ _) as [s|e] eqn:E.
    + unfold readName_finish in H. simpl in H.
      destruct (_ <=? _)%nat; discriminate.
    + simpl in H. injection H as ->.
      revert E. apply readName_loop_bounded; [simpl; lia|].
      apply rmeasure_init.
Qed.

(** A label followed by the octet 0x80; a pointer to itself; the name
    [a.]. *)
Lemma readName_rejects_witness :
  readName [3; 119; 119; 119; 0x80] 0 = Err (EncodingError 5 "Bad character")
  /\ readName [0xc0; 0] 0 = Err (EncodingError 2 "Too many pointers")
  /\ exists labels, "a." = presentation labels
                    /\ (length (wire_name labels) <= 255)%nat.
Proof.
  split; [|split].
  - apply (proj1 (readName_rejects [3; 119; 119; 119; 0x80] 0)
             (mkr 4 "www." 0 255 0)).
    + eapply reaches_step; [vm_compute; reflexivity | apply reaches_refl].
    + simpl. lia.
    + right. reflexivity.
  - apply (proj1 (proj2 (readName_rejects [0xc0; 0] 0)) (mkr 0 "" 2 255 10)).
    + do 10 (eapply reaches_step; [vm_compute; reflexivity|]). apply reaches_refl.
    + reflexivity.
    + simpl. lia.
    + reflexivity.
  - apply (proj1 (proj2 (proj2 (readName_rejects [1; 97; 0] 0))) 3%nat "a.").
    reflexivity.
Defined.

(** C5 fails as stated: the pointer at offset 0 of [[0xc0; 2; 0]] targets
    offset 2, which is not before the current offset, and the name is
    decoded. *)
Lemma readName_follows_forward_pointer :
  readName [0xc0; 2; 0] 0 = Ok (2%nat, ".")
  /\ Z.lor (Z.shiftl (Z.lxor 0xc0 0xc0) 8) 2 >= 0.
Proof. split; [reflexivity | vm_compute; discriminate]. Qed.

(** * Truncation for UDP *)






(** ** The flags word *)

Lemma testbit_toInt32 x n :
  0 <= n < 32 -> Z.testbit (js.toInt32 x) n = Z.testbit x n.
Proof.
  intros Hn. unfold js.toInt32.
  rewrite <- (Z.mod_pow2_bits_low _ 32 n) by lia.
  rewrite <- (Z.mod_pow2_bits_low x 32 n) by lia.
  f_equal.
  rewrite Zminus_mod, Zmod_mod, <- Zminus_mod.
  f_equal. lia.
Qed.





(** ** The size pass *)





(** ** Writers keep the length of their buffer *)
























(** * writeName and readName: the round trip *)

(** ** Octets in a buffer *)

Lemma byte_middle (A B : list Z) (x : Z) : byte (A ++ x :: B) (length A) = x.
Proof. unfold byte. rewrite list_lookup_middle; reflexivity. Qed.

Lemma byte_app_r (A B : list Z) (i : nat) :
  byte (A ++ B) (length A + i) = byte B i.
Proof. unfold byte. rewrite lookup_app_r by lia. f_equal. f_equal. lia. Qed.

Lemma byte_app_l (A B : list Z) (i : nat) :
  (i < length A)%nat -> byte (A ++ B) i = byte A i.
Proof. intros H. unfold byte. rewrite lookup_app_l by lia. reflexivity. Qed.

Lemma insert_middle (A B : list Z) (x y : Z) :
  <[length A := y]> (A ++ x :: B) = A ++ y :: B.
Proof.
  rewrite insert_app_r_alt by lia. rewrite Nat.sub_diag. reflexivity.
Qed.

(** [for (j = |A|; j < |A| + |B|; j++) n[j] = n[j + k]] removes the [k]
    octets [K] in front of [B]; what follows [B] afterwards is stale. *)
Lemma shift_down_spec (k : nat) (B : list Z) : forall A K T,
  length K = k -> (0 < k)%nat ->
  exists T', length T' = (length K + length T)%nat
    /\ shift_down k (A ++ K ++ B ++ T) (length A) (length B) = A ++ B ++ T'.
Proof.
  induction B as [|y B IH]; intros A K T HK Hk.
  - exists (K ++ T). rewrite length_app. split; reflexivity.
  - destruct K as [|k0 K]; [simpl in HK; lia|].
    cbn [length shift_down].
    assert (E : byte (A ++ (k0 :: K) ++ (y :: B) ++ T) (length A + k) = y).
    { rewrite byte_app_r, <- HK. exact (byte_middle (k0 :: K) (B ++ T) y). }
    rewrite E. simpl app at 2. rewrite insert_middle.
    destruct (IH (A ++ [y]) (K ++ [y]) T) as (T' & HT & Heq).
    { rewrite length_app. simpl in *. lia. }
    { assumption. }
    exists T'. split.
    + rewrite HT, !length_app. simpl. lia.
    + rewrite length_app in Heq. simpl length in Heq.
      rewrite <- !app_assoc in Heq. simpl in Heq. exact Heq.
Qed.

Lemma store_spec (P R : list Z) (x v : Z) :
  0 <= v < 256 ->
  store (Some (P ++ x :: R)) (length P) v = Some (P ++ v :: R).
Proof.
  intros Hv. unfold store. simpl. rewrite insert_middle, Z.mod_small by lia.
  reflexivity.
Qed.

(** The copy of a label [l], found in [n] from index [|N|] on, into a
    buffer with room for it. *)
Lemma copy_label_spec len (l : list Z) : forall N N' P R,
  octets l -> (length l <= length R)%nat ->
  (length P + length R <= len)%nat ->
  copy_label len (N ++ l ++ N') (Some (P ++ R)) (length P) (length N)
    (length l)
  = Ok (Some (P ++ l ++ drop (length l) R), (length P + length l)%nat).
Proof.
  induction l as [|b l IH]; intros N N' P R Ho Hl Hlen.
  - simpl. rewrite Nat.add_0_r, drop_0. reflexivity.
  - destruct R as [|x R]; [simpl in Hl; lia|].
    cbn [length copy_label].
    destruct (Nat.ltb_spec len (length P + 1)); [simpl in Hlen; lia|].
    change ((b :: l) ++ N') with (b :: (l ++ N')). rewrite byte_middle.
    apply Forall_cons in Ho as [Hb Ho].
    rewrite store_spec by assumption.
    specialize (IH (N ++ [b]) N' (P ++ [b]) R Ho).
    rewrite !length_app in IH. simpl length in IH.
    rewrite <- !app_assoc in IH. simpl in IH.
    rewrite IH; [|simpl in Hl; lia | simpl in Hlen; lia].
    replace (length P + 1 + length l)%nat with (length P + S (length l))%nat
      by lia.
    reflexivity.
Qed.

(** ** One round of the loop of [writeName] on one escaped octet *)

Lemma writeName_loop_Next fuel len cmp i s s' :
  writeName_body len cmp i s = Ok (Next s') -> (i < w_nl s)%nat ->
  writeName_loop (S fuel) len cmp i s = writeName_loop fuel len cmp (i + 1) s'.
Proof.
  intros Hb Hi. cbn [writeName_loop].
  destruct (Nat.ltb_spec i (w_nl s)); [|lia]. rewrite Hb. reflexivity.
Qed.

Lemma is_special_not_digit b : is_special b = true -> isDigit b = false.
Proof.
  intros H. apply is_special_cases in H.
  destruct H as [-> | [-> | [-> | [-> | [-> | [-> | [-> | ->]]]]]]]; reflexivity.
Qed.

Lemma isDigit_digit d : 0 <= d <= 9 -> isDigit (0x30 + d) = true.
Proof.
  intros H. unfold isDigit.
  destruct (Z.leb_spec 0 (0x30 + d - 0x30)); [|lia].
  destruct (Z.leb_spec (0x30 + d - 0x30) 9); [reflexivity | lia].
Qed.

Lemma body_special len cmp b A Y T name off data map pos ptr begin fresh
    escaped labels :
  is_special b = true -> (off + 1 <= len)%nat ->
  exists T', length T' = S (length T)
    /\ writeName_body len cmp (length A)
         (mkw (A ++ [0x5c; b] ++ Y ++ T) (length A + 2 + length Y) name off
            data map pos ptr begin fresh escaped labels)
       = Ok (Next (mkw (A ++ b :: Y ++ T') (length A + 1 + length Y) name off
                     data map pos ptr begin false true labels)).
Proof.
  intros Hs Hoff.
  destruct (shift_down_spec 1 (b :: Y) A [0x5c] T eq_refl ltac:(lia))
    as (T' & HT & Hsh).
  exists T'. split; [simpl in HT; lia|].
  unfold writeName_body. cbn [w_n w_nl w_off].
  change (A ++ [0x5c; b] ++ Y ++ T) with (A ++ 0x5c :: (b :: Y ++ T)).
  rewrite byte_middle. change (0x5c =? 0x5c) with true. cbn iota.
  unfold writeName_escape. cbn [w_n w_nl w_off w_name w_data w_map w_pos
                                w_ptr w_begin w_labels].
  replace (length A + 2 + length Y - 1 - length A)%nat
    with (length (b :: Y)) by (simpl; lia).
  change (A ++ 0x5c :: (b :: Y ++ T)) with (A ++ [0x5c] ++ (b :: Y) ++ T).
  rewrite Hsh.
  destruct (Nat.ltb_spec len (off + 1)); [lia|].
  change (A ++ (b :: Y) ++ T') with (A ++ b :: (Y ++ T')).
  rewrite byte_middle, (is_special_not_digit b Hs).
  rewrite andb_false_r. cbn [andb].
  replace (length A + 2 + length Y - 1)%nat
    with (length A + 1 + length Y)%nat by lia.
  reflexivity.
Qed.

Lemma body_plain len cmp b A Y T name off data map pos ptr begin fresh
    escaped labels :
  is_special b = false ->
  writeName_body len cmp (length A)
    (mkw (A ++ [b] ++ Y ++ T) (length A + 1 + length Y) name off
       data map pos ptr begin fresh escaped labels)
  = Ok (Next (mkw (A ++ b :: Y ++ T) (length A + 1 + length Y) name off
                data map pos ptr begin fresh false labels)).
Proof.
  intros Hs. unfold writeName_body. cbn [w_n].
  change (A ++ [b] ++ Y ++ T) with (A ++ b :: (Y ++ T)).
  rewrite byte_middle.
  unfold is_special in Hs. rewrite !orb_false_iff in Hs.
  destruct Hs as [[[[[[[H1 _] _] _] _] _] _] H2].
  rewrite H1, H2. reflexivity.
Qed.

Lemma ddd_value b :
  (0x30 + b / 100 - 0x30) * 100 + (0x30 + b / 10 mod 10 - 0x30) * 10
  + (0x30 + b mod 10 - 0x30) * 1 = b.
Proof.
  pose proof (Z.div_mod b 10 ltac:(lia)).
  pose proof (Z.div_mod (b / 10) 10 ltac:(lia)).
  replace (b / 100) with (b / 10 / 10) by (rewrite Z.div_div by lia; reflexivity).
  lia.
Qed.

Lemma body_ddd len cmp b A y Y T name off data map pos ptr begin fresh
    escaped labels :
  0 <= b < 256 -> (off + 1 <= len)%nat ->
  exists T', length T' = (3 + length T)%nat
    /\ writeName_body len cmp (length A)
         (mkw (A ++ [0x5c; 0x30 + b / 100; 0x30 + b / 10 mod 10; 0x30 + b mod 10]
                 ++ (y :: Y) ++ T)
              (length A + 4 + length (y :: Y)) name off
            data map pos ptr begin fresh escaped labels)
       = Ok (Next (mkw (A ++ b :: (y :: Y) ++ T')
                     (length A + 1 + length (y :: Y)) name off
                     data map pos ptr begin false true labels)).
Proof.
  intros Hb Hoff.
  set (d1 := 0x30 + b / 100). set (d2 := 0x30 + b / 10 mod 10).
  set (d3 := 0x30 + b mod 10).
  destruct (shift_down_spec 1 (d1 :: d2 :: d3 :: y :: Y) A [0x5c] T eq_refl
              ltac:(lia)) as (T1 & HT1 & Hsh1).
  destruct (shift_down_spec 2 (y :: Y) (A ++ [b]) [d2; d3] T1 eq_refl
              ltac:(lia)) as (T2 & HT2 & Hsh2).
  exists T2. split; [simpl in HT1, HT2; lia|].
  unfold writeName_body. cbn [w_n w_nl w_off].
  change (A ++ [0x5c; d1; d2; d3] ++ (y :: Y) ++ T)
    with (A ++ 0x5c :: (d1 :: d2 :: d3 :: y :: Y ++ T)).
  rewrite byte_middle. change (0x5c =? 0x5c) with true. cbn iota.
  unfold writeName_escape. cbn [w_n w_nl w_off w_name w_data w_map w_pos
                                w_ptr w_begin w_labels].
  replace (length A + 4 + length (y :: Y) - 1 - length A)%nat
    with (length (d1 :: d2 :: d3 :: y :: Y)) by (simpl; lia).
  change (A ++ 0x5c :: (d1 :: d2 :: d3 :: y :: Y ++ T))
    with (A ++ [0x5c] ++ (d1 :: d2 :: d3 :: y :: Y) ++ T).
  rewrite Hsh1.
  destruct (Nat.ltb_spec len (off + 1)); [lia|].
  set (n1 := A ++ (d1 :: d2 :: d3 :: y :: Y) ++ T1).
  assert (B0 : byte n1 (length A) = d1).
  { subst n1. exact (byte_middle A _ d1). }
  assert (B1 : byte n1 (length A + 1) = d2).
  { subst n1. rewrite byte_app_r. reflexivity. }
  assert (B2 : byte n1 (length A + 2) = d3).
  { subst n1. rewrite byte_app_r. reflexivity. }
  rewrite B0, B1, B2.
  assert (D1 : isDigit d1 = true).
  { apply isDigit_digit. split; [apply Z.div_pos; lia|].
    apply Z.lt_succ_r, Z.div_lt_upper_bound; lia. }
  assert (D2 : isDigit d2 = true).
  { apply isDigit_digit. pose proof (Z.mod_pos_bound (b / 10) 10). lia. }
  assert (D3 : isDigit d3 = true).
  { apply isDigit_digit. pose proof (Z.mod_pos_bound b 10). lia. }
  rewrite D1, D2, D3.
  destruct (Nat.ltb_spec (length A + 2) (length A + 4 + length (y :: Y) - 1));
    [|simpl in *; lia].
  cbn [andb].
  unfold toByte. rewrite B0, B1, B2. subst d1 d2 d3.
  rewrite ddd_value, Z.mod_small by lia.
  subst n1. change (A ++ (?a :: ?r) ++ T1) with (A ++ a :: (r ++ T1)).
  rewrite insert_middle.
  change (A ++ b :: ([?a; ?c] ++ ?r) ++ T1) with (A ++ b :: ([a; c] ++ r ++ T1)).
  replace (length A + 4 + length (y :: Y) - 1 - 2 - (length A + 1))%nat
    with (length (y :: Y)) by (simpl; lia).
  replace (length A + 1)%nat with (length (A ++ [b])) by (rewrite length_app; simpl; lia).
  replace (A ++ b :: (0x30 + b / 10 mod 10 :: 0x30 + b mod 10 :: y :: Y) ++ T1)
    with ((A ++ [b]) ++ [0x30 + b / 10 mod 10; 0x30 + b mod 10] ++ (y :: Y) ++ T1)
    by (rewrite <- app_assoc; reflexivity).
  rewrite Hsh2. rewrite <- app_assoc.
  replace (length A + 4 + length (y :: Y) - 1 - 2)%nat
    with (length (A ++ [b]) + length (y :: Y))%nat
    by (rewrite length_app; simpl; lia).
  reflexivity.
Qed.

(** One round on the presentation of one octet [b]: the escape is undone
    in place and the round moves behind [b]. *)
Lemma body_octet len cmp b A y Y T name off data map pos ptr begin fresh
    escaped labels :
  0 <= b < 256 -> (off + 1 <= len)%nat ->
  exists T' fresh' escaped',
    writeName_body len cmp (length A)
      (mkw (A ++ esc_codes b ++ (y :: Y) ++ T)
         (length A + length (esc_codes b) + length (y :: Y)) name off
         data map pos ptr begin fresh escaped labels)
    = Ok (Next (mkw (A ++ b :: (y :: Y) ++ T')
                  (length A + 1 + length (y :: Y)) name off
                  data map pos ptr begin fresh' escaped' labels))
    /\ (escaped' = false -> b <> 0x2e)
    /\ (fresh' = true -> fresh = true /\ esc_codes b = [b]).
Proof.
  intros Hb Hoff. unfold esc_codes.
  destruct (is_special b) eqn:Hs.
  - destruct (body_special len cmp b A (y :: Y) T name off data map pos ptr
                begin fresh escaped labels Hs Hoff) as (T' & _ & Heq).
    exists T', false, true. split; [exact Heq|]. split; discriminate.
  - destruct ((b <? 0x20) || (0x7e <? b)) eqn:Hp.
    + destruct (body_ddd len cmp b A y Y T name off data map pos ptr
                  begin fresh escaped labels Hb Hoff) as (T' & _ & Heq).
      exists T', false, true. split; [exact Heq|]. split; discriminate.
    + exists T, fresh, false. split; [|split].
      * apply (body_plain len cmp b A (y :: Y) T). exact Hs.
      * intros _ ->. discriminate Hs.
      * auto.
Qed.

(** The rounds on the presentation of the octets [bs] of a label. *)
Lemma loop_octets len cmp : forall bs A y Y T fuel name off data map pos ptr
    begin fresh escaped labels,
  octets bs -> (off + 1 <= len)%nat ->
  (length (label_codes bs) + length (y :: Y) <= fuel)%nat ->
  exists T' fresh' escaped',
    writeName_loop fuel len cmp (length A)
      (mkw (A ++ label_codes bs ++ (y :: Y) ++ T)
         (length A + length (label_codes bs) + length (y :: Y)) name off
         data map pos ptr begin fresh escaped labels)
    = writeName_loop (fuel - length bs) len cmp (length A + length bs)
        (mkw (A ++ bs ++ (y :: Y) ++ T')
           (length A + length bs + length (y :: Y)) name off
           data map pos ptr begin fresh' escaped' labels)
    /\ (bs <> [] -> escaped' = false -> last bs <> Some 0x2e)
    /\ (bs = [] -> escaped' = escaped)
    /\ (fresh' = true -> fresh = true /\ label_codes bs = bs).
Proof.
  induction bs as [|b bs IH]; intros A y Y T fuel name off data map pos ptr
    begin fresh escaped labels Ho Hoff Hfuel.
  - exists T, fresh, escaped. cbn [label_codes fmap list_fmap concat app length].
    rewrite Nat.sub_0_r, !Nat.add_0_r. split; [reflexivity|].
    split; [congruence|]. split; auto.
  - apply Forall_cons in Ho as [Hb Ho].
    rewrite label_codes_cons in *. rewrite length_app in Hfuel.
    assert (L : (1 <= length (esc_codes b))%nat).
    { rewrite length_esc_codes. destruct (is_special b); [|destruct (_ || _)]; lia. }
    destruct (label_codes bs ++ y :: Y) as [|y1 Y1] eqn:EY.
    { apply (f_equal length) in EY. rewrite length_app in EY. simpl in EY. lia. }
    assert (LY : length (y1 :: Y1) = (length (label_codes bs) + length (y :: Y))%nat).
    { rewrite <- EY, length_app. reflexivity. }
    destruct (body_octet len cmp b A y1 Y1 T name off data map pos ptr begin
                fresh escaped labels Hb Hoff)
      as (T1 & fresh1 & escaped1 & Hbody & He1 & Hf1).
    destruct fuel as [|fuel]; [lia|].
    rewrite <- EY in Hbody.
    destruct (IH (A ++ [b]) y Y T1 fuel name off data map pos ptr begin fresh1
                escaped1 labels Ho Hoff ltac:(simpl in *; lia))
      as (T' & fresh' & escaped' & Hloop & He & He0 & Hf).
    exists T', fresh', escaped'. split; [|split; [|split]].
    + replace (A ++ (esc_codes b ++ label_codes bs) ++ (y :: Y) ++ T)
        with (A ++ esc_codes b ++ (label_codes bs ++ y :: Y) ++ T)
        by (rewrite <- !app_assoc; reflexivity).
      replace (length A + length (esc_codes b ++ label_codes bs)
               + length (y :: Y))%nat
        with (length A + length (esc_codes b)
              + length (label_codes bs ++ y :: Y))%nat
        by (rewrite !length_app; lia).
      rewrite (writeName_loop_Next _ _ _ _ _ _ Hbody) by (simpl; lia).
      replace (length A + 1 + length (label_codes bs ++ y :: Y))%nat
        with (length (A ++ [b]) + length (label_codes bs) + length (y :: Y))%nat
        by (rewrite !length_app; simpl; lia).
      replace (length A + 1)%nat with (length (A ++ [b]))
        by (rewrite length_app; simpl; lia).
      replace (A ++ b :: (label_codes bs ++ y :: Y) ++ T1)
        with ((A ++ [b]) ++ label_codes bs ++ (y :: Y) ++ T1)
        by (rewrite <- !app_assoc; reflexivity).
      rewrite Hloop. rewrite !length_app. simpl length.
      rewrite <- !app_assoc. simpl app.
      replace (length A + 1 + length bs)%nat with (length A + S (length bs))%nat
        by lia.
      reflexivity.
    + intros _ He'. destruct bs as [|b' bs'].
      * simpl. intros [= ->]. rewrite (He0 eq_refl) in He'. apply He1; auto.
      * rewrite last_cons_cons. apply He; [discriminate | assumption].
    + discriminate.
    + intros Hf'. destruct (Hf Hf') as [Hf1' Hl]. destruct (Hf1 Hf1') as [-> Hc].
      split; [reflexivity|]. rewrite Hc, Hl. reflexivity.
Qed.

(** ** The round of the loop of [writeName] on the dot that ends a label *)

Lemma land_0xff (v : Z) : 0 <= v < 256 -> Z.land v 0xff = v.
Proof.
  intros H. change 0xff with (Z.ones 8). rewrite Z.land_ones by lia.
  apply Z.mod_small. lia.
Qed.

Lemma last_snoc_inv (l : list Z) :
  l <> [] -> exists l' x, l = l' ++ [x] /\ last l = Some x.
Proof.
  intros H. destruct (last l) as [x|] eqn:E.
  - pose proof E as E'. apply last_Some in E' as [l' ->]. exists l', x. auto.
  - apply last_None in E. contradiction.
Qed.

(** The checks pass, the length octet and the label are stored, and what
    is left of the round is the handling of the name-to-offset map. *)
Lemma body_dot len cmp A0 l Y T name P R map pos ptr fresh escaped cnt :
  valid_label l -> (1 + length l <= length R)%nat ->
  len = (length P + length R)%nat ->
  (escaped = false -> last l <> Some 0x2e) ->
  let n := A0 ++ l ++ (0x2e :: Y) ++ T in
  let nl := (length A0 + length l + length (0x2e%Z :: Y))%nat in
  writeName_body len cmp (length A0 + length l)
    (mkw n nl name (length P) (Some (P ++ R)) map pos ptr (length A0) fresh
       escaped cnt)
  = (let data' := Some (P ++ wire_label l ++ drop (1 + length l) R) in
     let off' := (length P + 1 + length l)%nat in
     let '(name', fresh') :=
       if cmp && negb fresh then (toString_ascii n nl, true)
       else (name, fresh) in
     let continue (map : cmap) :=
       Next (mkw n nl name' off' data' map pos ptr (length A0 + length l + 1)
               fresh' false (cnt + 1)) in
     match map with
     | None => Ok (continue None)
     | Some m =>
         let sfx := substring_from (length A0) name' in
         if String.eqb sfx "." then Ok (continue (Some m))
         else
           match m !! sfx with
           | None =>
               if Z.of_nat (length P) <? Z.shiftl 2 13
               then Ok (continue (Some (<[sfx := length P]> m)))
               else Ok (continue (Some m))
           | Some p =>
               if cmp && (ptr =? -1)
               then Ok (Break (mkw n nl name' off' data' (Some m)
                                 (Z.of_nat (length P)) (Z.of_nat p)
                                 (length A0) fresh' escaped cnt))
               else Ok (continue (Some m))
           end
     end).
Proof.
  intros [[Hl1 Hl2] Ho] HR Hlen Hesc n nl.
  assert (Hn : n = (A0 ++ l) ++ 0x2e :: (Y ++ T)).
  { subst n. rewrite <- app_assoc. reflexivity. }
  assert (Hi : (length A0 + length l)%nat = length (A0 ++ l)).
  { rewrite length_app. reflexivity. }
  unfold writeName_body. cbn [w_n].
  assert (B : byte n (length A0 + length l) = 0x2e).
  { rewrite Hn, Hi. apply byte_middle. }
  rewrite B. change (0x2e =? 0x5c) with false. change (0x2e =? 0x2e) with true.
  cbn iota. unfold writeName_dot.
  cbn [w_n w_nl w_off w_name w_data w_map w_pos w_ptr w_begin w_labels
       w_fresh w_escaped].
  (* the check for an empty label *)
  assert (C1 : (0 <? length A0 + length l)%nat
               && (byte n (length A0 + length l - 1) =? 0x2e)
               && negb escaped = false).
  { destruct (last_snoc_inv l) as (l' & x & -> & Hlast).
    { intros ->. simpl in Hl1. lia. }
    assert (Bx : byte n (length A0 + length (l' ++ [x]) - 1) = x).
    { subst n. rewrite length_app. simpl length.
      replace (length A0 + (length l' + 1) - 1)%nat
        with (length (A0 ++ l') + 0)%nat by (rewrite length_app; lia).
      rewrite <- (app_assoc l'). rewrite (app_assoc A0 l').
      rewrite byte_app_r. reflexivity. }
    rewrite Bx. destruct escaped; [rewrite andb_false_r; reflexivity|].
    destruct (Z.eqb_spec x 0x2e) as [->|];
      [exfalso; apply Hesc; auto | rewrite andb_false_r; reflexivity]. }
  rewrite C1.
  replace (length A0 + length l - length A0)%nat with (length l) by lia.
  destruct (Nat.leb_spec 64 (length l)); [lia|].
  destruct (Nat.ltb_spec len (length P + 1)); [lia|].
  destruct R as [|r0 R]; [simpl in HR; lia|].
  rewrite land_0xff by lia.
  rewrite store_spec by lia.
  assert (Hc : copy_label len n (Some (P ++ Z.of_nat (length l) :: R))
                 (length P + 1) (length A0) (length l)
               = Ok (Some (P ++ wire_label l ++ drop (1 + length l) (r0 :: R)),
                     (length P + 1 + length l)%nat)).
  { pose proof (copy_label_spec len l A0 ((0x2e :: Y) ++ T)
                  (P ++ [Z.of_nat (length l)]) R Ho) as Hc.
    rewrite length_app in Hc. simpl length in Hc.
    rewrite <- !app_assoc in Hc. simpl app in Hc.
    subst n. simpl app. rewrite Hc; [reflexivity | simpl in HR; lia|].
    simpl in Hlen. lia. }
  rewrite Hc. cbn [mbind result_bind].
  destruct (cmp && negb fresh); reflexivity.
Qed.

(** ** The keys of the name-to-offset map *)

Lemma substring_0_length (s : string) : String.substring 0 (String.length s) s = s.
Proof. induction s as [|c s IH]; [reflexivity|]. simpl. rewrite IH. reflexivity. Qed.

Lemma substring_from_app (a b : list ascii) :
  substring_from (length a) (string_of_list_ascii (a ++ b))
  = string_of_list_ascii b.
Proof.
  unfold substring_from. induction a as [|c a IH].
  - simpl. rewrite Nat.sub_0_r. apply substring_0_length.
  - simpl. exact IH.
Qed.

Lemma toString_ascii_app (L T : list Z) :
  toString_ascii (L ++ T) (length L)
  = string_of_list_ascii ((λ b, char_of_byte (Z.land b 0x7f)) <$> L).
Proof. unfold toString_ascii. rewrite take_app_length. reflexivity. Qed.

Lemma key_at_dot A0 l rest T :
  substring_from (length A0)
    (toString_ascii (A0 ++ l ++ (0x2e :: pres_codes rest) ++ T)
       (length A0 + length l + length (0x2e%Z :: pres_codes rest)))
  = cmp_key l rest.
Proof.
  replace (A0 ++ l ++ (0x2e :: pres_codes rest) ++ T)
    with ((A0 ++ l ++ [0x2e] ++ pres_codes rest) ++ T)
    by (rewrite <- !app_assoc; reflexivity).
  replace (length A0 + length l + length (0x2e%Z :: pres_codes rest))%nat
    with (length (A0 ++ l ++ [0x2e] ++ pres_codes rest))
    by (rewrite !length_app; simpl; lia).
  rewrite toString_ascii_app, fmap_app.
  rewrite <- (length_fmap (λ b, char_of_byte (Z.land b 0x7f)) A0).
  rewrite substring_from_app. reflexivity.
Qed.

Lemma cmp_key_not_root l rest : l <> [] -> String.eqb (cmp_key l rest) "." = false.
Proof.
  intros Hl. apply String.eqb_neq. intros E.
  apply (f_equal String.length) in E. unfold cmp_key in E.
  rewrite length_string_of_list_ascii, length_fmap, length_app in E.
  simpl in E. destruct l; [contradiction | simpl in E; lia].
Qed.

(** ** The loop of [writeName] over the labels of a name *)

Lemma scan_cons_None off l rest :
  scan None off (l :: rest) = (l :: rest, None, None).
Proof. reflexivity. Qed.

Lemma scan_cons_hit m off l rest p :
  m !! cmp_key l rest = Some p ->
  scan (Some m) off (l :: rest) = ([], Some p, Some m).
Proof. intros H. unfold scan. simpl. rewrite H. reflexivity. Qed.

Lemma scan_cons_miss m off l rest :
  m !! cmp_key l rest = None ->
  scan (Some m) off (l :: rest)
  = (let '(ls, p, m') :=
       scan (Some (if Z.of_nat off <? Z.shiftl 2 13
                   then <[cmp_key l rest := off]> m else m))
         (off + 1 + length l) rest in
     (l :: ls, p, m')).
Proof.
  intros H. unfold scan. simpl. rewrite H.
  change (Z.shiftl 2 13) with 16384.
  destruct (compress_scan _ _ rest) as [[ls p] m']. reflexivity.
Qed.

Lemma loop_labels len cmp : forall labels A0 T P R fuel name fresh escaped cnt
    map,
  Forall valid_label labels ->
  (length (wire_labels labels) <= length R)%nat ->
  len = (length P + length R)%nat ->
  (length (pres_codes labels) <= fuel)%nat ->
  map = None \/ cmp = true ->
  (cmp = true -> fresh = true ->
   name = toString_ascii (A0 ++ pres_codes labels ++ T)
            (length A0 + length (pres_codes labels))) ->
  exists s',
    writeName_loop fuel len cmp (length A0)
      (mkw (A0 ++ pres_codes labels ++ T)
         (length A0 + length (pres_codes labels)) name (length P)
         (Some (P ++ R)) map (-1) (-1) (length A0) fresh escaped cnt)
    = Ok s'
    /\ (let '(ls, hit, map') := scan map (length P) labels in
        w_labels s' = (cnt + length ls)%nat /\ w_map s' = map'
        /\ (exists d, w_data s' = Some d
                      /\ length d = (length P + length R)%nat
                      /\ take (length P + length (wire_labels ls)) d
                         = P ++ wire_labels ls)
        /\ match hit with
           | None =>
               w_ptr s' = -1
               /\ w_off s' = (length P + length (wire_labels labels))%nat
               /\ w_data s'
                  = Some (P ++ wire_labels labels
                            ++ drop (length (wire_labels labels)) R)
           | Some p =>
               w_ptr s' = Z.of_nat p
               /\ w_pos s' = Z.of_nat (length P + length (wire_labels ls))
           end).
Proof.
  induction labels as [|l rest IH];
    intros A0 T P R fuel name fresh escaped cnt map Hv HR Hlen Hfuel Hmap Hname.
  - (* no label left: the loop ends *)
    eexists. split.
    + destruct fuel; cbn [writeName_loop w_nl pres_codes fmap list_fmap concat
                            length];
        rewrite Nat.add_0_r, Nat.ltb_irrefl; reflexivity.
    + assert (scan map (length P) [] = ([], None, map)) as ->.
      { destruct map; reflexivity. }
      cbn [w_labels w_map w_data w_ptr w_off wire_labels fmap list_fmap concat
           length app drop].
      rewrite !Nat.add_0_r, app_nil_r. split; [reflexivity|].
      split; [reflexivity|]. split; [|auto].
      exists (P ++ R). split; [reflexivity|]. rewrite length_app.
      split; [reflexivity|]. apply take_app_length.
  - apply Forall_cons in Hv as [Hl Hv]. pose proof Hl as [[Hl1 Hl2] Ho].
    rewrite wire_labels_cons in HR. simpl length in HR. rewrite length_app in HR.
    rewrite pres_codes_cons in *. rewrite !length_app in Hfuel.
    simpl length in Hfuel.
    assert (Hcodes : (length l <= length (label_codes l))%nat).
    { clear. induction l as [|b l IH]; [simpl; lia|].
      rewrite label_codes_cons, length_app. simpl length.
      pose proof (length_esc_codes b) as L.
      destruct (is_special b); [|destruct (_ || _)]; lia. }
    (* the octets of the label *)
    destruct (loop_octets len cmp l A0 0x2e (pres_codes rest) T fuel name
                (length P) (Some (P ++ R)) map (-1) (-1) (length A0) fresh
                escaped cnt Ho ltac:(lia) ltac:(simpl; lia))
      as (T1 & fresh1 & escaped1 & Hoct & Hesc & _ & Hfresh).
    replace (A0 ++ (label_codes l ++ [0x2e%Z] ++ pres_codes rest) ++ T)
      with (A0 ++ label_codes l ++ (0x2e :: pres_codes rest) ++ T)
      by (rewrite <- !app_assoc; reflexivity).
    replace (length A0 + length (label_codes l ++ [0x2e%Z] ++ pres_codes rest))%nat
      with (length A0 + length (label_codes l)
            + length (0x2e%Z :: pres_codes rest))%nat
      by (rewrite !length_app; simpl; lia).
    rewrite Hoct. clear Hoct.
    (* the dot *)
    assert (Hl0 : l <> []) by (intros ->; simpl in Hl1; lia).
    pose proof (body_dot len cmp A0 l (pres_codes rest) T1 name P R map (-1)
                  (-1) fresh1 escaped1 cnt Hl ltac:(lia) Hlen (Hesc Hl0))
      as Hdot. cbn zeta in Hdot.
    set (n1 := A0 ++ l ++ (0x2e :: pres_codes rest) ++ T1) in *.
    set (nl1 := (length A0 + length l + length (0x2e%Z :: pres_codes rest))%nat)
      in *.
    destruct (fuel - length l)%nat as [|fuel1] eqn:Efuel; [lia|].
    (* the name the suffix is taken from *)
    set (nf := if cmp && negb fresh1 then (toString_ascii n1 nl1, true)
               else (name, fresh1)) in *.
    assert (Hnf : cmp = true -> nf = (toString_ascii n1 nl1, true)).
    { intros ->. subst nf. destruct fresh1; [|reflexivity]. simpl.
      destruct (Hfresh eq_refl) as [-> Hplain].
      rewrite (Hname eq_refl eq_refl). f_equal.
      subst n1 nl1. rewrite Hplain.
      replace (A0 ++ (l ++ [0x2e%Z] ++ pres_codes rest) ++ T)
        with ((A0 ++ l ++ [0x2e%Z] ++ pres_codes rest) ++ T)
        by (rewrite <- !app_assoc; reflexivity).
      replace (A0 ++ l ++ (0x2e :: pres_codes rest) ++ T1)
        with ((A0 ++ l ++ [0x2e%Z] ++ pres_codes rest) ++ T1)
        by (rewrite <- !app_assoc; reflexivity).
      replace (length A0 + length (l ++ [0x2e%Z] ++ pres_codes rest))%nat
        with (length (A0 ++ l ++ [0x2e%Z] ++ pres_codes rest))
        by (rewrite !length_app; simpl; lia).
      replace (length A0 + length l + length (0x2e%Z :: pres_codes rest))%nat
        with (length (A0 ++ l ++ [0x2e%Z] ++ pres_codes rest))
        by (rewrite !length_app; simpl; lia).
      rewrite !toString_ascii_app. reflexivity. }
    destruct nf as [name2 fresh2] eqn:Enf.
    (* the state after the label, for the rest of the name *)
    assert (Hrest : forall map2,
      map2 = None \/ cmp = true ->
      exists s',
        writeName_loop fuel1 len cmp (length A0 + length l + 1)
          (mkw n1 nl1 name2 (length P + 1 + length l)
             (Some (P ++ wire_label l ++ drop (1 + length l) R)) map2 (-1)
             (-1) (length A0 + length l + 1) fresh2 false (cnt + 1))
        = Ok s'
        /\ (let '(ls, hit, map') :=
              scan map2 (length P + 1 + length l) rest in
            w_labels s' = (cnt + 1 + length ls)%nat /\ w_map s' = map'
            /\ (exists d, w_data s' = Some d
                  /\ length d = (length P + length R)%nat
                  /\ take (length P + length (wire_labels (l :: ls))) d
                     = P ++ wire_labels (l :: ls))
            /\ match hit with
               | None =>
                   w_ptr s' = -1
                   /\ w_off s'
                      = (length P + length (wire_labels (l :: rest)))%nat
                   /\ w_data s'
                      = Some (P ++ wire_labels (l :: rest)
                                ++ drop (length (wire_labels (l :: rest))) R)
               | Some p =>
                   w_ptr s' = Z.of_nat p
                   /\ w_pos s'
                      = Z.of_nat (length P + length (wire_labels (l :: ls)))
               end)).
    { intros map2 Hmap2.
      destruct (IH (A0 ++ l ++ [0x2e%Z]) T1 (P ++ wire_label l)
                  (drop (1 + length l) R) fuel1 name2 fresh2 false (cnt + 1)%nat
                  map2 Hv)
        as (s' & Hloop & Hres).
      { rewrite length_drop. lia. }
      { rewrite length_app, length_drop. unfold wire_label. simpl length. lia. }
      { lia. }
      { exact Hmap2. }
      { intros Hc _. specialize (Hnf Hc). injection Hnf as -> _.
        subst n1 nl1. f_equal.
        - rewrite <- !app_assoc. reflexivity.
        - rewrite !length_app. simpl. lia. }
      exists s'. split.
      - rewrite <- Hloop. subst n1 nl1.
        f_equal; [|f_equal];
          first [ reflexivity
                | rewrite <- !app_assoc; reflexivity
                | rewrite ?length_app; unfold wire_label; simpl; lia ].
      - replace (length (P ++ wire_label l)) with (length P + 1 + length l)%nat
          in Hres by (rewrite length_app; unfold wire_label; simpl; lia).
        destruct (scan map2 (length P + 1 + length l) rest) as [[ls hit] map'].
        destruct Hres as (R1 & R2 & (d & D1 & D2 & D3) & R4).
        split; [exact R1|]. split; [exact R2|].
        assert (Hw : forall ls', P ++ wire_labels (l :: ls')
                                 = (P ++ wire_label l) ++ wire_labels ls').
        { intros ls'. rewrite wire_labels_cons, <- app_assoc. reflexivity. }
        assert (Hwl : forall ls', (length P + length (wire_labels (l :: ls'))
                                   = length P + 1 + length l
                                     + length (wire_labels ls'))%nat).
        { intros ls'. rewrite wire_labels_cons. simpl. rewrite length_app. lia. }
        split.
        { exists d. split; [exact D1|]. split.
          - rewrite D2, length_drop. lia.
          - rewrite Hwl, Hw. exact D3. }
        destruct hit as [p|].
        + destruct R4 as [R4 R5]. split; [exact R4|]. rewrite Hwl. exact R5.
        + destruct R4 as (R4 & R5 & R6). split; [exact R4|].
          split; [rewrite Hwl; exact R5|].
          rewrite R6. f_equal. rewrite wire_labels_cons. unfold wire_label.
          simpl length. rewrite length_app, <- !app_assoc. simpl app.
          rewrite drop_drop, <- app_assoc.
          replace (1 + length l + length (wire_labels rest))%nat
            with (S (length l + length (wire_labels rest))) by lia.
          reflexivity. }
    destruct map as [m|].
    + (* with a map: compression is on *)
      destruct Hmap as [Hmap|Hcmp]; [discriminate|]. subst cmp.
      specialize (Hnf eq_refl). injection Hnf as -> ->.
      subst n1 nl1. rewrite key_at_dot in Hdot.
      rewrite (cmp_key_not_root l rest Hl0) in Hdot.
      destruct (m !! cmp_key l rest) as [p|] eqn:Ekey.
      * (* the suffix is in the map: the loop breaks *)
        change (true && (-1 =? -1)) with true in Hdot. cbn iota in Hdot.
        eexists. split.
        { cbn [writeName_loop w_nl].
          destruct (Nat.ltb_spec (length A0 + length l)
                      (length A0 + length l
                       + length (0x2e%Z :: pres_codes rest))) as [_|Hge];
            [|simpl in Hge; lia].
          rewrite Hdot. reflexivity. }
        rewrite (scan_cons_hit _ _ _ _ _ Ekey).
        cbn [w_labels w_map w_data w_ptr w_pos length wire_labels fmap
             list_fmap concat].
        rewrite !Nat.add_0_r, app_nil_r. split; [reflexivity|].
        split; [reflexivity|]. split; [|split; reflexivity].
        eexists. split; [reflexivity|]. split.
        { rewrite !length_app, length_drop. unfold wire_label. simpl length. lia. }
        apply take_app_length.
      * (* the suffix is recorded and the loop goes on *)
        rewrite (scan_cons_miss _ _ _ _ Ekey).
        destruct (Hrest (Some (if Z.of_nat (length P) <? Z.shiftl 2 13
                               then <[cmp_key l rest := length P]> m else m))
                    (or_intror eq_refl)) as (s' & Hloop & Hres).
        exists s'. split.
        { rewrite <- Hloop.
          apply writeName_loop_Next; [|simpl; lia].
          rewrite Hdot. destruct (_ <? _); reflexivity. }
        destruct (scan _ (length P + 1 + length l) rest) as [[ls hit] map'].
        destruct Hres as (R1 & R2 & R3 & R4).
        split; [simpl length; lia|]. split; [exact R2|]. split; [exact R3|].
        exact R4.
    + (* without a map *)
      destruct (Hrest None (or_introl eq_refl)) as (s' & Hloop & Hres).
      exists s'. split.
      { rewrite <- Hloop. apply writeName_loop_Next; [|subst nl1; simpl; lia].
        exact Hdot. }
      rewrite scan_cons_None. cbn [scan] in Hres.
      destruct Hres as (R1 & R2 & R3 & R4).
      split; [simpl length; lia|]. split; [exact R2|]. split; [exact R3|].
      exact R4.
Qed.

(** ** [readName] on the wire form of a name *)

Lemma length_label_codes_ge l : (length l <= length (label_codes l))%nat.
Proof.
  induction l as [|b l IH]; [simpl; lia|].
  rewrite label_codes_cons, length_app. simpl length.
  pose proof (length_esc_codes b).
  destruct (is_special b); [|destruct (_ || _)]; lia.
Qed.

Lemma length_wire_le_pres labels :
  (length (wire_labels labels) <= length (pres_codes labels))%nat.
Proof.
  induction labels as [|l ls IH]; [simpl; lia|].
  rewrite wire_labels_cons, pres_codes_cons. simpl length.
  rewrite !length_app. simpl length.
  pose proof (length_label_codes_ge l). lia.
Qed.

Lemma read_label_ok data off : forall cnt name max j,
  (j + cnt <= length data)%nat ->
  (String.length name + cnt < max)%nat ->
  let bs := take cnt (drop j data) in
  read_label data off name max j cnt
  = Ok (name +:+ string_of_codes (label_codes bs),
        (max + (length (label_codes bs) - cnt))%nat).
Proof.
  induction cnt as [|k IH]; intros name max j Hj Hmax.
  - simpl. rewrite string_app_nil_r, Nat.add_0_r. reflexivity.
  - cbn zeta. rewrite read_label_S. cbn zeta.
    rewrite take_drop_S by lia.
    set (b := byte data j).
    assert (L : (1 <= length (esc_codes b))%nat).
    { rewrite length_esc_codes. destruct (is_special b); [|destruct (_ || _)]; lia. }
    assert (Lk : (k <= length (label_codes (take k (drop (S j) data))))%nat).
    { assert (E : length (take k (drop (S j) data)) = k).
      { rewrite length_take, length_drop. lia. }
      revert E. generalize (take k (drop (S j) data)). clear.
      intros l <-. induction l as [|b l IH]; [simpl; lia|].
      rewrite label_codes_cons, length_app. simpl length.
      pose proof (length_esc_codes b).
      destruct (is_special b); [|destruct (_ || _)]; lia. }
    destruct (Nat.leb_spec (max + (length (esc_codes b) - 1))
                (String.length (name +:+ string_of_codes (esc_codes b))))
      as [Hle|_].
    { rewrite string_length_app, length_string_of_codes in Hle. lia. }
    replace (j + 1)%nat with (S j) by lia.
    rewrite IH.
    + rewrite label_codes_cons, string_of_codes_app, string_app_assoc, length_app.
      do 2 f_equal. lia.
    + lia.
    + rewrite string_length_app, length_string_of_codes. lia.
Qed.

Lemma land_label_length (c : Z) : 0 <= c < 64 -> Z.land c 0xc0 = 0.
Proof.
  intros H. rewrite <- (Z.mod_small c 64) by lia.
  change 64 with (2 ^ 6). rewrite <- Z.land_ones by lia.
  rewrite <- Z.land_assoc. change (Z.land (Z.ones 6) 0xc0) with 0.
  apply Z.land_0_r.
Qed.

Lemma readName_loop_wire Q : forall labels P0 fuel name max res,
  Forall valid_label labels ->
  (String.length name + length (wire_labels labels) < max)%nat ->
  (length labels < fuel)%nat ->
  readName_loop fuel (P0 ++ wire_labels labels ++ [0] ++ Q)
    (mkr (length P0) name res max 0)
  = Ok (mkr (length P0 + length (wire_labels labels) + 1)
          (name +:+ string_of_codes (pres_codes labels)) res
          (max + (length (pres_codes labels) - length (wire_labels labels)))
          0).
Proof.
  induction labels as [|l rest IH]; intros P0 fuel name max res Hv Hmax Hfuel.
  - destruct fuel as [|fuel]; [simpl in Hfuel; lia|].
    cbn [readName_loop wire_labels fmap list_fmap concat app].
    unfold readName_step. cbn [r_off r_name r_res r_max r_ptr].
    destruct (Nat.leb_spec (length (P0 ++ 0 :: Q)) (length P0)) as [Hle|_].
    { rewrite length_app in Hle. simpl in Hle. lia. }
    rewrite byte_middle. change (0 =? 0) with true. cbn iota.
    simpl. rewrite string_app_nil_r, !Nat.add_0_r. reflexivity.
  - destruct fuel as [|fuel]; [simpl in Hfuel; lia|].
    apply Forall_cons in Hv as [[[Hl1 Hl2] Ho] Hv].
    rewrite wire_labels_cons in *. simpl length in Hmax, Hfuel.
    rewrite length_app in Hmax.
    set (data := P0 ++ (Z.of_nat (length l) :: l ++ wire_labels rest) ++ [0] ++ Q).
    assert (Hdata : data = (P0 ++ [Z.of_nat (length l)]) ++ l
                           ++ wire_labels rest ++ [0] ++ Q).
    { subst data. rewrite <- !app_assoc. simpl. rewrite <- ?app_assoc.
      reflexivity. }
    assert (Hlen : length data
                   = (length P0 + 1 + length l + length (wire_labels rest) + 1
                      + length Q)%nat).
    { rewrite Hdata, !length_app. simpl. lia. }
    cbn [readName_loop]. unfold readName_step.
    cbn [r_off r_name r_res r_max r_ptr].
    destruct (Nat.leb_spec (length data) (length P0)) as [Hle|_]; [lia|].
    assert (B : byte data (length P0) = Z.of_nat (length l)).
    { subst data. apply byte_middle. }
    rewrite B.
    destruct (Z.eqb_spec (Z.of_nat (length l)) 0); [lia|].
    rewrite land_label_length by lia. change (0 =? 0) with true. cbn iota.
    rewrite Nat2Z.id.
    destruct (Nat.ltb_spec (length data) (length P0 + 1 + length l)); [lia|].
    assert (Hbs : take (length l) (drop (length P0 + 1) data) = l).
    { rewrite Hdata.
      replace (length P0 + 1)%nat with (length (P0 ++ [Z.of_nat (length l)]))
        by (rewrite length_app; simpl; lia).
      rewrite drop_app_length, take_app_length. reflexivity. }
    rewrite read_label_ok by lia. cbn zeta. rewrite Hbs.
    assert (Lc : (length l <= length (label_codes l))%nat).
    { clear. induction l as [|b l IH]; [simpl; lia|].
      rewrite label_codes_cons, length_app. simpl length.
      pose proof (length_esc_codes b).
      destruct (is_special b); [|destruct (_ || _)]; lia. }
    specialize (IH (P0 ++ Z.of_nat (length l) :: l) fuel
                  ((name +:+ string_of_codes (label_codes l)) +:+ ".")
                  (max + (length (label_codes l) - length l))%nat res Hv).
    rewrite length_app in IH. simpl length in IH.
    assert (Hdata2 : data = (P0 ++ Z.of_nat (length l) :: l)
                            ++ wire_labels rest ++ [0] ++ Q).
    { rewrite Hdata, <- !app_assoc. reflexivity. }
    rewrite Hdata2.
    replace (length P0 + 1 + length l)%nat with (length P0 + S (length l))%nat
      by lia.
    rewrite IH.
    + rewrite pres_codes_cons, !string_of_codes_app, !length_app.
      rewrite !string_app_assoc. simpl length. rewrite length_app.
      change (string_of_codes [46]) with ".".
      pose proof (length_wire_le_pres rest).
      f_equal. f_equal; lia.
    + rewrite !string_length_app, length_string_of_codes. simpl. lia.
    + lia.
Qed.

Lemma presentation_cons l rest :
  presentation (l :: rest) = string_of_codes (pres_codes (l :: rest)).
Proof. reflexivity. Qed.

(** [readName] on the wire form of a valid name, wherever it stands in a
    buffer, returns the offset behind it and its presentation. *)
Lemma readName_wire labels P Q :
  valid_name labels ->
  readName (P ++ wire_name labels ++ Q) (length P)
  = Ok ((length P + length (wire_name labels))%nat, presentation labels).
Proof.
  intros [Hv Hlen]. unfold wire_name in *. rewrite length_app in *.
  simpl length in *. unfold readName, readName_init.
  rewrite <- (app_assoc (wire_labels labels) [0] Q).
  rewrite readName_loop_wire; [|assumption|simpl; lia|].
  2:{ unfold readName_bound. rewrite !length_app. simpl.
      assert (length labels <= length (wire_labels labels))%nat; [|lia].
      clear. induction labels as [|l ls IH]; [simpl; lia|].
      rewrite wire_labels_cons. simpl. rewrite length_app. lia. }
  cbn [mbind result_bind]. unfold readName_finish.
  cbn [r_off r_name r_res r_max r_ptr]. change (0 =? 0)%nat with true.
  cbn iota.
  pose proof (length_wire_le_pres labels) as Lp.
  change ("" +:+ string_of_codes (pres_codes labels))
    with (string_of_codes (pres_codes labels)).
  destruct labels as [|l rest].
  - simpl. f_equal. f_equal. lia.
  - rewrite <- presentation_cons.
    assert (Hn : String.length (presentation (l :: rest))
                 = length (pres_codes (l :: rest))).
    { apply length_string_of_codes. }
    assert (0 < length (pres_codes (l :: rest)))%nat.
    { rewrite pres_codes_cons, !length_app. simpl. lia. }
    destruct (Nat.eqb_spec (String.length (presentation (l :: rest))) 0); [lia|].
    destruct (Nat.leb_spec
                (255 + (length (pres_codes (l :: rest))
                        - length (wire_labels (l :: rest))))
                (String.length (presentation (l :: rest)))); [lia|].
    do 2 f_equal. lia.
Qed.

(** ** [writeName] on the presentation of a name *)

Lemma esc_codes_ascii b :
  0 <= b < 256 -> Forall (λ c, 0 <= c < 128) (esc_codes b).
Proof.
  intros Hb. unfold esc_codes. destruct (is_special b) eqn:S.
  - apply is_special_printable in S. repeat constructor; lia.
  - destruct ((b <? 0x20) || (0x7e <? b)) eqn:E.
    + assert (0 <= b / 100 <= 2).
      { split; [apply Z.div_pos; lia|].
        apply Z.lt_succ_r, Z.div_lt_upper_bound; lia. }
      pose proof (Z.mod_pos_bound (b / 10) 10).
      pose proof (Z.mod_pos_bound b 10).
      repeat constructor; lia.
    + apply orb_false_iff in E as [E1 E2]. apply Z.ltb_ge in E1, E2.
      repeat constructor; lia.
Qed.

Lemma pres_codes_ascii labels :
  Forall valid_label labels -> Forall (λ c, 0 <= c < 128) (pres_codes labels).
Proof.
  induction 1 as [|l ls [_ Ho] _ IH]; [constructor|].
  rewrite pres_codes_cons. apply Forall_app. split.
  - clear -Ho. induction Ho as [|b l Hb _ IH]; [constructor|].
    rewrite label_codes_cons. apply Forall_app. split; [|exact IH].
    apply esc_codes_ascii, Hb.
  - constructor; [lia | exact IH].
Qed.

Lemma bytes_of_string_codes l :
  Forall (λ c, 0 <= c < 128) l -> bytes_of_string (string_of_codes l) = l.
Proof.
  unfold bytes_of_string, string_of_codes.
  rewrite list_ascii_of_string_of_list_ascii.
  induction 1 as [|c l Hc _ IH]; [reflexivity|]. cbn [fmap list_fmap].
  f_equal; [|exact IH]. unfold char_of_byte.
  rewrite nat_ascii_embedding by lia. lia.
Qed.

Lemma toString_ascii_codes l :
  Forall (λ c, 0 <= c < 128) l ->
  toString_ascii l (length l) = string_of_codes l.
Proof.
  intros H. unfold toString_ascii, string_of_codes. rewrite firstn_all.
  f_equal. induction H as [|c l Hc _ IH]; [reflexivity|]. cbn [fmap list_fmap].
  f_equal; [|exact IH]. f_equal. change 0x7f with (Z.ones 7).
  rewrite Z.land_ones by lia. apply Z.mod_small. lia.
Qed.

Lemma get_last_char_snoc (s : string) (c : ascii) :
  get_last_char (s +:+ String c EmptyString) = Some c.
Proof.
  unfold get_last_char. rewrite string_length_app. simpl String.length.
  replace (String.length s + 1 - 1)%nat with (0 + String.length s)%nat by lia.
  rewrite <- append_correct2. reflexivity.
Qed.

Lemma pres_codes_last labels :
  labels <> [] -> exists X, pres_codes labels = X ++ [0x2e].
Proof.
  induction labels as [|l ls _] using rev_ind; [contradiction|]. intros _.
  rewrite pres_codes_app, pres_codes_cons.
  exists (pres_codes ls ++ label_codes l).
  change (pres_codes []) with (@nil Z).
  rewrite <- !app_assoc. reflexivity.
Qed.

Lemma compress_scan_no_hit labels : forall m off ls m',
  compress_scan m off labels = (ls, None, m') -> ls = labels.
Proof.
  induction labels as [|l rest IH]; intros m off ls m' H; simpl in H.
  - congruence.
  - destruct (m !! cmp_key l rest); [congruence|].
    destruct (compress_scan _ _ rest) as [[ls1 p1] m1] eqn:E.
    injection H as <- -> <-. f_equal. eapply IH, E.
Qed.

Lemma scan_no_hit map off labels ls map' :
  scan map off labels = (ls, None, map') -> ls = labels.
Proof.
  destruct map as [m|]; simpl; [|congruence].
  destruct (compress_scan m off labels) as [[ls1 p1] m1] eqn:E.
  intros H. injection H as <- -> <-. eapply compress_scan_no_hit, E.
Qed.

Lemma length_writeUInt16BE_noAssert d v o :
  length (writeUInt16BE_noAssert d v o) = length d.
Proof. unfold writeUInt16BE_noAssert. rewrite !length_insert. reflexivity. Qed.

(** [writeName] on the presentation of a name with at least one label:
    without a hit in the map the whole wire form is written; with a hit the
    labels before it are, and the name ends two octets further. *)
Lemma writeName_labels labels data off map cmp :
  labels <> [] -> valid_name labels ->
  (String.length (presentation labels) <= 254)%nat ->
  (off + length (wire_name labels) <= length data)%nat ->
  map = None \/ cmp = true ->
  let '(ls, hit, map') := scan map off labels in
  exists data',
    writeName (Some data) (presentation labels) off map cmp
    = Ok (RetPair (match hit with
                   | None => off + length (wire_name labels)
                   | Some _ => off + length (wire_labels ls) + 2
                   end) (length ls), Some data', map')
    /\ length data' = length data
    /\ (hit = None ->
        ls = labels
        /\ data' = take off data ++ wire_name labels
                     ++ drop (off + length (wire_name labels)) data).
Proof.
  intros Hne [Hv Hlen] Hp Hroom Hmap.
  assert (Ep : presentation labels = string_of_codes (pres_codes labels)).
  { destruct labels; [contradiction | reflexivity]. }
  rewrite Ep in *. clear Ep.
  unfold wire_name in *. rewrite length_app in *. simpl length in *.
  pose proof (pres_codes_ascii labels Hv) as Ha.
  destruct (pres_codes_last labels Hne) as [X EX].
  assert (L2 : (2 <= length (pres_codes labels))%nat).
  { destruct labels as [|l ls]; [contradiction|].
    apply Forall_cons in Hv as [[[H1 _] _] _].
    rewrite pres_codes_cons, !length_app. simpl length.
    pose proof (length_label_codes_ge l). lia. }
  rewrite length_string_of_codes in Hp.
  assert (LP : length (take off data) = off).
  { rewrite length_take. lia. }
  assert (LR : length (drop off data) = (length data - off)%nat).
  { apply length_drop. }
  destruct (loop_labels (length data) cmp labels [] [] (take off data)
              (drop off data) (length (pres_codes labels))
              (string_of_codes (pres_codes labels)) true false 0%nat map)
    as (s' & Hs & Hscan); try assumption.
  { lia. } { lia. } { lia. }
  { intros _ _. cbn [app length Nat.add]. rewrite app_nil_r.
    symmetry. apply toString_ascii_codes, Ha. }
  cbn [app length Nat.add] in Hs. rewrite app_nil_r, take_drop, LP in Hs.
  rewrite LP in Hscan.
  unfold writeName. rewrite length_string_of_codes.
  destruct (Nat.leb_spec (length (pres_codes labels)) 254); [|lia].
  cbn [assert mbind result_bind].
  destruct (Nat.eqb_spec (length (pres_codes labels)) 0); [lia|].
  rewrite bool_decide_eq_true_2.
  2:{ rewrite EX, string_of_codes_app. apply get_last_char_snoc. }
  cbn [negb mbind result_bind].
  rewrite bytes_of_string_codes by exact Ha.
  rewrite Nat.eqb_refl. cbn [negb]. rewrite Hs. cbn [mbind result_bind].
  destruct (Nat.eqb_spec (length (pres_codes labels)) 1); [lia|].
  cbn [andb].
  destruct (scan map off labels) as [[ls hit] map'] eqn:Escan.
  destruct Hscan as (Hcnt & Hm & (d & Hd & Hdl & Hdp) & Hhit).
  destruct hit as [p|].
  - destruct Hhit as [Hptr Hpos]. rewrite Hptr, Hpos, Hd, Hm, Hcnt.
    destruct (Z.eqb_spec (Z.of_nat p) (-1)); [lia|]. cbn [negb fmap option_fmap option_map].
    eexists. split; [|split].
    + replace (Z.to_nat (Z.of_nat (off + length (wire_labels ls)) + 2))
        with (off + length (wire_labels ls) + 2)%nat by lia.
      reflexivity.
    + rewrite length_writeUInt16BE_noAssert, Hdl. lia.
    + discriminate.
  - destruct Hhit as (Hptr & Hoff & Hdata).
    pose proof (scan_no_hit _ _ _ _ _ Escan) as ->.
    rewrite Hptr, Hoff, Hdata, Hm, Hcnt. change (-1 =? -1) with true.
    cbn [negb].
    destruct (Nat.ltb_spec (off + length (wire_labels labels)) (length data));
      [|lia].
    destruct (lookup_lt_is_Some_2 (drop off data) (length (wire_labels labels)))
      as [x Hx]; [lia|].
    rewrite (drop_S _ _ _ Hx), drop_drop.
    replace (take off data ++ wire_labels labels
               ++ x :: drop (off + S (length (wire_labels labels))) data)
      with ((take off data ++ wire_labels labels)
              ++ x :: drop (off + S (length (wire_labels labels))) data)
      by (rewrite <- app_assoc; reflexivity).
    assert (Est : forall R,
      store (Some ((take off data ++ wire_labels labels) ++ x :: R))
        (off + length (wire_labels labels)) 0
      = Some ((take off data ++ wire_labels labels) ++ 0 :: R)).
    { intros R.
      replace (off + length (wire_labels labels))%nat
        with (length (take off data ++ wire_labels labels))
        by (rewrite length_app; lia).
      apply store_spec. lia. }
    rewrite Est.
    replace (off + length (wire_labels labels) + 1)%nat
      with (off + (length (wire_labels labels) + 1))%nat by lia.
    eexists. split; [reflexivity|]. split.
    + rewrite !length_app. simpl length. rewrite length_drop, LP. lia.
    + intros _. split; [reflexivity|].
      rewrite <- !app_assoc. simpl.
      replace (off + S (length (wire_labels labels)))%nat
        with (off + (length (wire_labels labels) + 1))%nat by lia.
      reflexivity.
Qed.

(** The root name: one round of the loop writes the zero octet. *)
Lemma writeName_root data off map cmp :
  (off + 1 <= length data)%nat ->
  writeName (Some data) "." off map cmp
  = Ok (RetPair (off + 1) 1,
        Some (take off data ++ [0] ++ drop (off + 1) data), map).
Proof.
  intros H.
  assert (Hlt : (length data <? off + 1)%nat = false) by (apply Nat.ltb_ge; lia).
  assert (Es : store (Some data) off (Z.land (Z.of_nat 0) 255)
               = Some (take off data ++ [0] ++ drop (off + 1) data)).
  { unfold store. cbn [fmap option_fmap option_map]. f_equal.
    change (Z.land (Z.of_nat 0) 255 mod 256) with 0.
    rewrite insert_take_drop by lia.
    replace (S off) with (off + 1)%nat by lia. reflexivity. }
  unfold writeName. change (String.length ".") with 1%nat.
  change (1 <=? 254)%nat with true. change (1 =? 0)%nat with false.
  cbn [assert mbind result_bind].
  rewrite bool_decide_eq_true_2 by reflexivity. cbn [negb mbind result_bind].
  change (bytes_of_string ".") with [0x2e].
  change (length [0x2e]) with 1%nat. change (1 =? 1)%nat with true.
  cbn [negb]. unfold writeName_loop at 1. cbn [w_nl].
  change (0 <? 1)%nat with true. cbn iota.
  unfold writeName_body. cbn [w_n]. change (byte [0x2e] 0) with 0x2e.
  change (0x2e =? 0x5c) with false. change (0x2e =? 0x2e) with true. cbn iota.
  unfold writeName_dot.
  cbn [w_n w_nl w_name w_off w_data w_map w_pos w_ptr w_begin w_fresh
       w_escaped w_labels].
  change (0 <? 0)%nat with false. change (0 - 0)%nat with 0%nat.
  change (64 <=? 0)%nat with false. cbn [andb]. rewrite Hlt, Es.
  cbn [copy_label mbind result_bind negb]. rewrite andb_false_r.
  destruct map as [m|];
    [change (String.eqb (substring_from 0 ".") ".") with true; cbn iota|];
    cbn [mbind result_bind]; change (0 + 1)%nat with 1%nat;
    cbn [w_nl]; change (1 <? 1)%nat with false;
    cbn [w_n w_off w_labels w_data w_map w_ptr andb];
    change (byte [0x2e] 0 =? 0x2e) with true; reflexivity.
Qed.

Lemma scan_nil map off : scan map off [] = ([], None, map).
Proof. destruct map; reflexivity. Qed.

(** ** The name codec on valid names *)

(** X1. [writeName], given a buffer with room and no map, writes the wire
    form of a name that satisfies the invariants of spec section 3 and whose
    presentation is at most 254 characters long: the length-prefixed labels
    and the root octet, from [off] on, leaving the rest of the buffer as it
    was; it returns the offset behind the name and the number of labels (one
    for the root). *)
Theorem writeName_writes_wire_form labels data off cmp :
  valid_name labels ->
  (String.length (presentation labels) <= 254)%nat ->
  (off + length (wire_name labels) <= length data)%nat ->
  writeName (Some data) (presentation labels) off None cmp
  = Ok (RetPair (off + length (wire_name labels)) (label_count labels),
        Some (take off data ++ wire_name labels
                ++ drop (off + length (wire_name labels)) data),
        None).
Proof.
  intros Hv Hp Hroom. destruct labels as [|l rest].
  - apply writeName_root. exact Hroom.
  - pose proof (writeName_labels (l :: rest) data off None cmp
                  ltac:(discriminate) Hv Hp Hroom (or_introl eq_refl)) as H.
    rewrite scan_cons_None in H. destruct H as (out & -> & _ & Hout).
    destruct (Hout eq_refl) as [_ ->]. reflexivity.
Qed.

Lemma writeName_writes_wire_form_witness :
  writeName (Some (replicate 12 7)) "a.\.b." 3 None false
  = Ok (RetPair 9 2, Some [7; 7; 7; 1; 97; 2; 46; 98; 0; 7; 7; 7], None).
Proof.
  apply (writeName_writes_wire_form [[97]; [46; 98]] (replicate 12 7) 3 false).
  - split; [repeat constructor; simpl; lia | simpl; lia].
  - simpl. lia.
  - simpl. lia.
Defined.



(** X3. [readName], at the start of the wire form of a name that satisfies
    the invariants of spec section 3, wherever that stands in a buffer,
    returns the offset behind the root octet and the presentation of the
    name, with its reserved characters and unprintable octets escaped. *)
Theorem readName_reads_wire_form labels before after :
  valid_name labels ->
  readName (before ++ wire_name labels ++ after) (length before)
  = Ok ((length before + length (wire_name labels))%nat, presentation labels).
Proof. apply readName_wire. Qed.

Lemma readName_reads_wire_form_witness :
  readName ([7; 7; 7] ++ [1; 97; 2; 46; 0; 0] ++ [9]) 3 = Ok (9%nat, "a.\.\000.").
Proof.
  change (readName ([7; 7; 7] ++ wire_name [[97]; [46; 0]] ++ [9])
            (length [7; 7; 7])
          = Ok (Nat.add (length [7; 7; 7])
                  (length (wire_name [[97]; [46; 0]])),
                presentation [[97]; [46; 0]])).
  apply (readName_reads_wire_form [[97]; [46; 0]] [7; 7; 7] [9]).
  split; [repeat constructor; simpl; lia | simpl; lia].
Defined.

(** ** Names that [readName] returns *)

Lemma label_length_octet c :
  0 <= c < 256 -> c <> 0 -> Z.land c 0xc0 = 0 -> (1 <= Z.to_nat c <= 63)%nat.
Proof.
  intros Hc Hn Hl.
  assert (T : forallb (λ n, implb (Z.land (Z.of_nat n) 0xc0 =? 0) (n <? 64)%nat)
                (seq 0 256) = true) by (vm_compute; reflexivity).
  rewrite forallb_forall in T. specialize (T (Z.to_nat c)).
  rewrite Z2Nat.id, Hl in T by lia. simpl in T.
  assert (Hin : In (Z.to_nat c) (seq 0 256)) by (apply in_seq; lia).
  apply T, Nat.ltb_lt in Hin. lia.
Qed.

Lemma byte_octet data i : octets data -> 0 <= byte data i < 256.
Proof.
  intros H. unfold byte. destruct (data !! i) as [x|] eqn:E; simpl; [|lia].
  unfold octets in H. rewrite Forall_lookup in H. exact (H i x E).
Qed.

(** On a buffer of octets, the labels the decoder has read are labels of 1
    to 63 octets. *)
Lemma readName_step_valid data s s' :
  octets data ->
  (exists labels,
      Forall valid_label labels
      /\ r_name s = string_of_codes (pres_codes labels)
      /\ (String.length (r_name s) + 255
          = length (wire_labels labels) + r_max s)%nat) ->
  readName_step data s = Continue s' ->
  exists labels,
      Forall valid_label labels
      /\ r_name s' = string_of_codes (pres_codes labels)
      /\ (String.length (r_name s') + 255
          = length (wire_labels labels) + r_max s')%nat.
Proof.
  intros Ho (labels & Hv & Hn & Hl) H. unfold readName_step in H.
  destruct (Nat.leb_spec (length data) (r_off s)); [discriminate|].
  destruct (Z.eqb_spec (byte data (r_off s)) 0) as [|Hc0]; [discriminate|].
  destruct (Z.eqb_spec (Z.land (byte data (r_off s)) 0xc0) 0) as [Hland|_].
  { destruct (Nat.ltb_spec (length data)
                (r_off s + 1 + Z.to_nat (byte data (r_off s)))); [discriminate|].
    destruct (read_label _ _ _ _ _ _) as [[name max]|e'] eqn:E; [|discriminate].
    injection H as <-. simpl.
    apply read_label_spec in E as (-> & E2 & _); [|lia].
    set (bs := take _ _) in *.
    assert (Hbs : length bs = Z.to_nat (byte data (r_off s))).
    { subst bs. rewrite length_take, length_drop. lia. }
    pose proof (label_length_octet _ (byte_octet data (r_off s) Ho) Hc0 Hland).
    exists (labels ++ [bs]). split; [|split].
    - apply Forall_app. split; [exact Hv|]. constructor; [|constructor].
      split; [lia|]. subst bs. apply Forall_take, Forall_drop, Ho.
    - rewrite pres_codes_app, !string_of_codes_app, Hn.
      unfold pres_codes. simpl. rewrite app_nil_r, string_of_codes_app.
      rewrite string_app_assoc. reflexivity.
    - rewrite wire_labels_app, length_app. unfold wire_labels at 2. simpl.
      rewrite app_nil_r. simpl.
      rewrite !string_length_app, !length_string_of_codes in *. simpl. lia. }
  destruct (Z.land _ _ =? 0xc0); [|discriminate].
  destruct (_ <=? _)%nat; [discriminate|].
  destruct (_ <? _)%nat; [discriminate|].
  injection H as <-. simpl. eauto.
Qed.

Lemma readName_loop_valid data : forall fuel s s',
  octets data ->
  (exists labels,
      Forall valid_label labels
      /\ r_name s = string_of_codes (pres_codes labels)
      /\ (String.length (r_name s) + 255
          = length (wire_labels labels) + r_max s)%nat) ->
  readName_loop fuel data s = Ok s' ->
  exists labels,
      Forall valid_label labels
      /\ r_name s' = string_of_codes (pres_codes labels)
      /\ (String.length (r_name s') + 255
          = length (wire_labels labels) + r_max s')%nat.
Proof.
  induction fuel as [|f IH]; intros s s' Ho Hinv H; [discriminate|].
  cbn [readName_loop] in H.
  destruct (readName_step data s) as [s1|s1|e] eqn:E; [| |discriminate].
  - eapply IH; [exact Ho| |exact H]. eapply readName_step_valid; eauto.
  - injection H as <-. apply readName_step_done in E as [-> ->]. exact Hinv.
Qed.

(** A name that [readName] returns from a buffer of octets is the
    presentation of a name that satisfies the invariants. *)
Lemma readName_valid data off res name :
  octets data ->
  readName data off = Ok (res, name) ->
  exists labels, valid_name labels /\ name = presentation labels.
Proof.
  unfold readName. intros Ho H. bind_in H as s Hs.
  apply readName_loop_valid in Hs as (labels & Hv & Hn & Hl); [|exact Ho|].
  2:{ exists []. simpl. split; [constructor|]. split; [reflexivity | lia]. }
  unfold readName_finish in H.
  destruct (Nat.leb_spec (r_max s)
              (String.length (if (String.length (r_name s) =? 0)%nat
                              then "." else r_name s))) as [|Hlt];
    [discriminate|].
  injection H as _ <-. exists labels.
  unfold valid_name, wire_name. rewrite length_app. simpl.
  destruct labels as [|l ls].
  - rewrite Hn. simpl. split; [split; [constructor | lia] | reflexivity].
  - assert (Hpos : (0 < String.length (r_name s))%nat).
    { rewrite Hn, length_string_of_codes, pres_codes_cons, !length_app.
      simpl. lia. }
    destruct (Nat.eqb_spec (String.length (r_name s)) 0); [lia|].
    split; [split; [exact Hv | lia] | exact Hn].
Qed.

Lemma writeName_valid_name labels data off cmp :
  valid_name labels ->
  (String.length (presentation labels) <= 254)%nat ->
  (off + length (wire_name labels) <= length data)%nat ->
  writeName (Some data) (presentation labels) off None cmp
  = Ok (RetPair (off + length (wire_name labels)) (label_count labels),
        Some (take off data ++ wire_name labels
                ++ drop (off + length (wire_name labels)) data),
        None).
Proof.
  intros Hv Hp Hroom. destruct labels as [|l rest].
  - apply writeName_root. exact Hroom.
  - pose proof (writeName_labels (l :: rest) data off None cmp
                  ltac:(discriminate) Hv Hp Hroom (or_introl eq_refl)) as H.
    rewrite scan_cons_None in H. destruct H as (out & -> & _ & Hout).
    destruct (Hout eq_refl) as [_ ->]. reflexivity.
Qed.

(** X4. Every name that [readName] returns from a buffer of octets is the
    presentation of a sequence of labels of 1 to 63 octets whose wire form
    has at most 255 octets; if it is at most 254 characters long,
    [writeName] writes it into any buffer with room for it, and [readName]
    on what was written returns the same name. *)
Theorem readName_writeName_readName data off res name buf o cmp :
  octets data ->
  readName data off = Ok (res, name) ->
  (String.length name <= 254)%nat ->
  exists labels,
    valid_name labels /\ name = presentation labels
    /\ ((o + length (wire_name labels) <= length buf)%nat ->
        exists out,
          writeName (Some buf) name o None cmp
          = Ok (RetPair (o + length (wire_name labels)) (label_count labels),
                Some out, None)
          /\ readName out o = Ok ((o + length (wire_name labels))%nat, name)).
Proof.
  intros Ho H Hlen. destruct (readName_valid _ _ _ _ Ho H) as (labels & Hv & ->).
  exists labels. split; [exact Hv|]. split; [reflexivity|]. intros Hroom.
  eexists. split; [apply writeName_valid_name; assumption|].
  assert (Lt : length (take o buf) = o) by (rewrite length_take; lia).
  pose proof (readName_wire labels (take o buf)
                (drop (o + length (wire_name labels)) buf) Hv) as R.
  rewrite Lt in R. exact R.
Qed.

Lemma readName_writeName_readName_witness :
  exists labels,
    valid_name labels /\ "a.\.b." = presentation labels
    /\ ((3 + length (wire_name labels) <= length (replicate 12 7))%nat ->
        exists out,
          writeName (Some (replicate 12 7)) "a.\.b." 3 None false
          = Ok (RetPair (3 + length (wire_name labels)) (label_count labels),
                Some out, None)
          /\ readName out 3
             = Ok ((3 + length (wire_name labels))%nat, "a.\.b.")).
Proof.
  apply (readName_writeName_readName [9; 1; 97; 2; 46; 98; 0] 1 7%nat "a.\.b."
           (replicate 12 7) 3%nat false).
  - repeat constructor; lia.
  - vm_compute. reflexivity.
  - simpl. lia.
Defined.

(** ** The offset that [readName] returns *)

Lemma readName_loop_advances data off0 : forall fuel s s',
  (r_ptr s = 0%nat -> (off0 <= r_off s)%nat) ->
  (r_ptr s <> 0%nat -> (off0 < r_res s)%nat) ->
  readName_loop fuel data s = Ok s' ->
  (r_ptr s' = 0%nat -> (off0 < r_off s')%nat)
  /\ (r_ptr s' <> 0%nat -> (off0 < r_res s')%nat).
Proof.
  induction fuel as [|f IH]; intros s s' Hoff Hres H; [discriminate|].
  cbn [readName_loop] in H. unfold readName_step in H.
  destruct (Nat.leb_spec (length data) (r_off s)) as [|Hlt]; [discriminate|].
  destruct (byte data (r_off s) =? 0).
  { injection H as <-. simpl. split; [intros E; specialize (Hoff E); lia | exact Hres]. }
  destruct (Z.land _ _ =? 0).
  { destruct (Nat.ltb_spec (length data) (r_off s + 1 + Z.to_nat (byte data (r_off s))));
      [discriminate|].
    destruct (read_label _ _ _ _ _ _) as [[name max]|e]; [|discriminate].
    apply IH in H; [exact H | | exact Hres].
    simpl. intros E. specialize (Hoff E). lia. }
  destruct (Z.land _ _ =? 0xc0); [|discriminate].
  destruct (Nat.leb_spec (length data) (r_off s + 1)); [discriminate|].
  destruct (Nat.ltb_spec 10 (r_ptr s + 1)); [discriminate|].
  apply IH in H; [exact H | simpl; lia |]. simpl. intros _.
  destruct (Nat.eqb_spec (r_ptr s) 0) as [E|E]; [specialize (Hoff E); lia | auto].
Qed.

(** X5. When [readName] returns, the offset it returns lies behind the
    offset it started from and not behind the end of the buffer: the reader
    consumes at least one octet and never leaves the buffer, whatever
    pointers the name holds. *)
Theorem readName_offset_advances data off res name :
  readName data off = Ok (res, name) -> (off < res <= length data)%nat.
Proof.
  intros H. split; [|eapply readName_inside, H].
  unfold readName in H. bind_in H as s Hs.
  apply (readName_loop_advances data off) in Hs as [H1 H2];
    [|simpl; lia|simpl; lia].
  unfold readName_finish in H. destruct (_ <=? _)%nat; [discriminate|].
  injection H as <- _.
  destruct (Nat.eqb_spec (r_ptr s) 0); auto.
Qed.

Lemma readName_offset_advances_witness :
  readName [1; 97; 0; 0xc0; 0; 9] 3 = Ok (5%nat, "a.")
  /\ (3 < 5 <= length [1; 97; 0; 0xc0; 0; 9])%nat.
Proof.
  split; [vm_compute; reflexivity|].
  apply (readName_offset_advances [1; 97; 0; 0xc0; 0; 9] 3 5%nat "a.").
  vm_compute. reflexivity.
Defined.

(** ** The size pass: [writeName] without a buffer *)

Lemma copy_label_without_data len n : forall cnt d off j,
  copy_label len n None off j cnt
  = match copy_label len n (Some d) off j cnt with
    | Ok (_, off') => Ok (None, off')
    | Err e => Err e
    end.
Proof.
  induction cnt as [|k IH]; intros d off j; [reflexivity|].
  cbn [copy_label]. destruct (len <? off + 1)%nat; [reflexivity|].
  unfold store. cbn [fmap option_fmap option_map]. apply IH.
Qed.

Lemma copy_label_data len n : forall cnt d off j data' off',
  copy_label len n (Some d) off j cnt = Ok (data', off') ->
  exists d', data' = Some d'.
Proof.
  induction cnt as [|k IH]; intros d off j data' off' C; cbn [copy_label] in C.
  - injection C as <- _. eauto.
  - destruct (len <? off + 1)%nat; [discriminate|].
    unfold store in C. cbn [fmap option_fmap option_map] in C.
    eapply IH, C.
Qed.

(** The control flow of the loop does not depend on the buffer, only on
    its length. *)
Lemma writeName_body_without_data len cmp i s d :
  w_data s = Some d ->
  writeName_body len cmp i (without_data s)
  = match writeName_body len cmp i s with
    | Ok c => Ok (ctl_without_data c)
    | Err e => Err e
    end.
Proof.
  intros Hd. destruct s as [n nl name off data map pos ptr begin fresh esc lab].
  simpl in Hd. subst data.
  unfold writeName_body, without_data. cbn [w_n w_nl w_name w_off w_data w_map
    w_pos w_ptr w_begin w_fresh w_escaped w_labels].
  destruct (byte n i =? 0x5c).
  { unfold writeName_escape. cbn [w_n w_nl w_name w_off w_data w_map
      w_pos w_ptr w_begin w_fresh w_escaped w_labels].
    destruct (len <? off + 1)%nat; [reflexivity|].
    destruct (_ && _ && _ && _); reflexivity. }
  destruct (byte n i =? 0x2e); [|reflexivity].
  unfold writeName_dot. cbn [w_n w_nl w_name w_off w_data w_map
      w_pos w_ptr w_begin w_fresh w_escaped w_labels].
  destruct (_ && _ && _); [reflexivity|].
  destruct (64 <=? i - begin)%nat; [reflexivity|].
  destruct (len <? off + 1)%nat; [reflexivity|].
  unfold store at 1 2. cbn [fmap option_fmap option_map].
  rewrite (copy_label_without_data len n (i - begin)
             (<[off := Z.land (Z.of_nat (i - begin)) 255 mod 256]> d)).
  destruct (copy_label len n (Some _) (off + 1) begin (i - begin))
    as [[data' off']|e]; [|reflexivity].
  cbn [mbind result_bind].
  destruct (cmp && negb fresh); (destruct map as [m|]; [|reflexivity]);
    (destruct (String.eqb _ "."); [reflexivity|]);
    (destruct (m !! _); [destruct (cmp && _); reflexivity|]);
    destruct (_ <? _); reflexivity.
Qed.

Lemma writeName_body_data len cmp i s d c :
  w_data s = Some d -> writeName_body len cmp i s = Ok c ->
  exists d', w_data (match c with Next s' | Break s' => s' end) = Some d'.
Proof.
  intros Hd. destruct s as [n nl name off data map pos ptr begin fresh esc lab].
  simpl in Hd. subst data.
  unfold writeName_body. cbn [w_n w_nl w_name w_off w_data w_map
    w_pos w_ptr w_begin w_fresh w_escaped w_labels].
  destruct (byte n i =? 0x5c).
  { unfold writeName_escape. cbn [w_n w_nl w_name w_off w_data w_map
      w_pos w_ptr w_begin w_fresh w_escaped w_labels].
    destruct (len <? off + 1)%nat; [discriminate|].
    destruct (_ && _ && _ && _); intros [= <-]; eauto. }
  destruct (byte n i =? 0x2e); [|intros [= <-]; eauto].
  unfold writeName_dot. cbn [w_n w_nl w_name w_off w_data w_map
      w_pos w_ptr w_begin w_fresh w_escaped w_labels].
  destruct (_ && _ && _); [discriminate|].
  destruct (64 <=? i - begin)%nat; [discriminate|].
  destruct (len <? off + 1)%nat; [discriminate|].
  unfold store at 1. cbn [fmap option_fmap option_map].
  pose proof (copy_label_without_data len n (i - begin)
             (<[off := Z.land (Z.of_nat (i - begin)) 255 mod 256]> d)
             (off + 1) begin) as E.
  destruct (copy_label len n (Some _) (off + 1) begin (i - begin))
    as [[data' off']|e] eqn:C; [|discriminate].
  assert (exists d', data' = Some d') as [d' ->].
  { eapply copy_label_data, C. }
  cbn [mbind result_bind].
  destruct (cmp && negb fresh); (destruct map as [m|]; [|intros [= <-]; eauto]);
    (destruct (String.eqb _ "."); [intros [= <-]; eauto|]);
    (destruct (m !! _); [destruct (cmp && _); intros [= <-]; eauto|]);
    destruct (_ <? _); intros [= <-]; eauto.
Qed.

Lemma writeName_loop_without_data len cmp : forall fuel i s d,
  w_data s = Some d ->
  writeName_loop fuel len cmp i (without_data s)
  = match writeName_loop fuel len cmp i s with
    | Ok s' => Ok (without_data s')
    | Err e => Err e
    end.
Proof.
  induction fuel as [|f IH]; intros i s d Hd.
  - cbn [writeName_loop]. change (w_nl (without_data s)) with (w_nl s).
    destruct (i <? w_nl s)%nat; reflexivity.
  - cbn [writeName_loop]. change (w_nl (without_data s)) with (w_nl s).
    destruct (i <? w_nl s)%nat; [|reflexivity].
    rewrite (writeName_body_without_data _ _ _ _ _ Hd).
    destruct (writeName_body len cmp i s) as [c|e] eqn:B; [|reflexivity].
    cbn [mbind result_bind].
    destruct (writeName_body_data _ _ _ _ _ _ Hd B) as [d' Hd'].
    destruct c as [s1|s1]; cbn [ctl_without_data]; [|reflexivity].
    apply (IH _ _ d'). exact Hd'.
Qed.

(** Without a buffer [writeName] returns what it returns on a buffer of
    256 octets, for a name that ends with a dot. *)
Lemma writeName_without_data name map cmp d :
  length d = 256%nat ->
  get_last_char name = Some "."%char ->
  writeName None name 0 map cmp
  = match writeName (Some d) name 0 map cmp with
    | Ok (r, _, map') => Ok (r, None, map')
    | Err e => Err e
    end.
Proof.
  intros Hd Hdot. unfold writeName.
  destruct (String.length name <=? 254)%nat; [|reflexivity].
  cbn [assert mbind result_bind].
  destruct (String.length name =? 0)%nat; [reflexivity|].
  rewrite bool_decide_eq_true_2 by exact Hdot. cbn [negb mbind result_bind].
  destruct (negb _); [reflexivity|]. rewrite Hd.
  pose proof (writeName_loop_without_data 256 cmp (String.length name) 0
                (mkw (bytes_of_string name) (String.length name) name 0
                   (Some d) map (-1) (-1) 0 true false 0) d eq_refl) as E.
  unfold without_data in E at 1.
  cbn [w_n w_nl w_name w_off w_data w_map w_pos w_ptr w_begin w_fresh
       w_escaped w_labels] in E.
  rewrite E. clear E.
  destruct (writeName_loop _ _ _ _ _) as [s|e]; [|reflexivity].
  cbn [mbind result_bind].
  change (w_n (without_data s)) with (w_n s).
  change (w_off (without_data s)) with (w_off s).
  change (w_labels (without_data s)) with (w_labels s).
  change (w_map (without_data s)) with (w_map s).
  change (w_ptr (without_data s)) with (w_ptr s).
  change (w_pos (without_data s)) with (w_pos s).
  change (w_data (without_data s)) with (@None (list Z)).
  destruct (_ && _); [reflexivity|].
  destruct (negb _); [reflexivity|].
  destruct (w_off s <? 256)%nat; reflexivity.
Qed.

(** X6. The size pass agrees with the write pass: for a name that
    satisfies the invariants and is at most 254 characters long,
    [sizeName] returns the number of octets of its wire form, which is what
    [writeName] writes. *)
Theorem sizeName_wire_length labels cmp :
  valid_name labels ->
  (String.length (presentation labels) <= 254)%nat ->
  sizeName (presentation labels) None cmp
  = Ok (length (wire_name labels), None).
Proof.
  intros Hv Hp. unfold sizeName.
  rewrite (writeName_without_data _ _ _ (replicate 256 0)).
  - rewrite writeName_valid_name; [reflexivity | exact Hv | exact Hp |].
    destruct Hv as [_ Hv]. rewrite length_replicate. lia.
  - apply length_replicate.
  - destruct labels as [|l rest]; [reflexivity|].
    destruct (pres_codes_last (l :: rest)) as [X EX]; [discriminate|].
    unfold presentation. rewrite EX, string_of_codes_app.
    apply get_last_char_snoc.
Qed.

Lemma sizeName_wire_length_witness :
  sizeName "www.example.com." None false = Ok (17%nat, None).
Proof.
  apply (sizeName_wire_length
           [[119; 119; 119]; [101; 120; 97; 109; 112; 108; 101]; [99; 111; 109]]
           false).
  - split; [repeat constructor; simpl; lia | simpl; lia].
  - simpl. lia.
Defined.

(** ** Writers and readers on a buffer in three parts *)

Lemma holds_middle (P v Q : list Z) : holds (P ++ v ++ Q) (length P) v.
Proof.
  unfold holds. rewrite drop_app_length, take_app_length. reflexivity.
Qed.

Lemma holds_app d o (a b : list Z) :
  holds d o (a ++ b) <-> holds d o a /\ holds d (o + length a) b.
Proof.
  unfold holds. rewrite length_app, <- drop_drop. split.
  - intros H. assert (Ha : take (length a) (drop o d) = a).
    { apply (f_equal (take (length a))) in H.
      rewrite take_take, take_app_length in H.
      replace (length a `min` (length a + length b))%nat with (length a) in H
        by lia.
      exact H. }
    split; [exact Ha|].
    apply (f_equal (drop (length a))) in H.
    rewrite drop_app_length in H. rewrite take_drop_commute. exact H.
  - intros [Ha Hb]. set (X := drop o d) in *.
    assert (La : length (take (length a) X) = length a) by (rewrite Ha; reflexivity).
    rewrite <- (take_drop (length a) X).
    rewrite take_app_add' by (symmetry; exact La).
    rewrite Ha, Hb. reflexivity.
Qed.

Lemma holds_length d o (v : list Z) :
  holds d o v -> v <> [] -> (o + length v <= length d)%nat.
Proof.
  unfold holds. intros H Hv. apply (f_equal length) in H.
  rewrite length_take, length_drop in H.
  destruct v; [contradiction|]. cbn [length] in *. lia.
Qed.

Lemma holds_split d o (v : list Z) :
  holds d o v -> d = take o d ++ v ++ drop (o + length v) d.
Proof.
  unfold holds. intros H. rewrite <- drop_drop.
  rewrite <- (take_drop o d) at 1. f_equal.
  rewrite <- (take_drop (length v) (drop o d)) at 1. rewrite H. reflexivity.
Qed.

Lemma holds_byte d o (x : Z) (v : list Z) :
  holds d o (x :: v) -> byte d o = x.
Proof.
  intros H. pose proof (holds_length _ _ _ H ltac:(discriminate)) as L.
  assert (Lo : length (take o d) = o) by (rewrite length_take; simpl in L; lia).
  rewrite (holds_split _ _ _ H).
  pose proof (byte_middle (take o d) (v ++ drop (o + length (x :: v)) d) x) as B.
  rewrite Lo in B. exact B.
Qed.

Lemma list_inserts_middle (v : list Z) : forall (P X R : list Z),
  length X = length v ->
  list_inserts (length P) v (P ++ X ++ R) = P ++ v ++ R.
Proof.
  induction v as [|y v IH]; intros P X R HX.
  - destruct X; [reflexivity | discriminate].
  - destruct X as [|x X]; [discriminate|]. injection HX as HX.
    cbn [list_inserts].
    replace (P ++ (x :: X) ++ R) with ((P ++ [x]) ++ X ++ R)
      by (rewrite <- app_assoc; reflexivity).
    replace (S (length P)) with (length (P ++ [x]))
      by (rewrite length_app; simpl; lia).
    rewrite IH by exact HX. rewrite <- app_assoc. simpl.
    apply insert_middle.
Qed.

(** A write of [v] into a writer that has written [P] and has [R] left. *)
Lemma writeBytes_frame (P R v : list Z) :
  (length v <= length R)%nat ->
  StaticWriter.writeBytes (StaticWriter.mk (P ++ R) (length P)) v
  = Ok (StaticWriter.mk ((P ++ v) ++ drop (length v) R) (length (P ++ v))).
Proof.
  intros H. unfold StaticWriter.writeBytes, StaticWriter.check.
  cbn [StaticWriter.data StaticWriter.offset].
  destruct (Nat.ltb_spec (length (P ++ R)) (length P + length v)) as [L|_];
    [rewrite length_app in L; lia|].
  cbn [mbind result_bind]. rewrite <- (take_drop (length v) R) at 1.
  rewrite list_inserts_middle by (rewrite length_take; lia).
  rewrite length_app, <- app_assoc. reflexivity.
Qed.

Lemma writeU16BE_frame (P R : list Z) (x : Z) :
  (2 <= length R)%nat ->
  StaticWriter.writeU16BE (StaticWriter.mk (P ++ R) (length P)) x
  = Ok (StaticWriter.mk ((P ++ StaticWriter.u16be x) ++ drop 2 R)
          (length (P ++ StaticWriter.u16be x))).
Proof. intros H. apply (writeBytes_frame P R (StaticWriter.u16be x)). exact H. Qed.

Lemma writeU32BE_frame (P R : list Z) (x : Z) :
  (4 <= length R)%nat ->
  StaticWriter.writeU32BE (StaticWriter.mk (P ++ R) (length P)) x
  = Ok (StaticWriter.mk ((P ++ StaticWriter.u32be x) ++ drop 4 R)
          (length (P ++ StaticWriter.u32be x))).
Proof. intros H. apply (writeBytes_frame P R (StaticWriter.u32be x)). exact H. Qed.

Lemma writeNameBW_frame labels (P R : list Z) cmp :
  valid_name labels ->
  (String.length (presentation labels) <= 254)%nat ->
  (length (wire_name labels) <= length R)%nat ->
  writeNameBW (StaticWriter.mk (P ++ R) (length P)) (presentation labels) None cmp
  = Ok (label_count labels,
        StaticWriter.mk ((P ++ wire_name labels)
                           ++ drop (length (wire_name labels)) R)
          (length (P ++ wire_name labels)), None).
Proof.
  intros Hv Hp HR. unfold writeNameBW.
  cbn [StaticWriter.data StaticWriter.offset].
  rewrite writeName_valid_name; [|exact Hv|exact Hp|rewrite length_app; lia].
  cbn [mbind result_bind default]. rewrite take_app_length.
  rewrite drop_app_add'; [|reflexivity].
  rewrite length_app, <- app_assoc. reflexivity.
Qed.

(** Reads of octets that stand at the reader's offset. *)
Lemma readBytes_holds d o (v : list Z) :
  holds d o v -> (o + length v <= length d)%nat ->
  BufferReader.readBytes (BufferReader.mk d o) (length v)
  = Ok (v, BufferReader.mk d (o + length v)).
Proof.
  intros H L. unfold BufferReader.readBytes, BufferReader.check.
  cbn [BufferReader.data BufferReader.offset].
  destruct (Nat.ltb_spec (length d) (o + length v)); [lia|].
  cbn [mbind result_bind]. rewrite H. reflexivity.
Qed.

Lemma readU16BE_holds d o (x : Z) :
  0 <= x < 65536 -> holds d o (StaticWriter.u16be x) ->
  BufferReader.readU16BE (BufferReader.mk d o) = Ok (x, BufferReader.mk d (o + 2)).
Proof.
  intros Hx H. pose proof (holds_length _ _ _ H ltac:(discriminate)) as L.
  simpl in L. unfold BufferReader.readU16BE, BufferReader.check.
  cbn [BufferReader.data BufferReader.offset].
  destruct (Nat.ltb_spec (length d) (o + 2)); [lia|].
  cbn [mbind result_bind].
  change (StaticWriter.u16be x) with ([(x / 256) mod 256] ++ [x mod 256]) in H.
  apply holds_app in H as [H1 H2]. simpl in H2.
  change BufferReader.byte with byte.
  rewrite (holds_byte _ _ _ _ H1), (holds_byte _ _ _ _ H2).
  do 2 f_equal. rewrite (Z.mod_small (x / 256)).
  - rewrite Z.mul_comm. symmetry. apply Z.div_mod. lia.
  - split; [apply Z.div_pos; lia | apply Z.div_lt_upper_bound; lia].
Qed.

Lemma readU32BE_holds d o (x : Z) :
  0 <= x < 4294967296 -> holds d o (StaticWriter.u32be x) ->
  BufferReader.readU32BE (BufferReader.mk d o) = Ok (x, BufferReader.mk d (o + 4)).
Proof.
  intros Hx H. pose proof (holds_length _ _ _ H ltac:(discriminate)) as L.
  simpl in L. unfold BufferReader.readU32BE, BufferReader.check.
  cbn [BufferReader.data BufferReader.offset].
  destruct (Nat.ltb_spec (length d) (o + 4)); [lia|].
  cbn [mbind result_bind].
  change (StaticWriter.u32be x)
    with ([(x / 16777216) mod 256] ++ [(x / 65536) mod 256]
            ++ [(x / 256) mod 256] ++ [x mod 256]) in H.
  apply holds_app in H as [H1 H]. apply holds_app in H as [H2 H].
  apply holds_app in H as [H3 H4]. simpl in H2, H3, H4.
  replace (o + 1 + 1)%nat with (o + 2)%nat in * by lia.
  replace (o + 2 + 1)%nat with (o + 3)%nat in * by lia.
  change BufferReader.byte with byte.
  rewrite (holds_byte _ _ _ _ H1), (holds_byte _ _ _ _ H2),
    (holds_byte _ _ _ _ H3), (holds_byte _ _ _ _ H4).
  do 2 f_equal.
  rewrite (Z.mod_small (x / 16777216))
    by (split; [apply Z.div_pos; lia | apply Z.div_lt_upper_bound; lia]).
  pose proof (Z.div_mod x 256 ltac:(lia)) as E1.
  pose proof (Z.div_mod (x / 256) 256 ltac:(lia)) as E2.
  pose proof (Z.div_mod (x / 256 / 256) 256 ltac:(lia)) as E3.
  rewrite !Z.div_div in E2, E3 by lia. rewrite Z.div_div in E3 by lia.
  change (256 * 256) with 65536 in *. change (65536 * 256) with 16777216 in *.
  lia.
Qed.

Lemma readNameBR_holds labels d o :
  valid_name labels -> holds d o (wire_name labels) ->
  readNameBR (BufferReader.mk d o)
  = Ok (presentation labels, BufferReader.mk d (o + length (wire_name labels))).
Proof.
  intros Hv H.
  assert (Hne : wire_name labels <> []).
  { unfold wire_name. destruct (wire_labels labels); discriminate. }
  pose proof (holds_length _ _ _ H Hne) as L.
  unfold readNameBR. cbn [BufferReader.data BufferReader.offset].
  pose proof (readName_wire labels (take o d)
                (drop (o + length (wire_name labels)) d) Hv) as R.
  rewrite <- (holds_split _ _ _ H) in R.
  rewrite length_take in R.
  replace (o `min` length d)%nat with o in R by lia.
  rewrite R. reflexivity.
Qed.

Lemma sizeName_wire_length_lemma labels cmp :
  valid_name labels ->
  (String.length (presentation labels) <= 254)%nat ->
  sizeName (presentation labels) None cmp
  = Ok (length (wire_name labels), None).
Proof.
  intros Hv Hp. unfold sizeName.
  rewrite (writeName_without_data _ _ _ (replicate 256 0)).
  - rewrite writeName_valid_name; [reflexivity | exact Hv | exact Hp |].
    destruct Hv as [_ Hv]. rewrite length_replicate. lia.
  - apply length_replicate.
  - destruct labels as [|l rest]; [reflexivity|].
    destruct (pres_codes_last (l :: rest)) as [X EX]; [discriminate|].
    unfold presentation. rewrite EX, string_of_codes_app.
    apply get_last_char_snoc.
Qed.

(** ** Questions *)

Lemma writer_parts (bw : StaticWriter.t) :
  (StaticWriter.offset bw <= length (StaticWriter.data bw))%nat ->
  bw = StaticWriter.mk
         (take (StaticWriter.offset bw) (StaticWriter.data bw)
            ++ drop (StaticWriter.offset bw) (StaticWriter.data bw))
         (length (take (StaticWriter.offset bw) (StaticWriter.data bw))).
Proof.
  intros H. destruct bw as [d o]. simpl in *.
  rewrite take_drop, length_take. f_equal. lia.
Qed.

(** X7. A question whose name satisfies the name invariants (and is at
    most 254 characters long in presentation form) and whose type and class
    are 16-bit numbers takes [getSize] octets: its name, type and class.
    [write] stores exactly these octets at the writer's offset, and [read]
    at that offset returns the question and stops behind it. *)
Theorem Question_write_read labels type class bw :
  valid_name labels ->
  (String.length (presentation labels) <= 254)%nat ->
  0 <= type < 65536 -> 0 <= class < 65536 ->
  (StaticWriter.offset bw + (length (wire_name labels) + 4)
   <= length (StaticWriter.data bw))%nat ->
  let q := mkQuestion (presentation labels) type class in
  let n := (length (wire_name labels) + 4)%nat in
  let off := StaticWriter.offset bw in
  let out :=
    take off (StaticWriter.data bw)
      ++ (wire_name labels ++ StaticWriter.u16be type ++ StaticWriter.u16be class)
      ++ drop (off + n) (StaticWriter.data bw) in
  Question_getSize q None = Ok (n, None)
  /\ Question_write q bw None = Ok (StaticWriter.mk out (off + n), None)
  /\ Question_read (BufferReader.mk out off)
     = Ok (q, BufferReader.mk out (off + n)).
Proof.
  intros Hv Hp Ht Hc Hroom q n off out.
  assert (Lw : (1 <= length (wire_name labels))%nat).
  { unfold wire_name. rewrite length_app. simpl. lia. }
  split; [|split].
  - unfold Question_getSize, q. cbn [q_name].
    rewrite sizeName_wire_length_lemma by assumption. reflexivity.
  - rewrite (writer_parts bw) by lia. fold off.
    set (P := take off (StaticWriter.data bw)).
    set (R := drop off (StaticWriter.data bw)).
    assert (LR : length R = (length (StaticWriter.data bw) - off)%nat)
      by apply length_drop.
    assert (LP : length P = off) by (unfold P; rewrite length_take; lia).
    unfold Question_write, q. cbn [q_name q_type q_class].
    rewrite writeNameBW_frame by (try assumption; lia).
    cbn [mbind result_bind].
    rewrite writeU16BE_frame by (rewrite length_drop; lia).
    cbn [mbind result_bind].
    rewrite writeU16BE_frame by (rewrite !length_drop; lia).
    cbn [mbind result_bind]. rewrite !drop_drop.
    do 2 f_equal. f_equal.
    + unfold out. rewrite <- !app_assoc. subst P R. rewrite drop_drop.
      reflexivity.
    + rewrite !length_app. simpl. unfold n. lia.
  - assert (Lo : length (take off (StaticWriter.data bw)) = off)
      by (rewrite length_take; lia).
    assert (H : holds out off
                  (wire_name labels ++ StaticWriter.u16be type
                     ++ StaticWriter.u16be class)).
    { pose proof (holds_middle (take off (StaticWriter.data bw))
                    (wire_name labels ++ StaticWriter.u16be type
                       ++ StaticWriter.u16be class)
                    (drop (off + n) (StaticWriter.data bw))) as M.
      rewrite Lo in M. exact M. }
    assert (Lout : length out = length (StaticWriter.data bw)).
    { unfold out. rewrite !length_app, Lo, length_drop. simpl. unfold n. lia. }
    apply holds_app in H as [Hn H]. apply holds_app in H as [Hty Hcl].
    unfold Question_read. rewrite (readNameBR_holds labels) by assumption.
    cbn [mbind result_bind]. unfold BufferReader.left.
    cbn [BufferReader.data BufferReader.offset].
    destruct (Nat.eqb_spec (length out - (off + length (wire_name labels))) 0);
      [lia|].
    rewrite (readU16BE_holds _ _ type) by assumption.
    cbn [mbind result_bind BufferReader.data BufferReader.offset].
    destruct (Nat.eqb_spec
                (length out - (off + length (wire_name labels) + 2)) 0); [lia|].
    simpl in Hcl.
    rewrite (readU16BE_holds _ _ class) by assumption.
    cbn [mbind result_bind]. do 3 f_equal. unfold n. lia.
Qed.

Lemma Question_write_read_witness :
  Question_write (mkQuestion "a.b." 1 1)
    (StaticWriter.mk (replicate 12 7) 2) None
  = Ok (StaticWriter.mk [7; 7; 1; 97; 1; 98; 0; 0; 1; 0; 1; 7] 11, None)
  /\ Question_read (BufferReader.mk [7; 7; 1; 97; 1; 98; 0; 0; 1; 0; 1; 7] 2)
     = Ok (mkQuestion "a.b." 1 1,
           BufferReader.mk [7; 7; 1; 97; 1; 98; 0; 0; 1; 0; 1; 7] 11).
Proof.
  apply (Question_write_read [[97]; [98]] 1 1 (StaticWriter.mk (replicate 12 7) 2)).
  - split; [repeat constructor; simpl; lia | simpl; lia].
  - simpl. lia.
  - lia.
  - lia.
  - simpl. lia.
Defined.

(** ** Records *)

Lemma holds_take d o (v : list Z) :
  holds d o v -> holds (take (o + length v) d) o v.
Proof.
  unfold holds. intros H. rewrite <- take_drop_commute, take_take.
  replace (length v `min` length v)%nat with (length v) by lia. exact H.
Qed.

Lemma holds_at (P v Q : list Z) o :
  o = length P -> holds (P ++ v ++ Q) o v.
Proof. intros ->. apply holds_middle. Qed.

Lemma read_switch_opaque type cbr :
  type <> types.CNAME -> type <> types.SIG -> type <> types.OPT ->
  type <> types.TSIG -> type ∉ typed_records ->
  read_switch type cbr = UNKNOWNRecord_read cbr.
Proof.
  intros H1 H2 H3 H4 H5. unfold read_switch.
  destruct (Z.eqb_spec type types.CNAME); [contradiction|].
  destruct (Z.eqb_spec type types.SIG); [contradiction|].
  destruct (Z.eqb_spec type types.OPT); [contradiction|].
  destruct (Z.eqb_spec type types.TSIG); [contradiction|].
  rewrite bool_decide_eq_false_2 by exact H5. reflexivity.
Qed.

(** The header of a record, as [Record.write] stores it before the
    payload. *)
Lemma Record_write_frame labels type class ttl rd (P R : list Z) dsz :
  valid_name labels ->
  (String.length (presentation labels) <= 254)%nat ->
  RecordData_getSize rd None = Ok (dsz, None) ->
  (length (wire_name labels) + 10 <= length R)%nat ->
  let hdr := wire_name labels ++ StaticWriter.u16be type
               ++ StaticWriter.u16be class ++ StaticWriter.u32be ttl
               ++ StaticWriter.u16be (Z.of_nat dsz) in
  Record_write (mkRecord (presentation labels) type class ttl rd)
    (StaticWriter.mk (P ++ R) (length P)) None
  = RecordData_write rd
      (StaticWriter.mk ((P ++ hdr) ++ drop (length hdr) R) (length (P ++ hdr)))
      None.
Proof.
  intros Hv Hp Hsz HR hdr. unfold Record_write.
  cbn [rr_name rr_type rr_class rr_ttl rr_data].
  rewrite writeNameBW_frame by (try assumption; lia).
  cbn [mbind result_bind].
  rewrite writeU16BE_frame by (rewrite length_drop; lia).
  cbn [mbind result_bind].
  rewrite writeU16BE_frame by (rewrite !length_drop; lia).
  cbn [mbind result_bind].
  rewrite writeU32BE_frame by (rewrite !length_drop; lia).
  cbn [mbind result_bind]. rewrite Hsz. cbn [mbind result_bind].
  rewrite writeU16BE_frame by (rewrite !length_drop; lia).
  cbn [mbind result_bind]. rewrite !drop_drop. f_equal. f_equal.
  - unfold hdr. rewrite <- !app_assoc. do 6 f_equal. f_equal.
    rewrite !length_app. simpl. lia.
  - unfold hdr. rewrite <- !app_assoc. reflexivity.
Qed.

(** The header of a record, as [Record.read] reads it, up to the payload
    of [dsz] octets. *)
Lemma Record_read_frame labels type class ttl dsz d o :
  valid_name labels ->
  0 <= type < 65536 -> 0 <= class < 65536 -> 0 <= ttl < 4294967296 ->
  Z.of_nat dsz < 65536 ->
  let hdr := wire_name labels ++ StaticWriter.u16be type
               ++ StaticWriter.u16be class ++ StaticWriter.u32be ttl
               ++ StaticWriter.u16be (Z.of_nat dsz) in
  holds d o hdr ->
  (o + length hdr + dsz <= length d)%nat ->
  Record_read (BufferReader.mk d o)
  = ('(rd, cbr) ← read_switch type
                    (BufferReader.mk (take (o + length hdr + dsz) d)
                       (o + length hdr));
     Ok (mkRecord (presentation labels) type class ttl rd,
         BufferReader.mk d (BufferReader.offset cbr))).
Proof.
  intros Hv Ht Hc Htt Hd hdr H Hlen.
  assert (Lh : length hdr = (length (wire_name labels) + 10)%nat).
  { unfold hdr. rewrite !length_app. simpl. lia. }
  unfold hdr in H. apply holds_app in H as [Hn H].
  apply holds_app in H as [Hty H]. apply holds_app in H as [Hcl H].
  apply holds_app in H as [Htl Hsz]. simpl in Hcl, Htl, Hsz.
  unfold Record_read. rewrite (readNameBR_holds labels) by assumption.
  cbn [mbind result_bind].
  rewrite (readU16BE_holds _ _ type) by assumption. cbn [mbind result_bind].
  rewrite (readU16BE_holds _ _ class) by assumption. cbn [mbind result_bind].
  rewrite (readU32BE_holds _ _ ttl) by assumption. cbn [mbind result_bind].
  unfold read.
  rewrite (readU16BE_holds _ _ (Z.of_nat dsz)) by (try assumption; lia).
  cbn [mbind result_bind BufferReader.data BufferReader.offset].
  rewrite Nat2Z.id.
  replace (o + length (wire_name labels) + 2 + 2 + 4 + 2)%nat
    with (o + length hdr)%nat by lia.
  destruct (Nat.leb_spec (o + length hdr + dsz) (length d)); [|lia].
  cbn [assert mbind result_bind].
  destruct (read_switch _ _) as [[rd cbr]|e]; reflexivity.
Qed.

(** X8. A record whose payload is kept as opaque octets (a type without
    a registered parser) and whose fields fit their wire fields takes
    [getSize] octets; [write] stores its name, type, class, TTL, the payload
    length and the payload at the writer's offset, and [read] at that offset
    returns the record and stops behind the payload. *)
Theorem Record_write_read_unknown labels type class ttl payload bw :
  valid_name labels ->
  (String.length (presentation labels) <= 254)%nat ->
  0 <= type < 65536 -> 0 <= class < 65536 -> 0 <= ttl < 4294967296 ->
  Z.of_nat (length payload) < 65536 ->
  type <> types.CNAME -> type <> types.SIG -> type <> types.OPT ->
  type <> types.TSIG -> type ∉ typed_records ->
  let rr := mkRecord (presentation labels) type class ttl (UNKNOWNRecord payload) in
  let n := (length (wire_name labels) + 10 + length payload)%nat in
  let off := StaticWriter.offset bw in
  (off + n <= length (StaticWriter.data bw))%nat ->
  let out :=
    take off (StaticWriter.data bw)
      ++ (wire_name labels ++ StaticWriter.u16be type
            ++ StaticWriter.u16be class ++ StaticWriter.u32be ttl
            ++ StaticWriter.u16be (Z.of_nat (length payload)) ++ payload)
      ++ drop (off + n) (StaticWriter.data bw) in
  Record_getSize rr None = Ok (n, None)
  /\ Record_write rr bw None = Ok (StaticWriter.mk out (off + n), None)
  /\ Record_read (BufferReader.mk out off) = Ok (rr, BufferReader.mk out (off + n)).
Proof.
  intros Hv Hp Ht Hc Htt Hpl T1 T2 T3 T4 T5 rr n off Hroom out.
  set (hdr := wire_name labels ++ StaticWriter.u16be type
               ++ StaticWriter.u16be class ++ StaticWriter.u32be ttl
               ++ StaticWriter.u16be (Z.of_nat (length payload))).
  assert (Lh : length hdr = (length (wire_name labels) + 10)%nat).
  { unfold hdr. rewrite !length_app. simpl. lia. }
  assert (Lo : length (take off (StaticWriter.data bw)) = off)
    by (rewrite length_take; lia).
  assert (Eout : out = take off (StaticWriter.data bw) ++ (hdr ++ payload)
                       ++ drop (off + n) (StaticWriter.data bw)).
  { unfold out, hdr. rewrite <- !app_assoc. reflexivity. }
  split; [|split].
  - unfold Record_getSize, rr. cbn [rr_name rr_data RecordData_getSize].
    rewrite sizeName_wire_length_lemma by assumption. reflexivity.
  - rewrite (writer_parts bw) by lia. fold off.
    set (P := take off (StaticWriter.data bw)) in *.
    set (R := drop off (StaticWriter.data bw)).
    assert (LR : length R = (length (StaticWriter.data bw) - off)%nat)
      by apply length_drop.
    unfold rr. rewrite (Record_write_frame labels type class ttl _ P R
                          (length payload)); [|assumption..|reflexivity|lia].
    fold hdr. cbn [RecordData_write].
    rewrite writeBytes_frame by (rewrite length_drop; lia).
    cbn [mbind result_bind]. rewrite drop_drop. do 2 f_equal. f_equal.
    + rewrite Eout, <- !app_assoc. do 3 f_equal. unfold R.
      rewrite drop_drop. f_equal. unfold n. lia.
    + rewrite !length_app. unfold n. lia.
  - assert (H : holds out off (hdr ++ payload)).
    { rewrite Eout. apply holds_at. symmetry. exact Lo. }
    assert (Lout : length out = length (StaticWriter.data bw)).
    { rewrite Eout, !length_app, Lo, length_drop. unfold n. lia. }
    apply holds_app in H as [Hh Hpay].
    unfold rr. rewrite (Record_read_frame labels type class ttl (length payload));
      [|assumption..|fold hdr; lia].
    fold hdr. rewrite read_switch_opaque by assumption.
    unfold UNKNOWNRecord_read, BufferReader.left.
    cbn [BufferReader.data BufferReader.offset].
    rewrite length_take.
    replace ((off + length hdr + length payload) `min` length out
             - (off + length hdr))%nat with (length payload) by lia.
    rewrite (readBytes_holds _ _ payload).
    + cbn [mbind result_bind BufferReader.offset]. do 3 f_equal. unfold n. lia.
    + apply holds_take. exact Hpay.
    + rewrite length_take. lia.
Qed.

Lemma Record_write_read_unknown_witness :
  Record_write (mkRecord "a." 65280 1 60 (UNKNOWNRecord [8; 9]))
    (StaticWriter.mk (replicate 17 7) 1) None
  = Ok (StaticWriter.mk
          [7; 1; 97; 0; 255; 0; 0; 1; 0; 0; 0; 60; 0; 2; 8; 9; 7] 16, None)
  /\ Record_read
       (BufferReader.mk [7; 1; 97; 0; 255; 0; 0; 1; 0; 0; 0; 60; 0; 2; 8; 9; 7] 1)
     = Ok (mkRecord "a." 65280 1 60 (UNKNOWNRecord [8; 9]),
           BufferReader.mk
             [7; 1; 97; 0; 255; 0; 0; 1; 0; 0; 0; 60; 0; 2; 8; 9; 7] 16).
Proof.
  apply (Record_write_read_unknown [[97]] 65280 1 60 [8; 9]
           (StaticWriter.mk (replicate 17 7) 1)).
  - split; [repeat constructor; simpl; lia | simpl; lia].
  - simpl. lia.
  - lia.
  - lia.
  - lia.
  - simpl. lia.
  - discriminate.
  - discriminate.
  - discriminate.
  - discriminate.
  - apply (bool_decide_unpack (65280 ∉ typed_records)). vm_compute. exact I.
  - simpl. lia.
Defined.

(** X9. A CNAME record whose owner name and target satisfy the name
    invariants takes [getSize] octets; [write] stores its name, type,
    class, TTL, the length of the target's wire form and that wire form, and
    [read] at that offset returns the record and stops behind the target. *)
Theorem Record_write_read_cname labels target class ttl bw :
  valid_name labels ->
  (String.length (presentation labels) <= 254)%nat ->
  valid_name target ->
  (String.length (presentation target) <= 254)%nat ->
  0 <= class < 65536 -> 0 <= ttl < 4294967296 ->
  let rr := mkRecord (presentation labels) types.CNAME class ttl
              (CNAMERecord (presentation target)) in
  let n := (length (wire_name labels) + 10 + length (wire_name target))%nat in
  let off := StaticWriter.offset bw in
  (off + n <= length (StaticWriter.data bw))%nat ->
  let out :=
    take off (StaticWriter.data bw)
      ++ (wire_name labels ++ StaticWriter.u16be types.CNAME
            ++ StaticWriter.u16be class ++ StaticWriter.u32be ttl
            ++ StaticWriter.u16be (Z.of_nat (length (wire_name target)))
            ++ wire_name target)
      ++ drop (off + n) (StaticWriter.data bw) in
  Record_getSize rr None = Ok (n, None)
  /\ Record_write rr bw None = Ok (StaticWriter.mk out (off + n), None)
  /\ Record_read (BufferReader.mk out off) = Ok (rr, BufferReader.mk out (off + n)).
Proof.
  intros Hv Hp Hvt Hpt Hc Htt rr n off Hroom out.
  set (hdr := wire_name labels ++ StaticWriter.u16be types.CNAME
               ++ StaticWriter.u16be class ++ StaticWriter.u32be ttl
               ++ StaticWriter.u16be (Z.of_nat (length (wire_name target)))).
  assert (Lh : length hdr = (length (wire_name labels) + 10)%nat).
  { unfold hdr. rewrite !length_app. simpl. lia. }
  assert (Lo : length (take off (StaticWriter.data bw)) = off)
    by (rewrite length_take; lia).
  assert (Eout : out = take off (StaticWriter.data bw)
                         ++ (hdr ++ wire_name target)
                         ++ drop (off + n) (StaticWriter.data bw)).
  { unfold out, hdr. rewrite <- !app_assoc. reflexivity. }
  assert (Lt : Z.of_nat (length (wire_name target)) < 65536).
  { destruct Hvt as [_ Hvt]. lia. }
  assert (Esz : RecordData_getSize (CNAMERecord (presentation target)) None
                = Ok (length (wire_name target), None)).
  { cbn [RecordData_getSize]. apply sizeName_wire_length_lemma; assumption. }
  split; [|split].
  - unfold Record_getSize, rr. cbn [rr_name rr_data].
    rewrite sizeName_wire_length_lemma by assumption.
    cbn [mbind result_bind]. rewrite Esz. reflexivity.
  - rewrite (writer_parts bw) by lia. fold off.
    set (P := take off (StaticWriter.data bw)) in *.
    set (R := drop off (StaticWriter.data bw)).
    assert (LR : length R = (length (StaticWriter.data bw) - off)%nat)
      by apply length_drop.
    unfold rr. rewrite (Record_write_frame labels types.CNAME class ttl _ P R
                          (length (wire_name target)));
      [|assumption..|lia].
    fold hdr. cbn [RecordData_write].
    rewrite writeNameBW_frame by (try assumption; rewrite length_drop; lia).
    cbn [mbind result_bind]. rewrite drop_drop. do 2 f_equal. f_equal.
    + rewrite Eout, <- !app_assoc. do 3 f_equal. unfold R.
      rewrite drop_drop. f_equal. unfold n. lia.
    + rewrite !length_app. unfold n. lia.
  - assert (H : holds out off (hdr ++ wire_name target)).
    { rewrite Eout. apply holds_at. symmetry. exact Lo. }
    assert (Lout : length out = length (StaticWriter.data bw)).
    { rewrite Eout, !length_app, Lo, length_drop. unfold n. lia. }
    apply holds_app in H as [Hh Hpay].
    unfold rr.
    rewrite (Record_read_frame labels types.CNAME class ttl
               (length (wire_name target)));
      [|try assumption; try (unfold types.CNAME; lia)..|fold hdr; lia].
    fold hdr. unfold read_switch. change (types.CNAME =? types.CNAME) with true.
    cbn iota. unfold CNAMERecord_read.
    rewrite (readNameBR_holds target).
    + cbn [mbind result_bind BufferReader.offset]. do 3 f_equal. unfold n. lia.
    + exact Hvt.
    + apply holds_take. exact Hpay.
Qed.

Lemma Record_write_read_cname_witness :
  Record_write (mkRecord "a." types.CNAME 1 60 (CNAMERecord "b.c."))
    (StaticWriter.mk (replicate 19 7) 1) None
  = Ok (StaticWriter.mk
          [7; 1; 97; 0; 0; 5; 0; 1; 0; 0; 0; 60; 0; 5; 1; 98; 1; 99; 0] 19,
        None)
  /\ Record_read
       (BufferReader.mk
          [7; 1; 97; 0; 0; 5; 0; 1; 0; 0; 0; 60; 0; 5; 1; 98; 1; 99; 0] 1)
     = Ok (mkRecord "a." types.CNAME 1 60 (CNAMERecord "b.c."),
           BufferReader.mk
             [7; 1; 97; 0; 0; 5; 0; 1; 0; 0; 0; 60; 0; 5; 1; 98; 1; 99; 0] 19).
Proof.
  apply (Record_write_read_cname [[97]] [[98]; [99]] 1 60
           (StaticWriter.mk (replicate 19 7) 1)).
  - split; [repeat constructor; simpl; lia | simpl; lia].
  - simpl. lia.
  - split; [repeat constructor; simpl; lia | simpl; lia].
  - simpl. lia.
  - lia.
  - lia.
  - simpl. lia.
Defined.

(** ** The compression map when compression is off

    Every caller of [sizeName] and [writeNameBW] in [lib/wire.js] leaves
    [cmp] out, so the map is filled but never consulted for a pointer. *)

Lemma writeName_body_without_map len i s :
  writeName_body len false i (without_map s)
  = result_map ctl_without_map (writeName_body len false i s).
Proof.
  destruct s as [n nl name off data map pos ptr begin fresh esc lab].
  unfold writeName_body, without_map. cbn [w_n w_nl w_name w_off w_data w_map
    w_pos w_ptr w_begin w_fresh w_escaped w_labels].
  destruct (byte n i =? 0x5c).
  { unfold writeName_escape. cbn [w_n w_nl w_name w_off w_data w_map
      w_pos w_ptr w_begin w_fresh w_escaped w_labels].
    destruct (len <? off + 1)%nat; [reflexivity|].
    destruct (_ && _ && _ && _); reflexivity. }
  destruct (byte n i =? 0x2e); [|reflexivity].
  unfold writeName_dot. cbn [w_n w_nl w_name w_off w_data w_map
      w_pos w_ptr w_begin w_fresh w_escaped w_labels].
  destruct (_ && _ && _); [reflexivity|].
  destruct (64 <=? i - begin)%nat; [reflexivity|].
  destruct (len <? off + 1)%nat; [reflexivity|].
  destruct (copy_label len n _ (off + 1) begin (i - begin))
    as [[data' off']|e]; [|reflexivity].
  cbn [mbind result_bind andb].
  destruct map as [m|]; [|reflexivity].
  destruct (String.eqb _ "."); [reflexivity|].
  destruct (m !! _); [reflexivity|].
  destruct (_ <? _); reflexivity.
Qed.

Lemma writeName_loop_without_map len : forall fuel i s,
  writeName_loop fuel len false i (without_map s)
  = result_map without_map (writeName_loop fuel len false i s).
Proof.
  induction fuel as [|f IH]; intros i s.
  - cbn [writeName_loop]. change (w_nl (without_map s)) with (w_nl s).
    destruct (i <? w_nl s)%nat; reflexivity.
  - cbn [writeName_loop]. change (w_nl (without_map s)) with (w_nl s).
    destruct (i <? w_nl s)%nat; [|reflexivity].
    rewrite writeName_body_without_map.
    destruct (writeName_body len false i s) as [c|e]; [|reflexivity].
    cbn [result_map mbind result_bind].
    destruct c as [s1|s1]; cbn [ctl_without_map]; [apply IH | reflexivity].
Qed.

Lemma writeName_without_map_None data name off map :
  forget_map (writeName data name off map false)
  = forget_map (writeName data name off None false).
Proof.
  unfold writeName.
  destruct (Nat.leb_spec (String.length name) 254); [|reflexivity].
  cbn [assert mbind result_bind].
  destruct (Nat.eqb_spec (String.length name) 0); [reflexivity|].
  set (len := match data with Some d => length d | None => 256%nat end).
  set (r := match data with Some _ => _ | None => _ end).
  destruct r as [[name1 nl1]|e]; [|reflexivity].
  cbn [mbind result_bind].
  destruct (negb (length (bytes_of_string name1) =? nl1)%nat); [reflexivity|].
  pose proof (writeName_loop_without_map len nl1 0
                (mkw (bytes_of_string name1) nl1 name1 off data map (-1) (-1)
                   0 true false 0)) as E.
  unfold without_map in E at 1.
  cbn [w_n w_nl w_name w_off w_data w_map w_pos w_ptr w_begin w_fresh
       w_escaped w_labels] in E.
  rewrite E. clear E.
  destruct (writeName_loop _ _ _ _ (mkw _ _ _ _ _ map _ _ _ _ _ _)) as [s|e];
    [|reflexivity].
  cbn [result_map mbind result_bind].
  change (w_n (without_map s)) with (w_n s).
  change (w_off (without_map s)) with (w_off s).
  change (w_labels (without_map s)) with (w_labels s).
  change (w_ptr (without_map s)) with (w_ptr s).
  change (w_pos (without_map s)) with (w_pos s).
  change (w_data (without_map s)) with (w_data s).
  destruct (_ && _); [reflexivity|].
  destruct (negb (w_ptr s =? -1)); [reflexivity|].
  destruct (w_off s <? len)%nat; reflexivity.
Qed.

Lemma writeName_without_map data name off map map' :
  forget_map (writeName data name off map false)
  = forget_map (writeName data name off map' false).
Proof.
  rewrite (writeName_without_map_None _ _ _ map),
    (writeName_without_map_None _ _ _ map'). reflexivity.
Qed.

Lemma sizeName_without_map name map map' :
  forget_map (sizeName name map false) = forget_map (sizeName name map' false).
Proof.
  unfold sizeName.
  pose proof (writeName_without_map None name 0 map map') as E.
  destruct (writeName None name 0 map false) as [[[r d] m]|e],
    (writeName None name 0 map' false) as [[[r' d'] m']|e'];
    cbn in E |- *; try discriminate.
  - injection E as <- _. destruct r; reflexivity.
  - injection E as <-. reflexivity.
Qed.

Lemma writeNameBW_without_map bw name map map' :
  forget_map (writeNameBW bw name map false)
  = forget_map (writeNameBW bw name map' false).
Proof.
  unfold writeNameBW.
  pose proof (writeName_without_map (Some (StaticWriter.data bw)) name
                (StaticWriter.offset bw) map map') as E.
  destruct (writeName _ name _ map false) as [[[r d] m]|e],
    (writeName _ name _ map' false) as [[[r' d'] m']|e'];
    cbn in E |- *; try discriminate.
  - injection E as <- <-. destruct r; reflexivity.
  - injection E as <-. reflexivity.
Qed.

(** One step of a proof that a result does not depend on the map: the two
    sides start with the same call, up to the map, and [E] says that its
    results agree. *)
Ltac forget_with E :=
  let H := fresh "H" in
  pose proof E as H;
  match goal with
  | |- forget_map (?f ≫= _) = forget_map (?g ≫= _) =>
      destruct f as [[? ?]|?], g as [[? ?]|?];
      cbn [forget_map result_map fst] in H; try discriminate H;
      [injection H as <- | injection H as <-; reflexivity];
      cbn [mbind result_bind]
  end.

(** The same for a call that takes no map. *)
Ltac forget_same :=
  match goal with
  | |- forget_map (?f ≫= _) = forget_map (?f ≫= _) =>
      destruct f as [?|?]; [|reflexivity]; cbn [mbind result_bind]
  end.

Ltac forget_pair :=
  match goal with
  | |- forget_map (let '(_, _) := ?p in _) = _ => destruct p
  end.

Ltac forget_name :=
  match goal with
  | |- forget_map (sizeName ?n ?m false ≫= _)
       = forget_map (sizeName ?n ?m' false ≫= _) =>
      forget_with (sizeName_without_map n m m')
  | |- forget_map (writeNameBW ?bw ?n ?m false ≫= _)
       = forget_map (writeNameBW ?bw ?n ?m' false ≫= _) =>
      forget_with (writeNameBW_without_map bw n m m'); forget_pair
  end.

Lemma RecordData_getSize_without_map rd map map' :
  forget_map (RecordData_getSize rd map)
  = forget_map (RecordData_getSize rd map').
Proof.
  destruct rd; cbn [RecordData_getSize]; try reflexivity.
  - apply sizeName_without_map.
  - forget_name. reflexivity.
  - forget_name. reflexivity.
Qed.

Lemma RecordData_write_without_map rd bw map map' :
  forget_map (RecordData_write rd bw map)
  = forget_map (RecordData_write rd bw map').
Proof.
  destruct rd; cbn [RecordData_write]; try reflexivity.
  - forget_same. reflexivity.
  - forget_name. reflexivity.
  - forget_same. reflexivity.
  - do 7 forget_same. forget_name. forget_same. reflexivity.
  - forget_name. do 9 forget_same. reflexivity.
Qed.

Lemma Question_getSize_without_map qs map map' :
  forget_map (Question_getSize qs map) = forget_map (Question_getSize qs map').
Proof. unfold Question_getSize. forget_name. reflexivity. Qed.

Lemma Question_write_without_map qs bw map map' :
  forget_map (Question_write qs bw map)
  = forget_map (Question_write qs bw map').
Proof.
  unfold Question_write. forget_name. do 2 forget_same. reflexivity.
Qed.

Ltac forget_call L :=
  match goal with
  | |- forget_map (?f ≫= _) = forget_map (?g ≫= _) =>
      let E := fresh "E" in
      assert (E : forget_map f = forget_map g) by apply L;
      forget_with E; clear E
  end.

Lemma Record_getSize_without_map rr map map' :
  forget_map (Record_getSize rr map) = forget_map (Record_getSize rr map').
Proof.
  unfold Record_getSize. forget_name.
  forget_call RecordData_getSize_without_map. reflexivity.
Qed.

Lemma Record_write_without_map rr bw map map' :
  forget_map (Record_write rr bw map) = forget_map (Record_write rr bw map').
Proof.
  unfold Record_write. forget_name. do 3 forget_same.
  forget_call RecordData_getSize_without_map. forget_same.
  apply RecordData_write_without_map.
Qed.

Lemma size_questions_without_map qs : forall size map map',
  forget_map (size_questions qs size map)
  = forget_map (size_questions qs size map').
Proof.
  induction qs as [|q rest IH]; intros size map map'; [reflexivity|].
  cbn [size_questions]. forget_call Question_getSize_without_map.
  apply IH.
Qed.

Lemma write_questions_without_map qs : forall bw map map',
  forget_map (write_questions qs bw map)
  = forget_map (write_questions qs bw map').
Proof.
  induction qs as [|q rest IH]; intros bw map map'; [reflexivity|].
  cbn [write_questions]. forget_call Question_write_without_map.
  apply IH.
Qed.

Lemma size_records_without_map udp max over rrs : forall size items map map',
  result_map sizes_without_map (size_records udp max rrs size items map over)
  = result_map sizes_without_map (size_records udp max rrs size items map' over).
Proof.
  induction rrs as [|rr rest IH]; intros size items map map'; [reflexivity|].
  cbn [size_records].
  pose proof (Record_getSize_without_map rr map map') as H.
  destruct (Record_getSize rr map) as [[sz m]|e],
    (Record_getSize rr map') as [[sz' m']|e'];
    cbn [forget_map result_map fst] in H; try discriminate H;
    [injection H as <- | injection H as <-; reflexivity].
  cbn [mbind result_bind]. destruct (udp && _); [reflexivity | apply IH].
Qed.

Lemma write_records_without_map rrs : forall bw items map map',
  result_map wflow_without_map (write_records rrs bw items map)
  = result_map wflow_without_map (write_records rrs bw items map').
Proof.
  induction rrs as [|rr rest IH]; intros bw items map map'; [reflexivity|].
  cbn [write_records].
  pose proof (Record_write_without_map rr bw map map') as H.
  destruct (Record_write rr bw map) as [[bw1 m]|e],
    (Record_write rr bw map') as [[bw1' m']|e'];
    cbn [forget_map result_map fst] in H; try discriminate H;
    [injection H as <- | injection H as <-; reflexivity].
  cbn [mbind result_bind]. destruct (items - 1 =? 0); [reflexivity | apply IH].
Qed.

Ltac forget_sizes :=
  match goal with
  | |- forget_map (size_records ?u ?mx ?rrs ?s ?i ?m ?ov ≫= _)
       = forget_map (size_records ?u ?mx ?rrs ?s ?i ?m' ?ov ≫= _) =>
      let H := fresh "H" in
      pose proof (size_records_without_map u mx ov rrs s i m m') as H;
      destruct (size_records u mx rrs s i m ov) as [[? ? ?|? ?]|?],
        (size_records u mx rrs s i m' ov) as [[? ? ?|? ?]|?];
      cbn [result_map sizes_without_map] in H; try discriminate H;
      [injection H as <- <- | injection H as <- <-; reflexivity
      | injection H as <-; reflexivity];
      cbn [mbind result_bind]
  end.

Lemma getSizes_without_map m udp map map' :
  forget_map (getSizes m udp map) = forget_map (getSizes m udp map').
Proof.
  unfold getSizes. cbn zeta.
  forget_call size_questions_without_map. forget_same.
  do 6 forget_sizes. reflexivity.
Qed.

Ltac forget_writes :=
  match goal with
  | |- forget_map (write_records ?rrs ?bw ?i ?m ≫= _)
       = forget_map (write_records ?rrs ?bw ?i ?m' ≫= _) =>
      let H := fresh "H" in
      pose proof (write_records_without_map rrs bw i m m') as H;
      destruct (write_records rrs bw i m) as [[? ?|? ? ?]|?],
        (write_records rrs bw i m') as [[? ?|? ? ?]|?];
      cbn [result_map wflow_without_map] in H; try discriminate H;
      [injection H as <-; reflexivity | injection H as <- <-
      | injection H as <-; reflexivity];
      cbn [mbind result_bind]
  end.

Lemma Message_write_without_map m bw items map map' :
  forget_map (Message_write m bw items map)
  = forget_map (Message_write m bw items map').
Proof.
  unfold Message_write. cbn zeta. forget_same.
  forget_call write_questions_without_map.
  do 6 forget_writes. reflexivity.
Qed.

(** X10. [compress] returns what [encode] returns: the octets and the
    receiver as [write] left it, or the same error.  The size pass and the
    write pass fill the map, but every name is written with compression off,
    so no pointer is ever emitted. *)
Theorem compress_is_encode m udp : compress m udp = encode m udp.
Proof.
  unfold compress, encode.
  pose proof (getSizes_without_map m udp (Some ∅) None) as H.
  destruct (getSizes m udp (Some ∅)) as [[[sz it] mp]|e],
    (getSizes m udp None) as [[[sz' it'] mp']|e'];
    cbn [forget_map result_map fst] in H; try discriminate H;
    [injection H as <- <- | injection H as <-; reflexivity].
  cbn [mbind result_bind].
  pose proof (Message_write_without_map m (StaticWriter.write sz) it
                (Some ∅) None) as H.
  destruct (Message_write m (StaticWriter.write sz) it (Some ∅))
    as [[[m1 bw1] mp1]|e],
    (Message_write m (StaticWriter.write sz) it None) as [[[m2 bw2] mp2]|e'];
    cbn [forget_map result_map fst] in H; try discriminate H;
    [injection H as <- <- | injection H as <-; reflexivity].
  reflexivity.
Qed.

(** ** The OPT pseudo-record *)

Lemma land_shiftl_small a k b :
  0 <= k -> 0 <= b < 2 ^ k -> Z.land (Z.shiftl a k) b = 0.
Proof.
  intros Hk Hb. apply Z.bits_inj'. intros n Hn.
  rewrite Z.land_spec, Z.bits_0. destruct (Z.lt_ge_cases n k).
  - rewrite Z.shiftl_spec_low by lia. reflexivity.
  - assert (Z.testbit b n = false) as ->; [|apply andb_false_r].
    destruct (Z.eq_dec b 0) as [->|]; [apply Z.bits_0|].
    apply Z.bits_above_log2; [lia|]. apply Z.log2_lt_pow2; [lia|].
    apply Z.lt_le_trans with (2 ^ k); [lia|].
    apply Z.pow_le_mono_r; lia.
Qed.

Lemma lor_shiftl_add a k b :
  0 <= k -> 0 <= b < 2 ^ k -> Z.lor (Z.shiftl a k) b = Z.shiftl a k + b.
Proof.
  intros Hk Hb. pose proof (land_shiftl_small a k b Hk Hb) as L.
  rewrite <- (Z.lxor_lor _ _ L). symmetry. apply Z.add_nocarry_lxor, L.
Qed.

Lemma land_ones_small x k : 0 <= k -> 0 <= x < 2 ^ k -> Z.land x (Z.ones k) = x.
Proof. intros Hk Hx. rewrite Z.land_ones by lia. apply Z.mod_small. lia. Qed.

(** The TTL word of the OPT record that [toRecord] builds. *)
Lemma EDNS_ttl_value c v f :
  0 <= c < 256 -> 0 <= v < 256 -> 0 <= f < 65536 ->
  js.ushr
    (js.or (js.or (js.or 0 (js.shl (js.and c 0xff) 24))
              (js.shl (js.and v 0xff) 16))
       (js.and f 0xffff)) 0
  = c * 16777216 + v * 65536 + f.
Proof.
  intros Hc Hv Hf.
  assert (Ec : js.and c 0xff = c).
  { unfold js.and, js.toInt32. rewrite !Z.mod_small by lia.
    replace (c + 2 ^ 31 - 2 ^ 31) with c by lia.
    apply (land_ones_small c 8); lia. }
  assert (Ev : js.and v 0xff = v).
  { unfold js.and, js.toInt32. rewrite !Z.mod_small by lia.
    replace (v + 2 ^ 31 - 2 ^ 31) with v by lia.
    apply (land_ones_small v 8); lia. }
  assert (Ef : js.and f 0xffff = f).
  { unfold js.and, js.toInt32. rewrite !Z.mod_small by lia.
    replace (f + 2 ^ 31 - 2 ^ 31) with f by lia.
    apply (land_ones_small f 16); lia. }
  rewrite Ec, Ev, Ef.
  set (c' := if c <? 128 then c else c - 256).
  assert (EC : js.shl c 24 = Z.shiftl c' 24).
  { unfold js.shl. change (24 mod 32) with 24. rewrite !Z.shiftl_mul_pow2 by lia.
    unfold js.toInt32. rewrite (Z.mod_small (c + 2 ^ 31)) by lia.
    replace (c + 2 ^ 31 - 2 ^ 31) with c by lia.
    subst c'. destruct (Z.ltb_spec c 128).
    - rewrite Z.mod_small by lia. lia.
    - replace (c * 2 ^ 24 + 2 ^ 31) with ((c * 2 ^ 24 - 2 ^ 31) + 1 * 2 ^ 32)
        by lia.
      rewrite Z.mod_add by lia. rewrite Z.mod_small by lia. lia. }
  assert (EV : js.shl v 16 = v * 65536).
  { unfold js.shl. change (16 mod 32) with 16. unfold js.toInt32.
    rewrite (Z.mod_small (v + 2 ^ 31)) by lia.
    replace (v + 2 ^ 31 - 2 ^ 31) with v by lia.
    rewrite Z.shiftl_mul_pow2 by lia. rewrite Z.mod_small by lia. lia. }
  rewrite EC, EV.
  assert (Bc : -128 <= c' < 128) by (subst c'; destruct (c <? 128) eqn:E;
    [apply Z.ltb_lt in E | apply Z.ltb_ge in E]; lia).
  assert (I32 : forall x, - 2 ^ 31 <= x < 2 ^ 31 -> js.toInt32 x = x).
  { intros x Hx. unfold js.toInt32. rewrite Z.mod_small by lia. lia. }
  assert (E1 : js.or 0 (Z.shiftl c' 24) = Z.shiftl c' 24).
  { unfold js.or. rewrite !I32 by (rewrite ?Z.shiftl_mul_pow2; lia).
    apply Z.lor_0_l. }
  rewrite E1.
  assert (E2 : js.or (Z.shiftl c' 24) (v * 65536) = Z.shiftl (c' * 256 + v) 16).
  { unfold js.or. rewrite !I32 by (rewrite ?Z.shiftl_mul_pow2; lia).
    rewrite lor_shiftl_add by lia. rewrite !Z.shiftl_mul_pow2 by lia. lia. }
  rewrite E2.
  assert (E3 : js.or (Z.shiftl (c' * 256 + v) 16) f
               = Z.shiftl (c' * 256 + v) 16 + f).
  { unfold js.or. rewrite !I32 by (rewrite ?Z.shiftl_mul_pow2; lia).
    apply lor_shiftl_add; lia. }
  rewrite E3. unfold js.ushr, js.toUint32. change (0 mod 32) with 0.
  rewrite Z.shiftr_0_r, Z.shiftl_mul_pow2 by lia.
  subst c'. destruct (Z.ltb_spec c 128).
  - rewrite Z.mod_small by lia. lia.
  - replace ((((c - 256) * 256 + v) * 2 ^ 16) + f)
      with ((c * 16777216 + v * 65536 + f) + (-1) * 2 ^ 32) by lia.
    rewrite Z.mod_add by lia. apply Z.mod_small. lia.
Qed.

(** What [setRecord] reads back from that word. *)
Lemma EDNS_ttl_fields c v f :
  0 <= c < 256 -> 0 <= v < 256 -> 0 <= f < 65536 ->
  let ttl := c * 16777216 + v * 65536 + f in
  js.and (js.ushr ttl 24) 0xff = c
  /\ js.and (js.ushr ttl 16) 0xff = v
  /\ js.and ttl 0xffff = f.
Proof.
  intros Hc Hv Hf ttl.
  assert (Ht : 0 <= ttl < 2 ^ 32) by (subst ttl; lia).
  assert (I32 : forall x, - 2 ^ 31 <= x < 2 ^ 31 -> js.toInt32 x = x).
  { intros x Hx. unfold js.toInt32. rewrite Z.mod_small by lia. lia. }
  split; [|split].
  - unfold js.and, js.ushr, js.toUint32. change (24 mod 32) with 24.
    rewrite (Z.mod_small ttl) by lia. rewrite Z.shiftr_div_pow2 by lia.
    assert (E : ttl / 2 ^ 24 = c).
    { symmetry. apply (Z.div_unique ttl (2 ^ 24) c (v * 65536 + f)); [lia|].
      subst ttl. lia. }
    rewrite E, !I32 by lia. apply (land_ones_small c 8); lia.
  - unfold js.and, js.ushr, js.toUint32. change (16 mod 32) with 16.
    rewrite (Z.mod_small ttl) by lia. rewrite Z.shiftr_div_pow2 by lia.
    assert (E : ttl / 2 ^ 16 = c * 256 + v).
    { symmetry. apply (Z.div_unique ttl (2 ^ 16) (c * 256 + v) f); [lia|].
      subst ttl. lia. }
    rewrite E, !I32 by lia. change 0xff with (Z.ones 8).
    rewrite Z.land_ones by lia.
    symmetry. apply (Z.mod_unique (c * 256 + v) (2 ^ 8) c v); lia.
  - unfold js.and. rewrite (I32 0xffff) by lia. change 0xffff with (Z.ones 16).
    rewrite Z.land_ones by lia. unfold js.toInt32.
    set (y := (ttl + 2 ^ 31) mod 2 ^ 32).
    assert (Ey : exists q, y = ttl + 2 ^ 31 + q * 2 ^ 32).
    { exists (- ((ttl + 2 ^ 31) / 2 ^ 32)). subst y.
      rewrite Z.mod_eq by lia. lia. }
    destruct Ey as [q ->].
    replace (ttl + 2 ^ 31 + q * 2 ^ 32 - 2 ^ 31)
      with (f + (c * 256 + v + q * 65536) * 2 ^ 16) by (subst ttl; lia).
    rewrite Z.mod_add by lia. apply Z.mod_small. lia.
Qed.

(** X11. [setRecord] undoes [toRecord]: for an enabled EDNS state whose
    extended code and version fit in 8 bits and whose flags fit in 16, the
    OPT record that [toRecord] builds is the root name with type OPT, the UDP
    size as class and a TTL that packs code, version and flags, and
    [setRecord] on it gives the state back. *)
Theorem EDNS_toRecord_setRecord e :
  e_enabled e = true ->
  0 <= e_code e < 256 -> 0 <= e_version e < 256 -> 0 <= e_flags e < 65536 ->
  rr_name (EDNS_toRecord e) = "."
  /\ rr_type (EDNS_toRecord e) = types.OPT
  /\ rr_class (EDNS_toRecord e) = e_size e
  /\ rr_ttl (EDNS_toRecord e)
     = e_code e * 16777216 + e_version e * 65536 + e_flags e
  /\ EDNS_setRecord (EDNS_toRecord e) = Ok e.
Proof.
  intros He Hc Hv Hf.
  assert (Ettl : rr_ttl (EDNS_toRecord e)
                 = e_code e * 16777216 + e_version e * 65536 + e_flags e).
  { unfold EDNS_toRecord. cbn [rr_ttl]. apply EDNS_ttl_value; assumption. }
  repeat split; try reflexivity; try exact Ettl.
  unfold EDNS_setRecord. rewrite Ettl.
  destruct (EDNS_ttl_fields _ _ _ Hc Hv Hf) as (-> & -> & ->).
  unfold EDNS_toRecord.
  cbn [rr_type rr_data rr_class RecordData_options assert mbind result_bind].
  change (types.OPT =? types.OPT) with true. cbn [assert mbind result_bind].
  destruct e as [en sz c v f opts]. simpl in He. subst en.
  cbn [e_size e_options]. f_equal. f_equal.
  rewrite <- list_fmap_compose. apply list_fmap_id.
Qed.

Lemma EDNS_toRecord_setRecord_witness :
  EDNS_setRecord (EDNS_toRecord (mkEDNS true 4096 1 0 0x8000 [LOCALOption [1; 2]]))
  = Ok (mkEDNS true 4096 1 0 0x8000 [LOCALOption [1; 2]]).
Proof.
  apply (EDNS_toRecord_setRecord (mkEDNS true 4096 1 0 0x8000 [LOCALOption [1; 2]]));
    simpl; (reflexivity || lia).
Defined.

(** ** EDNS options *)

Lemma length_option_octets o :
  length (option_octets o) = Option_getSize o.
Proof.
  unfold option_octets, Option_getSize. rewrite !length_app. simpl length.
  destruct (o_option o); reflexivity.
Qed.

Lemma Option_write_frame o (P R : list Z) :
  (Option_getSize o <= length R)%nat ->
  Option_write o (StaticWriter.mk (P ++ R) (length P))
  = Ok (StaticWriter.mk ((P ++ option_octets o) ++ drop (Option_getSize o) R)
          (length (P ++ option_octets o))).
Proof.
  intros HR. unfold Option_write, Option_getSize in *.
  rewrite writeU16BE_frame by lia. cbn [mbind result_bind].
  rewrite writeU16BE_frame by (rewrite length_drop; lia).
  cbn [mbind result_bind].
  assert (E : OptionData_write (o_option o) = λ bw,
                StaticWriter.writeBytes bw (OptionData_data (o_option o))).
  { destruct (o_option o); reflexivity. }
  rewrite E.
  assert (L : length (OptionData_data (o_option o))
              = OptionData_getSize (o_option o)).
  { destruct (o_option o); reflexivity. }
  rewrite writeBytes_frame by (rewrite !length_drop, L; lia).
  rewrite !drop_drop, L. f_equal. f_equal.
  - unfold option_octets. rewrite <- !app_assoc. reflexivity.
  - unfold option_octets. rewrite <- !app_assoc. reflexivity.
Qed.

Lemma Option_read_holds o d off :
  plain_option o -> holds d off (option_octets o) ->
  Option_read (BufferReader.mk d off)
  = Ok (o, BufferReader.mk d (off + Option_getSize o)).
Proof.
  intros (Hc & Ht & Hs & Hl) H.
  pose proof (holds_length _ _ _ H) as L.
  rewrite length_option_octets in L. unfold Option_getSize in *.
  specialize (L ltac:(unfold option_octets; discriminate)).
  unfold option_octets in H. apply holds_app in H as [H1 H].
  apply holds_app in H as [H2 H3]. simpl in H2, H3.
  assert (Ld : length (OptionData_data (o_option o))
               = OptionData_getSize (o_option o)).
  { destruct (o_option o); reflexivity. }
  unfold Option_read. rewrite (readU16BE_holds _ _ (o_code o)) by assumption.
  cbn [mbind result_bind]. unfold readOption.
  rewrite (readU16BE_holds _ _ (Z.of_nat (OptionData_getSize (o_option o))))
    by (try assumption; lia).
  cbn [mbind result_bind BufferReader.data BufferReader.offset].
  rewrite Nat2Z.id.
  destruct (Nat.leb_spec (off + 2 + 2 + OptionData_getSize (o_option o))
              (length d)); [|lia].
  cbn [assert mbind result_bind].
  rewrite bool_decide_eq_false_2 by exact Ht.
  unfold BufferReader.left. cbn [BufferReader.data BufferReader.offset].
  rewrite length_take.
  replace ((off + 2 + 2 + OptionData_getSize (o_option o)) `min` length d
           - (off + 2 + 2))%nat
    with (length (OptionData_data (o_option o))) by lia.
  rewrite (readBytes_holds _ _ (OptionData_data (o_option o))).
  - cbn [mbind result_bind]. rewrite Hl.
    destruct o as [code [dd|dd]]; cbn; do 3 f_equal; lia.
  - rewrite <- Ld. apply holds_take. exact H3.
  - rewrite length_take. lia.
Qed.

(** X12. An EDNS option with an opaque payload takes [getSize] octets:
    code, payload length and payload.  [write] stores exactly these at the
    writer's offset, and [read] at that offset returns the option, as a
    [LOCALOption] for the codes 65001 to 65534, and stops behind it. *)
Theorem Option_write_read o bw :
  plain_option o ->
  let off := StaticWriter.offset bw in
  let n := Option_getSize o in
  (off + n <= length (StaticWriter.data bw))%nat ->
  let out := take off (StaticWriter.data bw) ++ option_octets o
               ++ drop (off + n) (StaticWriter.data bw) in
  Option_write o bw = Ok (StaticWriter.mk out (off + n))
  /\ Option_read (BufferReader.mk out off) = Ok (o, BufferReader.mk out (off + n)).
Proof.
  intros Hp off n Hroom out.
  assert (Lo : length (take off (StaticWriter.data bw)) = off)
    by (rewrite length_take; lia).
  split.
  - rewrite (writer_parts bw) by lia. fold off.
    rewrite Option_write_frame by (rewrite length_drop; fold n; lia).
    f_equal. f_equal.
    + unfold out. rewrite <- app_assoc, drop_drop. reflexivity.
    + rewrite length_app, length_option_octets, Lo. reflexivity.
  - apply Option_read_holds; [exact Hp|].
    unfold out. apply holds_at. symmetry. exact Lo.
Qed.

Lemma Option_write_read_witness :
  Option_write (mkOption 65001 (LOCALOption [8; 9]))
    (StaticWriter.mk (replicate 8 7) 1)
  = Ok (StaticWriter.mk [7; 253; 233; 0; 2; 8; 9; 7] 7)
  /\ Option_read (BufferReader.mk [7; 253; 233; 0; 2; 8; 9; 7] 1)
     = Ok (mkOption 65001 (LOCALOption [8; 9]),
           BufferReader.mk [7; 253; 233; 0; 2; 8; 9; 7] 7).
Proof.
  apply (Option_write_read (mkOption 65001 (LOCALOption [8; 9]))
           (StaticWriter.mk (replicate 8 7) 1)).
  - unfold plain_option. cbn [o_code o_option OptionData_getSize length].
    split; [lia|]. split; [|split; [lia | reflexivity]].
    apply (bool_decide_unpack (65001 ∉ typed_options)). vm_compute. exact I.
  - vm_compute. lia.
Defined.

(** ** The OPT record on the wire *)

Lemma options_octets_cons o opts :
  options_octets (o :: opts) = option_octets o ++ options_octets opts.
Proof. reflexivity. Qed.

Lemma OPTRecord_getSize_octets opts map :
  RecordData_getSize (OPTRecord opts) map
  = Ok (length (options_octets opts), map).
Proof.
  cbn [RecordData_getSize]. do 2 f_equal.
  assert (G : forall acc, foldl (λ sz o, (sz + Option_getSize o)%nat) acc opts
                          = (acc + length (options_octets opts))%nat).
  { induction opts as [|o rest IH]; intros acc; [simpl; lia|].
    cbn [foldl]. rewrite IH, options_octets_cons, length_app,
      length_option_octets. lia. }
  apply (G 0%nat).
Qed.

Lemma write_options_frame opts : forall (P R : list Z),
  (length (options_octets opts) <= length R)%nat ->
  write_options opts (StaticWriter.mk (P ++ R) (length P))
  = Ok (StaticWriter.mk ((P ++ options_octets opts)
                           ++ drop (length (options_octets opts)) R)
          (length (P ++ options_octets opts))).
Proof.
  induction opts as [|o rest IH]; intros P R HR.
  - cbn [write_options options_octets fmap list_fmap concat length drop].
    rewrite !app_nil_r. reflexivity.
  - rewrite options_octets_cons, length_app, length_option_octets in *.
    cbn [write_options]. rewrite Option_write_frame by lia.
    cbn [mbind result_bind]. rewrite IH by (rewrite length_drop; lia).
    rewrite drop_drop, <- !app_assoc. reflexivity.
Qed.

Lemma read_options_holds dd opts : forall fuel o acc,
  Forall plain_option opts ->
  holds dd o (options_octets opts) ->
  (o + length (options_octets opts))%nat = length dd ->
  (length opts <= fuel)%nat ->
  read_options fuel (BufferReader.mk dd o) acc
  = Ok (acc ++ opts, BufferReader.mk dd (length dd)).
Proof.
  induction opts as [|op rest IH]; intros fuel o acc Hp H Hlen Hf.
  - cbn [options_octets fmap list_fmap concat length] in Hlen.
    assert (BufferReader.left (BufferReader.mk dd o) = 0)%nat as E
      by (unfold BufferReader.left; simpl; lia).
    destruct fuel; cbn [read_options]; rewrite E; cbn; rewrite app_nil_r;
      do 3 f_equal; lia.
  - apply Forall_cons in Hp as [Hop Hp].
    rewrite options_octets_cons in H, Hlen. rewrite length_app in Hlen.
    rewrite length_option_octets in Hlen.
    apply holds_app in H as [H1 H2]. rewrite length_option_octets in H2.
    destruct fuel as [|f]; [simpl in Hf; lia|]. cbn [read_options].
    unfold BufferReader.left at 1. cbn [BufferReader.data BufferReader.offset].
    unfold Option_getSize in Hlen.
    destruct (Nat.eqb_spec (length dd - o) 0); [lia|].
    rewrite (Option_read_holds op) by assumption. cbn [mbind result_bind].
    rewrite IH; [rewrite <- app_assoc; reflexivity|assumption..| |simpl in Hf; lia].
    unfold Option_getSize. lia.
Qed.

Lemma toRecord_options_plain opts :
  Forall (λ o, Z.of_nat (OptionData_getSize o) < 65536) opts ->
  Forall plain_option ((λ o, mkOption (OptionData_code o) o) <$> opts).
Proof.
  intros H. apply Forall_fmap. eapply Forall_impl; [exact H|].
  intros o Ho. unfold compose, plain_option. cbn [o_code o_option].
  destruct o as [d|d]; cbn [OptionData_code];
    (split; [cbv [options.RESERVED options.LOCALSTART]; lia|]);
    (split; [|split; [exact Ho | reflexivity]]).
  - apply (bool_decide_unpack (options.RESERVED ∉ typed_options)).
    vm_compute. exact I.
  - apply (bool_decide_unpack (options.LOCALSTART ∉ typed_options)).
    vm_compute. exact I.
Qed.

Lemma EDNS_record_wire e bw :
  0 <= e_size e < 65536 ->
  0 <= e_code e < 256 -> 0 <= e_version e < 256 -> 0 <= e_flags e < 65536 ->
  Forall (λ o, Z.of_nat (OptionData_getSize o) < 65536) (e_options e) ->
  let rr := EDNS_toRecord e in
  let opts := (λ o, mkOption (OptionData_code o) o) <$> e_options e in
  Z.of_nat (length (options_octets opts)) < 65536 ->
  let n := (11 + length (options_octets opts))%nat in
  let off := StaticWriter.offset bw in
  (off + n <= length (StaticWriter.data bw))%nat ->
  let out :=
    take off (StaticWriter.data bw)
      ++ ([0] ++ StaticWriter.u16be types.OPT ++ StaticWriter.u16be (e_size e)
            ++ StaticWriter.u32be (rr_ttl rr)
            ++ StaticWriter.u16be (Z.of_nat (length (options_octets opts)))
            ++ options_octets opts)
      ++ drop (off + n) (StaticWriter.data bw) in
  Record_getSize rr None = Ok (n, None)
  /\ Record_write rr bw None = Ok (StaticWriter.mk out (off + n), None)
  /\ Record_read (BufferReader.mk out off) = Ok (rr, BufferReader.mk out (off + n)).
Proof.
  intros Hs Hc Hv Hf Ho rr opts Hlen n off Hroom out.
  assert (Ettl : rr_ttl rr
                 = e_code e * 16777216 + e_version e * 65536 + e_flags e).
  { unfold rr, EDNS_toRecord. cbn [rr_ttl]. apply EDNS_ttl_value; assumption. }
  assert (Err : rr = mkRecord (presentation []) types.OPT (e_size e) (rr_ttl rr)
                       (OPTRecord opts)).
  { unfold rr, EDNS_toRecord. cbn [rr_ttl]. reflexivity. }
  set (ttl := rr_ttl rr) in *. clearbody ttl. clearbody rr. subst rr.
  assert (Hv0 : valid_name []) by (split; [constructor | simpl; lia]).
  set (hdr := wire_name [] ++ StaticWriter.u16be types.OPT
               ++ StaticWriter.u16be (e_size e) ++ StaticWriter.u32be ttl
               ++ StaticWriter.u16be (Z.of_nat (length (options_octets opts)))).
  assert (Lh : length hdr = 11%nat) by reflexivity.
  assert (Lo : length (take off (StaticWriter.data bw)) = off)
    by (rewrite length_take; lia).
  assert (Eout : out = take off (StaticWriter.data bw)
                         ++ (hdr ++ options_octets opts)
                         ++ drop (off + n) (StaticWriter.data bw)).
  { unfold out, hdr. rewrite <- !app_assoc. reflexivity. }
  clearbody out. subst out.
  split; [|split].
  - unfold Record_getSize. cbn [rr_name rr_data].
    rewrite sizeName_wire_length_lemma by (try assumption; simpl; lia).
    cbn [mbind result_bind]. rewrite OPTRecord_getSize_octets. reflexivity.
  - set (P := take off (StaticWriter.data bw)) in *.
    set (R := drop off (StaticWriter.data bw)).
    assert (LR : length R = (length (StaticWriter.data bw) - off)%nat)
      by apply length_drop.
    assert (Ebw : bw = StaticWriter.mk (P ++ R) (length P))
      by (apply writer_parts; lia).
    rewrite Ebw at 1.
    rewrite (Record_write_frame [] types.OPT (e_size e) ttl _ P R
               (length (options_octets opts)));
      [|assumption|simpl; lia|apply OPTRecord_getSize_octets|simpl; lia].
    fold hdr. cbn [RecordData_write].
    rewrite write_options_frame by (rewrite length_drop; lia).
    cbn [mbind result_bind]. rewrite drop_drop. do 2 f_equal. f_equal.
    + rewrite <- !app_assoc. do 3 f_equal. unfold R.
      rewrite drop_drop. f_equal.
    + rewrite !length_app. unfold n. lia.
  - set (out := take off (StaticWriter.data bw) ++ (hdr ++ options_octets opts)
                  ++ drop (off + n) (StaticWriter.data bw)).
    assert (H : holds out off (hdr ++ options_octets opts)).
    { apply holds_at. symmetry. exact Lo. }
    assert (Lout : length out = length (StaticWriter.data bw)).
    { unfold out. rewrite !length_app, Lo, length_drop. unfold n. lia. }
    clearbody out.
    apply holds_app in H as [Hh Hpay].
    rewrite (Record_read_frame [] types.OPT (e_size e) ttl
               (length (options_octets opts)));
      [|try assumption; try (unfold types.OPT; lia)..|fold hdr; lia].
    fold hdr. unfold read_switch.
    change (types.OPT =? types.CNAME) with false.
    change (types.OPT =? types.SIG) with false.
    change (types.OPT =? types.OPT) with true. cbn iota.
    unfold OPTRecord_read. rewrite Lh in *.
    rewrite (read_options_holds _ opts).
    + cbn [mbind result_bind BufferReader.offset app]. rewrite length_take.
      do 3 f_equal. unfold n. lia.
    + apply toRecord_options_plain, Ho.
    + apply holds_take. exact Hpay.
    + rewrite length_take. lia.
    + unfold BufferReader.left. cbn [BufferReader.data BufferReader.offset].
      rewrite length_take.
      assert (G : forall l, Forall plain_option l ->
                    (length l <= length (options_octets l))%nat).
      { induction 1 as [|x l _ _ IH]; [simpl; lia|].
        rewrite options_octets_cons, length_app, length_option_octets.
        unfold Option_getSize. simpl. lia. }
      specialize (G opts (toRecord_options_plain _ Ho)). lia.
Qed.

(** X13. The OPT record of an EDNS state goes through [Record.write] and
    [Record.read] unchanged: [write] stores the root name, type 41, the UDP
    size as class, the packed TTL, the length of the options and the options
    one after the other; [read] at that offset reads the options back until
    the payload is used up and returns the same record. *)
Theorem EDNS_record_write_read e bw :
  0 <= e_size e < 65536 ->
  0 <= e_code e < 256 -> 0 <= e_version e < 256 -> 0 <= e_flags e < 65536 ->
  Forall (λ o, Z.of_nat (OptionData_getSize o) < 65536) (e_options e) ->
  let rr := EDNS_toRecord e in
  let opts := (λ o, mkOption (OptionData_code o) o) <$> e_options e in
  Z.of_nat (length (options_octets opts)) < 65536 ->
  let n := (11 + length (options_octets opts))%nat in
  let off := StaticWriter.offset bw in
  (off + n <= length (StaticWriter.data bw))%nat ->
  let out :=
    take off (StaticWriter.data bw)
      ++ ([0] ++ StaticWriter.u16be types.OPT ++ StaticWriter.u16be (e_size e)
            ++ StaticWriter.u32be (rr_ttl rr)
            ++ StaticWriter.u16be (Z.of_nat (length (options_octets opts)))
            ++ options_octets opts)
      ++ drop (off + n) (StaticWriter.data bw) in
  Record_getSize rr None = Ok (n, None)
  /\ Record_write rr bw None = Ok (StaticWriter.mk out (off + n), None)
  /\ Record_read (BufferReader.mk out off) = Ok (rr, BufferReader.mk out (off + n)).
Proof.
  intros Hs Hc Hv Hf Ho rr opts Hlen n off Hroom out.
  apply EDNS_record_wire; assumption.
Qed.

Lemma EDNS_record_write_read_witness :
  Record_write (EDNS_toRecord (mkEDNS true 4096 0 0 0x8000 [LOCALOption [9]]))
    (StaticWriter.mk (replicate 16 7) 0) None
  = Ok (StaticWriter.mk
          [0; 0; 41; 16; 0; 0; 0; 128; 0; 0; 5; 253; 233; 0; 1; 9] 16, None)
  /\ Record_read
       (BufferReader.mk [0; 0; 41; 16; 0; 0; 0; 128; 0; 0; 5; 253; 233; 0; 1; 9] 0)
     = Ok (EDNS_toRecord (mkEDNS true 4096 0 0 0x8000 [LOCALOption [9]]),
           BufferReader.mk
             [0; 0; 41; 16; 0; 0; 0; 128; 0; 0; 5; 253; 233; 0; 1; 9] 16).
Proof.
  apply (EDNS_record_write_read (mkEDNS true 4096 0 0 0x8000 [LOCALOption [9]])
           (StaticWriter.mk (replicate 16 7) 0)).
  - cbn [e_size]. lia.
  - cbn [e_code]. lia.
  - cbn [e_version]. lia.
  - cbn [e_flags]. lia.
  - repeat constructor.
  - vm_compute. reflexivity.
  - vm_compute. lia.
Defined.

(** ** 32-bit operators, bit by bit *)

Lemma toInt32_range x : - 2 ^ 31 <= js.toInt32 x < 2 ^ 31.
Proof.
  unfold js.toInt32. pose proof (Z.mod_pos_bound (x + 2 ^ 31) (2 ^ 32)). lia.
Qed.

Lemma testbit_int32_high y n :
  - 2 ^ 31 <= y < 2 ^ 31 -> 31 <= n -> Z.testbit y n = Z.testbit y 31.
Proof.
  intros Hy Hn. destruct (Z.neg_nonneg_cases y) as [Hneg|Hpos].
  - assert (Hz : 0 <= Z.lnot y < 2 ^ 31) by (unfold Z.lnot; lia).
    assert (Ey : y = Z.lnot (Z.lnot y)) by (symmetry; apply Z.lnot_involutive).
    set (z := Z.lnot y) in *. clearbody z. subst y.
    rewrite !Z.lnot_spec by lia. f_equal.
    destruct (Z.eq_dec z 0) as [->|]; [rewrite !Z.bits_0; reflexivity|].
    rewrite !Z.bits_above_log2; try reflexivity; try lia.
    all: apply Z.log2_lt_pow2; try lia.
    apply Z.lt_le_trans with (2 ^ 31); [lia|]. apply Z.pow_le_mono_r; lia.
  - destruct (Z.eq_dec y 0) as [->|]; [rewrite !Z.bits_0; reflexivity|].
    rewrite !Z.bits_above_log2; try reflexivity; try lia.
    all: apply Z.log2_lt_pow2; try lia.
    apply Z.lt_le_trans with (2 ^ 31); [lia|]. apply Z.pow_le_mono_r; lia.
Qed.

(** A bit of a 32-bit integer is the bit of the same rank, or the sign. *)
Lemma testbit_toInt32_all x n :
  0 <= n -> Z.testbit (js.toInt32 x) n = Z.testbit x (Z.min n 31).
Proof.
  intros Hn. destruct (Z.le_gt_cases n 31).
  - rewrite Z.min_l by lia. apply testbit_toInt32. lia.
  - rewrite Z.min_r by lia.
    rewrite (testbit_int32_high _ n (toInt32_range x)) by lia.
    apply testbit_toInt32. lia.
Qed.

Lemma testbit_js_and_all a b n :
  0 <= n ->
  Z.testbit (js.and a b) n
  = Z.testbit a (Z.min n 31) && Z.testbit b (Z.min n 31).
Proof.
  intros Hn. unfold js.and. rewrite Z.land_spec, !testbit_toInt32_all by lia.
  reflexivity.
Qed.

Lemma testbit_js_or_all a b n :
  0 <= n ->
  Z.testbit (js.or a b) n
  = Z.testbit a (Z.min n 31) || Z.testbit b (Z.min n 31).
Proof.
  intros Hn. unfold js.or. rewrite Z.lor_spec, !testbit_toInt32_all by lia.
  reflexivity.
Qed.

Lemma testbit_js_not_all a n :
  0 <= n -> Z.testbit (js.not a) n = negb (Z.testbit a (Z.min n 31)).
Proof.
  intros Hn. unfold js.not. rewrite Z.lnot_spec, testbit_toInt32_all by lia.
  reflexivity.
Qed.

Lemma testbit_js_shl_all a k n :
  0 <= n -> 0 <= k < 32 ->
  Z.testbit (js.shl a k) n
  = if Z.min n 31 <? k then false else Z.testbit a (Z.min n 31 - k).
Proof.
  intros Hn Hk. unfold js.shl. rewrite Z.mod_small by lia.
  rewrite testbit_toInt32_all by lia.
  destruct (Z.ltb_spec (Z.min n 31) k).
  - apply Z.shiftl_spec_low. lia.
  - rewrite Z.shiftl_spec by lia. rewrite testbit_toInt32_all by lia.
    f_equal. lia.
Qed.

Lemma testbit_js_ushr_all a k n :
  0 <= n -> 0 <= k < 32 ->
  Z.testbit (js.ushr a k) n
  = if n + k <? 32 then Z.testbit a (n + k) else false.
Proof.
  intros Hn Hk. unfold js.ushr, js.toUint32. rewrite (Z.mod_small k) by lia.
  rewrite Z.shiftr_spec by lia.
  destruct (Z.ltb_spec (n + k) 32).
  - apply Z.mod_pow2_bits_low. lia.
  - apply Z.mod_pow2_bits_high. lia.
Qed.

Lemma testbit_small x k n :
  0 <= x < 2 ^ k -> k <= n -> Z.testbit x n = false.
Proof.
  intros Hx Hn. destruct (Z.eq_dec x 0) as [->|]; [apply Z.bits_0|].
  assert (0 <= k).
  { destruct (Z.neg_nonneg_cases k); [|assumption].
    rewrite Z.pow_neg_r in Hx by assumption. lia. }
  apply Z.bits_above_log2; [lia|]. apply Z.log2_lt_pow2; [lia|].
  apply Z.lt_le_trans with (2 ^ k); [lia|]. apply Z.pow_le_mono_r; lia.
Qed.

(** ** The flags word of the header *)

Lemma testbit_15 n : 0 <= n -> Z.testbit 15 n = (n <? 4).
Proof. intros Hn. apply (Z.testbit_ones_nonneg 4 n); lia. Qed.

Lemma testbit_opcode_mask n :
  0 <= n -> Z.testbit 0x780f n = (n <? 4) || ((11 <=? n) && (n <? 15)).
Proof.
  intros Hn. change 0x780f with (Z.lor (Z.ones 4) (Z.shiftl (Z.ones 4) 11)).
  rewrite Z.lor_spec, Z.testbit_ones_nonneg by lia. f_equal.
  destruct (Z.leb_spec 11 n).
  - rewrite Z.shiftl_spec, Z.testbit_ones_nonneg by lia.
    destruct (Z.ltb_spec (n - 11) 4), (Z.ltb_spec n 15); try reflexivity; lia.
  - rewrite Z.shiftl_spec_low by lia. reflexivity.
Qed.

Lemma bits_16 w :
  (forall n, 16 <= n -> Z.testbit w n = false) -> 0 <= w < 65536.
Proof.
  intros H. assert (E : w = w mod 2 ^ 16).
  { apply Z.bits_inj'. intros n Hn. destruct (Z.lt_ge_cases n 16).
    - rewrite Z.mod_pow2_bits_low by lia. reflexivity.
    - rewrite Z.mod_pow2_bits_high by lia. apply H. lia. }
  rewrite E. apply Z.mod_pos_bound. lia.
Qed.

Lemma testbit_30720 n :
  0 <= n -> Z.testbit 30720 n = (11 <=? n) && (n <? 15).
Proof.
  intros Hn. change 30720 with (Z.shiftl (Z.ones 4) 11).
  destruct (Z.leb_spec 11 n).
  - rewrite Z.shiftl_spec, Z.testbit_ones_nonneg by lia.
    destruct (Z.ltb_spec (n - 11) 4), (Z.ltb_spec n 15); try reflexivity; lia.
  - rewrite Z.shiftl_spec_low by lia. reflexivity.
Qed.

Lemma js_and_small x k :
  0 <= k <= 16 -> 0 <= x < 2 ^ k -> js.and x (Z.ones k) = x.
Proof.
  intros Hk Hx. unfold js.and.
  assert (I32 : forall y, - 2 ^ 31 <= y < 2 ^ 31 -> js.toInt32 y = y).
  { intros y Hy. unfold js.toInt32. rewrite Z.mod_small by lia. lia. }
  assert (2 ^ k <= 2 ^ 16) by (apply Z.pow_le_mono_r; lia).
  assert (Z.ones k = 2 ^ k - 1) by (rewrite Z.ones_equiv; lia).
  rewrite !I32 by lia. rewrite Z.land_ones by lia. apply Z.mod_small. lia.
Qed.

Lemma js_and_15 x : 0 <= x < 16 -> js.and x 15 = x.
Proof. intros H. apply (js_and_small x 4); lia. Qed.

Lemma js_shl_small x k :
  0 <= k -> 0 <= x -> x * 2 ^ k < 2 ^ 31 -> k < 32 ->
  js.shl x k = Z.shiftl x k.
Proof.
  intros Hk Hx Hs Hk'. unfold js.shl. rewrite Z.mod_small by lia.
  assert (I32 : forall y, - 2 ^ 31 <= y < 2 ^ 31 -> js.toInt32 y = y).
  { intros y Hy. unfold js.toInt32. rewrite Z.mod_small by lia. lia. }
  assert (1 <= 2 ^ k) by (apply (Z.pow_le_mono_r 2 0 k); lia).
  rewrite (I32 x) by nia. rewrite Z.shiftl_mul_pow2 by lia. apply I32. nia.
Qed.

(** The flags word that [write] emits when no record is left out, for
    flags outside the opcode and code bits. *)
Lemma header_bits_value m items :
  0 <= flags m < 65536 -> Z.land (flags m) 0x780f = 0 ->
  0 <= opcode m < 16 -> 0 <= code m < 16 ->
  Z.of_nat (bodyLength m) <= items ->
  header_bits m items
  = Z.lor (flags m) (Z.lor (Z.shiftl (opcode m) 11) (code m)).
Proof.
  intros Hf Hmask Hop Hc Hitems. unfold header_bits.
  destruct (Z.ltb_spec items (Z.of_nat (bodyLength m))); [lia|].
  rewrite (js_and_15 (opcode m)), (js_and_15 (code m)) by lia.
  rewrite (js_shl_small (opcode m) 11) by lia.
  change (js.shl 15 11) with 30720.
  apply Z.bits_inj'. intros n Hn.
  assert (Fm : Z.testbit (flags m) n && Z.testbit 0x780f n = false).
  { rewrite <- Z.land_spec, Hmask. apply Z.bits_0. }
  rewrite testbit_opcode_mask in Fm by lia.
  rewrite testbit_js_or_all, testbit_js_and_all, testbit_js_or_all,
    testbit_js_and_all, !testbit_js_not_all by lia.
  replace (Z.min (Z.min n 31) 31) with (Z.min n 31) by lia.
  replace (Z.min (Z.min n 31) 31) with (Z.min n 31) by lia.
  rewrite testbit_30720, testbit_15 by lia.
  rewrite !Z.lor_spec.
  destruct (Z.lt_ge_cases n 16) as [Hn16|Hn16].
  - rewrite !Z.min_l by lia.
    destruct (Z.ltb_spec n 4), (Z.leb_spec 11 n), (Z.ltb_spec n 15);
      try lia; cbn [negb andb orb] in *;
      rewrite ?andb_true_r, ?andb_false_r, ?orb_false_r in *;
      rewrite ?Fm; cbn [negb andb orb];
      rewrite ?(testbit_small (code m) 4 n) by lia;
      rewrite ?Z.shiftl_spec_low by lia;
      rewrite ?orb_false_r; try reflexivity.
    all: rewrite Z.shiftl_spec by lia.
    all: rewrite ?(testbit_small (opcode m) 4 (n - 11)) by lia.
    all: rewrite ?orb_false_r; cbn [orb]; reflexivity.
  - rewrite !Z.shiftl_spec by lia.
    rewrite !(testbit_small (flags m) 16) by lia.
    rewrite !(testbit_small (code m) 4) by lia.
    rewrite !(testbit_small (opcode m) 4) by lia. reflexivity.
Qed.

(** ... and what [read] makes of it. *)
Lemma header_bits_fields fl op c :
  0 <= fl < 65536 -> Z.land fl 0x780f = 0 -> 0 <= op < 16 -> 0 <= c < 16 ->
  let w := Z.lor fl (Z.lor (Z.shiftl op 11) c) in
  0 <= w < 65536
  /\ js.and (js.and w (js.not (js.shl 0x0f 11))) (js.not 0x0f) = fl
  /\ js.and (js.ushr w 11) 0x0f = op
  /\ js.and w 0x0f = c.
Proof.
  intros Hf Hmask Hop Hc w.
  assert (Fm : forall n, 0 <= n ->
            Z.testbit fl n && ((n <? 4) || ((11 <=? n) && (n <? 15))) = false).
  { intros n Hn. rewrite <- testbit_opcode_mask, <- Z.land_spec, Hmask by lia.
    apply Z.bits_0. }
  assert (Wb : forall n, 0 <= n ->
            Z.testbit w n
            = Z.testbit fl n
              || (if n <? 11 then false else Z.testbit op (n - 11))
              || Z.testbit c n).
  { intros n Hn. unfold w. rewrite !Z.lor_spec, orb_assoc. do 2 f_equal.
    destruct (Z.ltb_spec n 11);
      [apply Z.shiftl_spec_low | apply Z.shiftl_spec]; lia. }
  assert (Wh : forall n, 16 <= n -> Z.testbit w n = false).
  { intros n Hn. rewrite Wb by lia. destruct (Z.ltb_spec n 11); [lia|].
    rewrite (testbit_small fl 16), (testbit_small op 4),
      (testbit_small c 4) by lia. reflexivity. }
  split; [apply bits_16, Wh|]. split; [|split].
  - apply Z.bits_inj'. intros n Hn.
    change (js.shl 15 11) with 30720.
    rewrite testbit_js_and_all, testbit_js_and_all, !testbit_js_not_all by lia.
    replace (Z.min (Z.min n 31) 31) with (Z.min n 31) by lia.
    rewrite testbit_30720, testbit_15 by lia.
    destruct (Z.lt_ge_cases n 16) as [Hn16|Hn16].
    + rewrite !Z.min_l by lia. rewrite Wb by lia.
      specialize (Fm n Hn).
      destruct (Z.ltb_spec n 4), (Z.leb_spec 11 n), (Z.ltb_spec n 15),
        (Z.ltb_spec n 11); try lia; cbn [negb andb orb] in *;
        rewrite ?andb_true_r, ?andb_false_r, ?orb_false_r in *;
        rewrite ?Fm; cbn [negb andb orb];
        rewrite ?(testbit_small c 4 n) by lia;
        rewrite ?(testbit_small op 4 (n - 11)) by lia;
        rewrite ?orb_false_r; reflexivity.
    + rewrite (testbit_small fl 16 n) by lia.
      rewrite (Wh (Z.min n 31)) by lia. reflexivity.
  - apply Z.bits_inj'. intros n Hn.
    rewrite testbit_js_and_all, testbit_js_ushr_all by lia.
    destruct (Z.lt_ge_cases n 4) as [Hn4|Hn4].
    + rewrite !Z.min_l by lia. rewrite testbit_15 by lia.
      destruct (Z.ltb_spec (n + 11) 32); [|lia].
      destruct (Z.ltb_spec n 4); [|lia]. rewrite andb_true_r, Wb by lia.
      destruct (Z.ltb_spec (n + 11) 11); [lia|].
      replace (n + 11 - 11) with n by lia.
      rewrite (testbit_small c 4 (n + 11)) by lia.
      specialize (Fm (n + 11) ltac:(lia)).
      destruct (Z.ltb_spec (n + 11) 4); [lia|].
      destruct (Z.leb_spec 11 (n + 11)); [|lia].
      destruct (Z.ltb_spec (n + 11) 15); [|lia].
      cbn [negb andb orb] in Fm. rewrite andb_true_r in Fm. rewrite Fm.
      cbn. rewrite orb_false_r. reflexivity.
    + rewrite (testbit_small op 4 n) by lia.
      rewrite (testbit_small 15 4 (Z.min n 31)) by lia.
      apply andb_false_r.
  - apply Z.bits_inj'. intros n Hn. rewrite testbit_js_and_all by lia.
    destruct (Z.lt_ge_cases n 4) as [Hn4|Hn4].
    + rewrite !Z.min_l by lia. rewrite testbit_15, Wb by lia.
      destruct (Z.ltb_spec n 4); [|lia]. destruct (Z.ltb_spec n 11); [|lia].
      specialize (Fm n Hn). destruct (Z.ltb_spec n 4); [|lia].
      cbn [negb andb orb] in Fm. rewrite andb_true_r in Fm. rewrite Fm.
      cbn. rewrite andb_true_r. reflexivity.
    + rewrite (testbit_small c 4 n) by lia.
      rewrite (testbit_small 15 4 (Z.min n 31)) by lia.
      apply andb_false_r.
Qed.

(** ** Flags *)

Lemma flag_set_same fl bit (value : bool) :
  js.toInt32 bit <> 0 ->
  negb (js.and (if value then js.or fl bit else js.and fl (js.not bit)) bit
        =? 0)
  = value.
Proof.
  intros Hbit.
  assert (M : forall n, Z.min (Z.min n 31) 31 = Z.min n 31) by (intros; lia).
  destruct value.
  - assert (E : js.and (js.or fl bit) bit = js.toInt32 bit).
    { apply Z.bits_inj'. intros n Hn.
      rewrite testbit_js_and_all, testbit_js_or_all, testbit_toInt32_all,
        M by lia.
      destruct (Z.testbit fl _), (Z.testbit bit _); reflexivity. }
    rewrite E. destruct (Z.eqb_spec (js.toInt32 bit) 0); [contradiction|].
    reflexivity.
  - assert (E : js.and (js.and fl (js.not bit)) bit = 0).
    { apply Z.bits_inj'. intros n Hn.
      rewrite testbit_js_and_all, testbit_js_and_all, testbit_js_not_all,
        !M, Z.bits_0 by lia.
      destruct (Z.testbit fl _), (Z.testbit bit _); reflexivity. }
    rewrite E. reflexivity.
Qed.

Lemma flag_set_other fl bit (value : bool) other :
  js.and bit other = 0 ->
  js.and (if value then js.or fl bit else js.and fl (js.not bit)) other
  = js.and fl other.
Proof.
  intros Ho.
  assert (M : forall n, Z.min (Z.min n 31) 31 = Z.min n 31) by (intros; lia).
  assert (D : forall n, 0 <= n ->
            Z.testbit bit (Z.min n 31) && Z.testbit other (Z.min n 31) = false).
  { intros n Hn. rewrite <- testbit_js_and_all, Ho by lia. apply Z.bits_0. }
  apply Z.bits_inj'. intros n Hn. specialize (D n Hn).
  rewrite !testbit_js_and_all by lia. destruct value.
  - rewrite testbit_js_or_all, M by lia.
    destruct (Z.testbit fl _), (Z.testbit bit _),
      (Z.testbit other _); try reflexivity; discriminate.
  - rewrite testbit_js_and_all, testbit_js_not_all, !M by lia.
    destruct (Z.testbit fl _), (Z.testbit bit _),
      (Z.testbit other _); try reflexivity; discriminate.
Qed.

Lemma getFlag_setFlag_same m bit value :
  js.toInt32 bit <> 0 -> getFlag (setFlag m bit value).1 bit = value.
Proof.
  intros H. unfold setFlag, getFlag, set_flags. cbn [fst flags].
  apply flag_set_same, H.
Qed.

Lemma getFlag_setFlag_other m bit value other :
  js.and bit other = 0 ->
  getFlag (setFlag m bit value).1 other = getFlag m other.
Proof.
  intros H. unfold setFlag, getFlag, set_flags. cbn [fst flags].
  rewrite flag_set_other by exact H. reflexivity.
Qed.

(** X14. [setFlag] and [getFlag] treat the flags as a set of bits, under
    JavaScript's 32-bit operators: after [setFlag(bit, value)] with a
    non-zero mask, [getFlag(bit)] returns [value], and [getFlag] of any mask
    that shares no bit with [bit] returns what it returned before. *)
Theorem setFlag_getFlag m bit value :
  js.toInt32 bit <> 0 ->
  getFlag (setFlag m bit value).1 bit = value
  /\ snd (setFlag m bit value) = value
  /\ forall other, js.and bit other = 0 ->
       getFlag (setFlag m bit value).1 other = getFlag m other.
Proof.
  intros Hbit. split; [|split].
  - apply getFlag_setFlag_same, Hbit.
  - reflexivity.
  - intros other Ho. apply getFlag_setFlag_other, Ho.
Qed.

Lemma setFlag_getFlag_witness :
  getFlag (setFlag examples.tc_query flags.QR true).1 flags.QR = true
  /\ getFlag (setFlag examples.tc_query flags.QR true).1 flags.TC = true.
Proof.
  destruct (setFlag_getFlag examples.tc_query flags.QR true) as (H1 & _ & H3);
    [vm_compute; discriminate|].
  split; [exact H1|]. rewrite H3; [|vm_compute]; reflexivity.
Defined.

(** ** Questions and records on the wire *)

Lemma wire_question_length q bs : wire_question q bs -> (5 <= length bs)%nat.
Proof.
  intros [labels type class Hv Hp Ht Hc]. rewrite !length_app. simpl.
  unfold wire_name. rewrite length_app. simpl. lia.
Qed.

Lemma wire_question_getSize q bs :
  wire_question q bs -> Question_getSize q None = Ok (length bs, None).
Proof.
  intros [labels type class Hv Hp Ht Hc]. unfold Question_getSize.
  cbn [q_name]. rewrite sizeName_wire_length_lemma by assumption.
  cbn [mbind result_bind]. rewrite !length_app. reflexivity.
Qed.

Lemma wire_question_write q bs (P R : list Z) :
  wire_question q bs -> (length bs <= length R)%nat ->
  Question_write q (StaticWriter.mk (P ++ R) (length P)) None
  = Ok (StaticWriter.mk ((P ++ bs) ++ drop (length bs) R) (length (P ++ bs)),
        None).
Proof.
  intros [labels type class Hv Hp Ht Hc] HR.
  rewrite !length_app in HR. simpl in HR.
  unfold Question_write. cbn [q_name q_type q_class].
  rewrite writeNameBW_frame by (try assumption; lia).
  cbn [mbind result_bind].
  rewrite writeU16BE_frame by (rewrite length_drop; lia).
  cbn [mbind result_bind].
  rewrite writeU16BE_frame by (rewrite !length_drop; lia).
  cbn [mbind result_bind]. rewrite !drop_drop, <- !app_assoc.
  do 2 f_equal. f_equal.
  - do 4 f_equal. f_equal. rewrite !length_app. simpl. lia.
Qed.

Lemma wire_question_read q bs d o :
  wire_question q bs -> holds d o bs ->
  Question_read (BufferReader.mk d o) = Ok (q, BufferReader.mk d (o + length bs)).
Proof.
  intros [labels type class Hv Hp Ht Hc] H.
  pose proof (holds_length _ _ _ H) as L.
  assert (Lw : (1 <= length (wire_name labels))%nat).
  { unfold wire_name. rewrite length_app. simpl. lia. }
  rewrite !length_app in *. simpl length in *.
  specialize (L ltac:(destruct (wire_name labels); [simpl in Lw; lia | discriminate])).
  apply holds_app in H as [Hn H]. apply holds_app in H as [Hty Hcl].
  simpl in Hcl.
  unfold Question_read. rewrite (readNameBR_holds labels) by assumption.
  cbn [mbind result_bind]. unfold BufferReader.left.
  cbn [BufferReader.data BufferReader.offset].
  destruct (Nat.eqb_spec (length d - (o + length (wire_name labels))) 0); [lia|].
  rewrite (readU16BE_holds _ _ type) by assumption.
  cbn [mbind result_bind BufferReader.data BufferReader.offset].
  destruct (Nat.eqb_spec (length d - (o + length (wire_name labels) + 2)) 0);
    [lia|].
  rewrite (readU16BE_holds _ _ class) by assumption.
  cbn [mbind result_bind]. do 3 f_equal. lia.
Qed.

Lemma wire_record_length rr bs : wire_record rr bs -> (11 <= length bs)%nat.
Proof.
  intros []; rewrite !length_app; simpl; unfold wire_name;
    rewrite !length_app; simpl; lia.
Qed.

Lemma wire_record_plain rr bs :
  wire_record rr bs -> isOPT rr = false /\ isTSIG rr = false /\ isSIG0 rr = false.
Proof.
  intros [labels type class ttl payload ? ? ? ? ? ? T1 T2 T3 T4 T5|];
    unfold isOPT, isTSIG, isSIG0; cbn [rr_name rr_type rr_class rr_ttl rr_data].
  - destruct (Z.eqb_spec type types.OPT); [contradiction|].
    destruct (Z.eqb_spec type types.TSIG); [contradiction|].
    destruct (Z.eqb_spec type types.SIG); [contradiction|].
    rewrite !andb_false_r. auto.
  - split; [reflexivity|]. split; [reflexivity|].
    change (types.CNAME =? types.SIG) with false.
    rewrite !andb_false_r. reflexivity.
Qed.

Lemma wire_record_getSize rr bs :
  wire_record rr bs -> Record_getSize rr None = Ok (length bs, None).
Proof.
  intros []; unfold Record_getSize; cbn [rr_name rr_data RecordData_getSize];
    rewrite !sizeName_wire_length_lemma by assumption;
    cbn [mbind result_bind];
    rewrite ?sizeName_wire_length_lemma by assumption;
    cbn [mbind result_bind]; do 2 f_equal; rewrite !length_app; simpl; lia.
Qed.

Lemma wire_record_write rr bs (P R : list Z) :
  wire_record rr bs -> (length bs <= length R)%nat ->
  Record_write rr (StaticWriter.mk (P ++ R) (length P)) None
  = Ok (StaticWriter.mk ((P ++ bs) ++ drop (length bs) R) (length (P ++ bs)),
        None).
Proof.
  intros [labels type class ttl payload Hv Hp Ht Hc Htt Hpl T1 T2 T3 T4 T5
         |labels target class ttl Hv Hp Hvt Hpt Hc Htt] HR.
  - set (hdr := wire_name labels ++ StaticWriter.u16be type
               ++ StaticWriter.u16be class ++ StaticWriter.u32be ttl
               ++ StaticWriter.u16be (Z.of_nat (length payload))).
    assert (Lh : length hdr = (length (wire_name labels) + 10)%nat).
    { unfold hdr. rewrite !length_app. simpl. lia. }
    replace (wire_name labels ++ StaticWriter.u16be type
               ++ StaticWriter.u16be class ++ StaticWriter.u32be ttl
               ++ StaticWriter.u16be (Z.of_nat (length payload)) ++ payload)
      with (hdr ++ payload) in * by (unfold hdr; rewrite <- !app_assoc; reflexivity).
    rewrite length_app in HR.
    rewrite (Record_write_frame labels type class ttl _ P R (length payload));
      [|assumption..|reflexivity|lia].
    fold hdr. cbn [RecordData_write].
    rewrite writeBytes_frame by (rewrite length_drop; lia).
    cbn [mbind result_bind]. rewrite drop_drop, <- !app_assoc, !length_app.
    reflexivity.
  - set (hdr := wire_name labels ++ StaticWriter.u16be types.CNAME
               ++ StaticWriter.u16be class ++ StaticWriter.u32be ttl
               ++ StaticWriter.u16be (Z.of_nat (length (wire_name target)))).
    assert (Lh : length hdr = (length (wire_name labels) + 10)%nat).
    { unfold hdr. rewrite !length_app. simpl. lia. }
    replace (wire_name labels ++ StaticWriter.u16be types.CNAME
               ++ StaticWriter.u16be class ++ StaticWriter.u32be ttl
               ++ StaticWriter.u16be (Z.of_nat (length (wire_name target)))
               ++ wire_name target)
      with (hdr ++ wire_name target) in *
      by (unfold hdr; rewrite <- !app_assoc; reflexivity).
    rewrite length_app in HR.
    rewrite (Record_write_frame labels types.CNAME class ttl _ P R
               (length (wire_name target)));
      [|assumption..| |lia].
    2:{ cbn [RecordData_getSize]. apply sizeName_wire_length_lemma; assumption. }
    fold hdr. cbn [RecordData_write].
    rewrite writeNameBW_frame by (try assumption; rewrite length_drop; lia).
    cbn [mbind result_bind]. rewrite drop_drop, <- !app_assoc, !length_app.
    reflexivity.
Qed.

Lemma wire_record_read rr bs d o :
  wire_record rr bs -> holds d o bs ->
  Record_read (BufferReader.mk d o) = Ok (rr, BufferReader.mk d (o + length bs)).
Proof.
  intros Hw H. pose proof (wire_record_length _ _ Hw) as L11.
  pose proof (holds_length _ _ _ H ltac:(destruct bs; [simpl in L11; lia | discriminate])) as L.
  destruct Hw as [labels type class ttl payload Hv Hp Ht Hc Htt Hpl T1 T2 T3 T4 T5
                 |labels target class ttl Hv Hp Hvt Hpt Hc Htt].
  - set (hdr := wire_name labels ++ StaticWriter.u16be type
               ++ StaticWriter.u16be class ++ StaticWriter.u32be ttl
               ++ StaticWriter.u16be (Z.of_nat (length payload))).
    assert (Lh : length hdr = (length (wire_name labels) + 10)%nat).
    { unfold hdr. rewrite !length_app. simpl. lia. }
    replace (wire_name labels ++ StaticWriter.u16be type
               ++ StaticWriter.u16be class ++ StaticWriter.u32be ttl
               ++ StaticWriter.u16be (Z.of_nat (length payload)) ++ payload)
      with (hdr ++ payload) in * by (unfold hdr; rewrite <- !app_assoc; reflexivity).
    rewrite length_app in *.
    apply holds_app in H as [Hh Hpay].
    rewrite (Record_read_frame labels type class ttl (length payload));
      [|assumption..|fold hdr; lia].
    fold hdr. rewrite read_switch_opaque by assumption.
    unfold UNKNOWNRecord_read, BufferReader.left.
    cbn [BufferReader.data BufferReader.offset].
    rewrite length_take.
    replace ((o + length hdr + length payload) `min` length d
             - (o + length hdr))%nat with (length payload) by lia.
    rewrite (readBytes_holds _ _ payload).
    + cbn [mbind result_bind BufferReader.offset]. do 3 f_equal. lia.
    + apply holds_take. exact Hpay.
    + rewrite length_take. lia.
  - set (hdr := wire_name labels ++ StaticWriter.u16be types.CNAME
               ++ StaticWriter.u16be class ++ StaticWriter.u32be ttl
               ++ StaticWriter.u16be (Z.of_nat (length (wire_name target)))).
    assert (Lh : length hdr = (length (wire_name labels) + 10)%nat).
    { unfold hdr. rewrite !length_app. simpl. lia. }
    replace (wire_name labels ++ StaticWriter.u16be types.CNAME
               ++ StaticWriter.u16be class ++ StaticWriter.u32be ttl
               ++ StaticWriter.u16be (Z.of_nat (length (wire_name target)))
               ++ wire_name target)
      with (hdr ++ wire_name target) in *
      by (unfold hdr; rewrite <- !app_assoc; reflexivity).
    rewrite length_app in *.
    assert (Lt : Z.of_nat (length (wire_name target)) < 65536).
    { destruct Hvt as [_ Hvt]. lia. }
    apply holds_app in H as [Hh Hpay].
    rewrite (Record_read_frame labels types.CNAME class ttl
               (length (wire_name target)));
      [|try assumption; try (unfold types.CNAME; lia)..|fold hdr; lia].
    fold hdr. unfold read_switch. change (types.CNAME =? types.CNAME) with true.
    cbn iota. unfold CNAMERecord_read.
    rewrite (readNameBR_holds target).
    + cbn [mbind result_bind BufferReader.offset]. do 3 f_equal. lia.
    + exact Hvt.
    + apply holds_take. exact Hpay.
Qed.

(** ** Sections on the wire *)

Lemma size_questions_wire qs qb : forall size,
  Forall2 wire_question qs qb ->
  size_questions qs size None = Ok ((size + length (concat qb))%nat, None).
Proof.
  intros size H. revert size.
  induction H as [|q bs qs qb Hq _ IH]; intros size.
  - simpl. rewrite Nat.add_0_r. reflexivity.
  - cbn [size_questions]. rewrite (wire_question_getSize _ _ Hq).
    cbn [mbind result_bind]. rewrite IH. cbn [concat]. rewrite length_app.
    do 2 f_equal. lia.
Qed.

Lemma size_records_wire max over rrs bss : forall size items,
  Forall2 wire_record rrs bss ->
  size_records false max rrs size items None over
  = Ok (Full (size + length (concat bss)) (items + length rrs) None).
Proof.
  intros size items H. revert size items.
  induction H as [|rr bs rrs bss Hr _ IH]; intros size items.
  - simpl. rewrite !Nat.add_0_r. reflexivity.
  - cbn [size_records]. rewrite (wire_record_getSize _ _ Hr).
    cbn [mbind result_bind andb]. rewrite IH. cbn [concat length].
    rewrite length_app. do 2 f_equal; lia.
Qed.

Lemma write_questions_wire qs qb : forall (P R : list Z),
  Forall2 wire_question qs qb -> (length (concat qb) <= length R)%nat ->
  write_questions qs (StaticWriter.mk (P ++ R) (length P)) None
  = Ok (StaticWriter.mk ((P ++ concat qb) ++ drop (length (concat qb)) R)
          (length (P ++ concat qb)), None).
Proof.
  intros P R H. revert P R.
  induction H as [|q bs qs qb Hq _ IH]; intros P R HR.
  - cbn [write_questions concat length drop]. rewrite !app_nil_r. reflexivity.
  - cbn [concat] in *. rewrite length_app in HR. cbn [write_questions].
    rewrite (wire_question_write _ _ _ _ Hq) by lia. cbn [mbind result_bind].
    rewrite IH by (rewrite length_drop; lia).
    rewrite drop_drop, <- !app_assoc, !length_app. reflexivity.
Qed.

(** [write] on a section, with at least as many records still to write
    as the section has: every record is written, and [write] returns right
    behind the last of them when that was the last record to write. *)
Lemma write_records_wire rrs bss : forall (P R : list Z) items,
  Forall2 wire_record rrs bss -> (length (concat bss) <= length R)%nat ->
  Z.of_nat (length rrs) <= items ->
  let bw := StaticWriter.mk ((P ++ concat bss) ++ drop (length (concat bss)) R)
              (length (P ++ concat bss)) in
  write_records rrs (StaticWriter.mk (P ++ R) (length P)) items None
  = Ok (if (items =? Z.of_nat (length rrs)) && negb (length rrs =? 0)%nat
        then WReturn bw None
        else WGo bw (items - Z.of_nat (length rrs)) None).
Proof.
  intros P R items H. revert P R items.
  induction H as [|rr bs rrs bss Hr Hrest IH]; intros P R items HR Hi bw.
  - cbn [write_records length Nat.eqb negb]. rewrite andb_false_r.
    unfold bw. cbn [concat length drop]. rewrite !app_nil_r, Z.sub_0_r.
    reflexivity.
  - cbn [concat] in *. rewrite length_app in HR. cbn [length] in Hi.
    cbn [write_records].
    rewrite (wire_record_write _ _ _ _ Hr) by lia. cbn [mbind result_bind].
    assert (Ebw : bw = StaticWriter.mk
                         (((P ++ bs) ++ concat bss)
                            ++ drop (length (concat bss)) (drop (length bs) R))
                         (length ((P ++ bs) ++ concat bss))).
    { unfold bw. rewrite drop_drop, <- !app_assoc, !length_app. reflexivity. }
    cbn [length Nat.eqb negb]. rewrite andb_true_r.
    destruct (Z.eqb_spec (items - 1) 0) as [E|E].
    + assert (length rrs = 0)%nat as L0 by lia.
      destruct rrs; [|discriminate]. inversion Hrest. subst bss.
      assert (C : (items =? Z.of_nat (S (length (@nil Record_)))) = true)
        by (apply Z.eqb_eq; simpl; lia).
      rewrite C, Ebw. cbn [concat length drop]. rewrite !app_nil_r. reflexivity.
    + rewrite IH by (rewrite ?length_drop; lia). rewrite <- Ebw.
      destruct (Z.eqb_spec (items - 1) (Z.of_nat (length rrs))) as [C1|C1].
      * assert (C : (items =? Z.of_nat (S (length rrs))) = true)
          by (apply Z.eqb_eq; lia).
        rewrite C. destruct rrs; [simpl in *; lia|]. reflexivity.
      * assert (C : (items =? Z.of_nat (S (length rrs))) = false)
          by (apply Z.eqb_neq; lia).
        rewrite C. cbn [andb]. do 2 f_equal. lia.
Qed.

(** The message [read] is filling, after the questions [qs] or the
    records [rrs] were pushed. *)
Lemma foldl_push_question qs : forall m,
  foldl push_question m qs
  = mkMessage (id m) (flags m) (opcode m) (code m) (question m ++ qs)
      (answer m) (authority m) (additional m) (edns m) (tsig m) (sig0 m)
      (size m) (trailing m).
Proof.
  induction qs as [|q qs IH]; intros m.
  - simpl. rewrite app_nil_r. destruct m; reflexivity.
  - cbn [foldl]. rewrite IH. unfold push_question.
    cbn [id flags opcode code question answer authority additional edns tsig
         sig0 size trailing].
    rewrite <- app_assoc. reflexivity.
Qed.

Lemma foldl_push_answer rrs : forall m,
  foldl push_answer m rrs
  = mkMessage (id m) (flags m) (opcode m) (code m) (question m)
      (answer m ++ rrs) (authority m) (additional m) (edns m) (tsig m)
      (sig0 m) (size m) (trailing m).
Proof.
  induction rrs as [|r rrs IH]; intros m.
  - simpl. rewrite app_nil_r. destruct m; reflexivity.
  - cbn [foldl]. rewrite IH. unfold push_answer.
    cbn [id flags opcode code question answer authority additional edns tsig
         sig0 size trailing].
    rewrite <- app_assoc. reflexivity.
Qed.

Lemma foldl_push_authority rrs : forall m,
  foldl push_authority m rrs
  = mkMessage (id m) (flags m) (opcode m) (code m) (question m)
      (answer m) (authority m ++ rrs) (additional m) (edns m) (tsig m)
      (sig0 m) (size m) (trailing m).
Proof.
  induction rrs as [|r rrs IH]; intros m.
  - simpl. rewrite app_nil_r. destruct m; reflexivity.
  - cbn [foldl]. rewrite IH. unfold push_authority.
    cbn [id flags opcode code question answer authority additional edns tsig
         sig0 size trailing].
    rewrite <- app_assoc. reflexivity.
Qed.

Lemma foldl_push_additional rrs : forall m,
  foldl push_additional m rrs
  = mkMessage (id m) (flags m) (opcode m) (code m) (question m)
      (answer m) (authority m) (additional m ++ rrs) (edns m) (tsig m)
      (sig0 m) (size m) (trailing m).
Proof.
  induction rrs as [|r rrs IH]; intros m.
  - simpl. rewrite app_nil_r. destruct m; reflexivity.
  - cbn [foldl]. rewrite IH. unfold push_additional.
    cbn [id flags opcode code question answer authority additional edns tsig
         sig0 size trailing].
    rewrite <- app_assoc. reflexivity.
Qed.

Lemma holds_left d o (bs : list Z) :
  holds d o bs -> bs <> [] ->
  (BufferReader.left (BufferReader.mk d o) =? 0)%nat = false.
Proof.
  intros H Hne. pose proof (holds_length _ _ _ H Hne).
  unfold BufferReader.left. cbn [BufferReader.data BufferReader.offset].
  apply Nat.eqb_neq. destruct bs; [contradiction|]. simpl in *. lia.
Qed.

Lemma read_questions_wire d qs qb : forall m o,
  Forall2 wire_question qs qb -> holds d o (concat qb) ->
  read_questions (length qs) m (BufferReader.mk d o)
  = Ok (RGo (foldl push_question m qs)
          (BufferReader.mk d (o + length (concat qb)))).
Proof.
  intros m o H. revert m o.
  induction H as [|q bs qs qb Hq _ IH]; intros m o Hh.
  - simpl. rewrite Nat.add_0_r. reflexivity.
  - cbn [concat] in *. apply holds_app in Hh as [H1 H2].
    pose proof (wire_question_length _ _ Hq).
    assert (Hne : bs <> []) by (destruct bs; [simpl in *; lia | discriminate]).
    cbn [length read_questions].
    rewrite (holds_left _ _ bs H1 Hne).
    rewrite (wire_question_read _ _ _ _ Hq H1). cbn [mbind result_bind].
    rewrite IH by assumption. cbn [foldl]. rewrite length_app.
    do 3 f_equal. lia.
Qed.

Lemma read_section_wire push d rrs bss : forall m o,
  Forall2 wire_record rrs bss -> holds d o (concat bss) ->
  read_section push (length rrs) m (BufferReader.mk d o)
  = Ok (RGo (foldl push m rrs) (BufferReader.mk d (o + length (concat bss)))).
Proof.
  intros m o H. revert m o.
  induction H as [|rr bs rrs bss Hr _ IH]; intros m o Hh.
  - simpl. rewrite Nat.add_0_r. reflexivity.
  - cbn [concat] in *. apply holds_app in Hh as [H1 H2].
    pose proof (wire_record_length _ _ Hr).
    assert (Hne : bs <> []) by (destruct bs; [simpl in *; lia | discriminate]).
    cbn [length read_section].
    rewrite (holds_left _ _ bs H1 Hne).
    rewrite andb_false_r.
    rewrite (wire_record_read _ _ _ _ Hr H1). cbn [mbind result_bind].
    rewrite IH by assumption. cbn [foldl]. rewrite length_app.
    do 3 f_equal. lia.
Qed.

Lemma read_additional_wire d rrs bss : forall m o,
  Forall2 wire_record rrs bss -> holds d o (concat bss) ->
  read_additional (length rrs) m (BufferReader.mk d o)
  = Ok (RGo (foldl push_additional m rrs)
          (BufferReader.mk d (o + length (concat bss)))).
Proof.
  intros m o H. revert m o.
  induction H as [|rr bs rrs bss Hr _ IH]; intros m o Hh.
  - simpl. rewrite Nat.add_0_r. reflexivity.
  - cbn [concat] in *. apply holds_app in Hh as [H1 H2].
    pose proof (wire_record_length _ _ Hr).
    destruct (wire_record_plain _ _ Hr) as (N1 & N2 & N3).
    assert (Hne : bs <> []) by (destruct bs; [simpl in *; lia | discriminate]).
    cbn [length read_additional].
    rewrite (holds_left _ _ bs H1 Hne).
    rewrite (wire_record_read _ _ _ _ Hr H1). cbn [mbind result_bind].
    rewrite N1, N2, N3.
    rewrite IH by assumption. cbn [foldl]. rewrite length_app.
    do 3 f_equal. lia.
Qed.

(** ** Messages without pseudo-records *)

Lemma write_header_wire m (R : list Z) :
  (12 <= length R)%nat ->
  write_header m (Z.of_nat (bodyLength m)) (StaticWriter.mk ([] ++ R) (length (@nil Z)))
  = Ok (StaticWriter.mk (([] ++ header_octets m) ++ drop 12 R)
          (length ([] ++ header_octets m))).
Proof.
  intros HR. unfold write_header.
  rewrite writeU16BE_frame by lia. cbn [mbind result_bind].
  rewrite writeU16BE_frame by (rewrite ?length_drop; lia).
  cbn [mbind result_bind].
  rewrite writeU16BE_frame by (rewrite ?length_drop; lia).
  cbn [mbind result_bind].
  rewrite writeU16BE_frame by (rewrite ?length_drop; lia).
  cbn [mbind result_bind].
  rewrite writeU16BE_frame by (rewrite ?length_drop; lia).
  cbn [mbind result_bind].
  rewrite writeU16BE_frame by (rewrite ?length_drop; lia).
  rewrite !drop_drop. unfold header_octets. rewrite <- !app_assoc.
  reflexivity.
Qed.

Lemma read_header_wire m0 m d :
  0 <= id m < 65536 ->
  0 <= flags m < 65536 -> Z.land (flags m) 0x780f = 0 ->
  0 <= opcode m < 16 -> 0 <= code m < 16 ->
  Z.of_nat (length (question m)) < 65536 ->
  Z.of_nat (length (answer m)) < 65536 ->
  Z.of_nat (length (authority m)) < 65536 ->
  Z.of_nat (arcount m) < 65536 ->
  holds d 0 (header_octets m) ->
  read_header m0 (BufferReader.mk d 0)
  = Ok (mkMessage (id m) (flags m) (opcode m) (code m) (question m0)
          (answer m0) (authority m0) (additional m0) (edns m0) (tsig m0)
          (sig0 m0) (size m0) (trailing m0),
        (length (question m), length (answer m), length (authority m),
         arcount m),
        BufferReader.mk d 12).
Proof.
  intros Hid Hf Hmask Hop Hc Hq Ha Hn Hr H.
  pose proof (header_bits_value m (Z.of_nat (bodyLength m)) Hf Hmask Hop Hc
                ltac:(lia)) as Ew.
  destruct (header_bits_fields _ _ _ Hf Hmask Hop Hc) as (Hw & E1 & E2 & E3).
  unfold header_octets in H. rewrite Ew in H.
  apply holds_app in H as [H1 H]. apply holds_app in H as [H2 H].
  apply holds_app in H as [H3 H]. apply holds_app in H as [H4 H].
  apply holds_app in H as [H5 H6]. simpl in H2, H3, H4, H5, H6.
  unfold read_header.
  rewrite (readU16BE_holds _ _ (id m)) by assumption. cbn [mbind result_bind Nat.add].
  rewrite (readU16BE_holds _ _ _ Hw H2). cbn [mbind result_bind Nat.add].
  rewrite (readU16BE_holds _ _ (Z.of_nat (length (question m))))
    by (try assumption; lia).
  cbn [mbind result_bind Nat.add].
  rewrite (readU16BE_holds _ _ (Z.of_nat (length (answer m))))
    by (try assumption; lia).
  cbn [mbind result_bind Nat.add].
  rewrite (readU16BE_holds _ _ (Z.of_nat (length (authority m))))
    by (try assumption; lia).
  cbn [mbind result_bind Nat.add].
  rewrite (readU16BE_holds _ _ (Z.of_nat (arcount m)))
    by (try assumption; lia).
  cbn [mbind result_bind Nat.add]. rewrite E1, E2, E3, !Nat2Z.id. reflexivity.
Qed.

Lemma Forall2_nil_length {A B} (P : A -> B -> Prop) l k :
  Forall2 P l k -> length l = 0%nat -> k = [].
Proof. intros H L. destruct H; [reflexivity | discriminate]. Qed.

Lemma getSizes_plain m qb ab nb rb :
  e_enabled (edns m) = false -> tsig m = None -> sig0 m = None ->
  Forall2 wire_question (question m) qb ->
  Forall2 wire_record (answer m) ab ->
  Forall2 wire_record (authority m) nb ->
  Forall2 wire_record (additional m) rb ->
  (12 + length (concat qb) <= 512)%nat ->
  getSizes m false None
  = Ok ((12 + length (concat qb) + length (concat ab) + length (concat nb)
         + length (concat rb))%nat, -1, None).
Proof.
  intros He Ht Hs Hq Ha Hn Hr Hmax. unfold getSizes. cbn [andb].
  rewrite (size_questions_wire _ qb) by assumption. cbn [mbind result_bind].
  destruct (Z.leb_spec (Z.of_nat (12 + length (concat qb)))
              (Z.of_nat MAX_UDP_SIZE)) as [_|L];
    [|unfold MAX_UDP_SIZE in L; lia].
  cbn [assert mbind result_bind].
  rewrite (size_records_wire _ _ _ ab) by assumption. cbn [mbind result_bind].
  rewrite (size_records_wire _ _ _ nb) by assumption. cbn [mbind result_bind].
  rewrite (size_records_wire _ _ _ rb) by assumption. cbn [mbind result_bind].
  rewrite He, Ht, Hs. cbn [opt_list size_records mbind result_bind].
  reflexivity.
Qed.

Lemma Message_write_plain m qb ab nb rb (R : list Z) :
  0 <= code m < 16 ->
  e_enabled (edns m) = false -> tsig m = None -> sig0 m = None ->
  Forall2 wire_question (question m) qb ->
  Forall2 wire_record (answer m) ab ->
  Forall2 wire_record (authority m) nb ->
  Forall2 wire_record (additional m) rb ->
  length R = (12 + length (concat qb) + length (concat ab)
              + length (concat nb) + length (concat rb))%nat ->
  Message_write m (StaticWriter.mk R 0) (-1) None
  = Ok (m,
        StaticWriter.mk
          (header_octets m ++ concat qb ++ concat ab ++ concat nb ++ concat rb)
          (length R),
        None).
Proof.
  intros Hc He Ht Hs Hq Ha Hn Hr HR.
  assert (Hh : length (header_octets m) = 12%nat) by reflexivity.
  assert (Eb : bodyLength m
               = (length (answer m) + length (authority m)
                  + length (additional m))%nat).
  { unfold bodyLength, arcount. rewrite He, Ht, Hs. simpl. lia. }
  unfold Message_write. cbn zeta. change (-1 =? -1) with true. cbn iota.
  change (StaticWriter.mk R 0)
    with (StaticWriter.mk ([] ++ R) (length (@nil Z))).
  rewrite write_header_wire by lia. cbn [mbind result_bind].
  rewrite (write_questions_wire _ qb) by (try assumption; rewrite length_drop; lia).
  cbn [mbind result_bind].
  rewrite (write_records_wire _ ab)
    by (try assumption; rewrite ?length_drop; lia).
  cbn zeta.
  assert (Fin : forall P X,
            length P = (length R - length X)%nat -> (length X <= length R)%nat ->
            X = [] ->
            StaticWriter.mk (P ++ drop 0 X) (length P)
            = StaticWriter.mk (P ++ X) (length R)).
  { intros P X LP LX ->. simpl in LP. rewrite LP. f_equal. lia. }
  set (c1 := (Z.of_nat (bodyLength m) =? Z.of_nat (length (answer m)))
             && negb (length (answer m) =? 0)%nat).
  destruct c1 eqn:C1; cbn [mbind result_bind].
  { apply andb_true_iff in C1 as [C1 _]. apply Z.eqb_eq in C1.
    assert (nb = []) as -> by (eapply Forall2_nil_length; [exact Hn | lia]).
    assert (rb = []) as -> by (eapply Forall2_nil_length; [exact Hr | lia]).
    cbn [concat length] in *. rewrite !app_nil_r in *.
    rewrite !drop_drop.
    match goal with |- Ok (_, ?a, _) = Ok (_, ?b, _) =>
      assert (E : a = b); [|rewrite E; reflexivity] end.
    f_equal.
    - rewrite drop_ge by lia. rewrite app_nil_r, <- !app_assoc. reflexivity.
    - rewrite !length_app. simpl length. lia. }
  rewrite (write_records_wire _ nb)
    by (try assumption; rewrite ?length_drop; lia).
  cbn zeta.
  set (c2 := (Z.of_nat (bodyLength m) - Z.of_nat (length (answer m))
              =? Z.of_nat (length (authority m)))
             && negb (length (authority m) =? 0)%nat).
  destruct c2 eqn:C2; cbn [mbind result_bind].
  { apply andb_true_iff in C2 as [C2 _]. apply Z.eqb_eq in C2.
    assert (rb = []) as -> by (eapply Forall2_nil_length; [exact Hr | lia]).
    cbn [concat length] in *. rewrite !app_nil_r in *.
    rewrite !drop_drop.
    match goal with |- Ok (_, ?a, _) = Ok (_, ?b, _) =>
      assert (E : a = b); [|rewrite E; reflexivity] end.
    f_equal.
    - rewrite drop_ge by lia. rewrite app_nil_r, <- !app_assoc. reflexivity.
    - rewrite !length_app. simpl length. lia. }
  rewrite (write_records_wire _ rb)
    by (try assumption; rewrite ?length_drop; lia).
  cbn zeta.
  assert (Efin : StaticWriter.mk
            ((((([] ++ header_octets m) ++ concat qb) ++ concat ab) ++ concat nb)
               ++ concat rb
             ++ drop (length (concat rb))
                  (drop (length (concat nb))
                     (drop (length (concat ab))
                        (drop (length (concat qb)) (drop 12 R)))))
            (length ((((([] ++ header_octets m) ++ concat qb) ++ concat ab)
                        ++ concat nb) ++ concat rb))
          = StaticWriter.mk
              (header_octets m ++ concat qb ++ concat ab ++ concat nb
                 ++ concat rb) (length R)).
  { rewrite !drop_drop. f_equal.
    - rewrite drop_ge by lia. rewrite app_nil_r, <- !app_assoc. reflexivity.
    - rewrite !length_app. simpl length. lia. }
  rewrite <- app_assoc. rewrite Efin.
  set (c3 := (Z.of_nat (bodyLength m) - Z.of_nat (length (answer m))
              - Z.of_nat (length (authority m))
              =? Z.of_nat (length (additional m)))
             && negb (length (additional m) =? 0)%nat).
  destruct c3; cbn [mbind result_bind]; [reflexivity|].
  rewrite promote_code_small by lia. rewrite He, Ht, Hs.
  cbn [opt_list write_records mbind result_bind]. reflexivity.
Qed.

Lemma wire_questions_count qs qb :
  Forall2 wire_question qs qb -> (length qs <= length (concat qb))%nat.
Proof.
  induction 1 as [|q bs qs qb Hq _ IH]; [reflexivity|].
  pose proof (wire_question_length _ _ Hq).
  cbn [concat length]. rewrite length_app. lia.
Qed.

Lemma encode_plain m qb ab nb rb :
  0 <= code m < 16 ->
  e_enabled (edns m) = false -> tsig m = None -> sig0 m = None ->
  Forall2 wire_question (question m) qb ->
  Forall2 wire_record (answer m) ab ->
  Forall2 wire_record (authority m) nb ->
  Forall2 wire_record (additional m) rb ->
  (12 + length (concat qb) <= 512)%nat ->
  encode m false
  = Ok (header_octets m ++ concat qb ++ concat ab ++ concat nb ++ concat rb, m).
Proof.
  intros Hc He Ht Hs Hq Ha Hn Hr Hmax. unfold encode.
  rewrite (getSizes_plain m qb ab nb rb) by assumption.
  cbn [mbind result_bind]. cbn zeta. unfold StaticWriter.write.
  rewrite (Message_write_plain m qb ab nb rb)
    by (try assumption; apply length_replicate).
  cbn [mbind result_bind]. unfold StaticWriter.render.
  cbn [StaticWriter.offset StaticWriter.data].
  assert (L : (length (replicate (12 + length (concat qb) + length (concat ab)
                                  + length (concat nb) + length (concat rb))
                         (0 : Z))
               =? length (header_octets m ++ concat qb ++ concat ab
                          ++ concat nb ++ concat rb))%nat = true).
  { apply Nat.eqb_eq. rewrite length_replicate, !length_app.
    change (length (header_octets m)) with 12%nat. lia. }
  rewrite L. reflexivity.
Qed.

Lemma decode_plain m qb ab nb rb :
  0 <= id m < 65536 ->
  0 <= flags m < 65536 -> Z.land (flags m) 0x780f = 0 ->
  0 <= opcode m < 16 -> 0 <= code m < 16 ->
  e_enabled (edns m) = false -> tsig m = None -> sig0 m = None ->
  Forall2 wire_question (question m) qb ->
  Forall2 wire_record (answer m) ab ->
  Forall2 wire_record (authority m) nb ->
  Forall2 wire_record (additional m) rb ->
  Z.of_nat (length (question m)) < 65536 ->
  Z.of_nat (length (answer m)) < 65536 ->
  Z.of_nat (length (authority m)) < 65536 ->
  Z.of_nat (length (additional m)) < 65536 ->
  let buf :=
    header_octets m ++ concat qb ++ concat ab ++ concat nb ++ concat rb in
  decode buf
  = Ok (mkMessage (id m) (flags m) (opcode m) (code m) (question m)
          (answer m) (authority m) (additional m) new_EDNS None None
          (length buf) []).
Proof.
  intros Hid Hf Hmask Hop Hc He Ht Hs Hq Ha Hn Hr Lq La Ln Lr buf.
  assert (Ear : arcount m = length (additional m)).
  { unfold arcount. rewrite He, Ht, Hs. simpl. lia. }
  assert (H : holds buf 0 buf).
  { unfold holds. rewrite drop_0. apply firstn_all. }
  unfold buf in H at 2.
  apply holds_app in H as [Hh H]. change (length (header_octets m)) with 12%nat in H.
  apply holds_app in H as [H1 H]. apply holds_app in H as [H2 H].
  apply holds_app in H as [H3 H4]. cbn [Nat.add] in *.
  unfold decode, Message_read. cbn zeta. cbn [BufferReader.data].
  rewrite (read_header_wire new_Message m buf) by (try assumption; lia).
  cbn [mbind result_bind]. unfold read_body.
  rewrite (read_questions_wire _ _ qb) by assumption. cbn [mbind result_bind].
  rewrite (read_section_wire _ _ _ ab) by assumption. cbn [mbind result_bind].
  rewrite (read_section_wire _ _ _ nb) by assumption. cbn [mbind result_bind].
  rewrite Ear.
  rewrite (read_additional_wire _ _ rb) by assumption. cbn [mbind result_bind].
  unfold read_finish.
  assert (L : BufferReader.left
                (BufferReader.mk buf
                   (12 + length (concat qb) + length (concat ab)
                    + length (concat nb) + length (concat rb))) = 0%nat).
  { unfold BufferReader.left. cbn [BufferReader.data BufferReader.offset].
    unfold buf. rewrite !length_app.
    change (length (header_octets m)) with 12%nat. lia. }
  rewrite L. cbn [Nat.ltb Nat.leb mbind result_bind].
  rewrite foldl_push_additional, foldl_push_authority, foldl_push_answer,
    foldl_push_question.
  reflexivity.
Qed.

(** X15. A message with no EDNS, TSIG or SIG(0) record, whose identifier,
    flags, opcode and response code fit their header fields and whose
    questions and records have the wire forms [qb], [ab], [nb] and [rb],
    is encoded (without the UDP limit) as its twelve header octets followed by
    those wire forms, and [decode] of that buffer gives the message back:
    the same identifier, flags, opcode, code and sections, with the size set
    to the buffer's length and no trailing octets. *)
Theorem decode_encode_plain m qb ab nb rb :
  0 <= id m < 65536 ->
  0 <= flags m < 65536 -> Z.land (flags m) 0x780f = 0 ->
  0 <= opcode m < 16 -> 0 <= code m < 16 ->
  e_enabled (edns m) = false -> tsig m = None -> sig0 m = None ->
  Forall2 wire_question (question m) qb ->
  Forall2 wire_record (answer m) ab ->
  Forall2 wire_record (authority m) nb ->
  Forall2 wire_record (additional m) rb ->
  (12 + length (concat qb) <= 512)%nat ->
  Z.of_nat (length (answer m)) < 65536 ->
  Z.of_nat (length (authority m)) < 65536 ->
  Z.of_nat (length (additional m)) < 65536 ->
  let buf :=
    header_octets m ++ concat qb ++ concat ab ++ concat nb ++ concat rb in
  encode m false = Ok (buf, m)
  /\ decode buf
     = Ok (mkMessage (id m) (flags m) (opcode m) (code m) (question m)
             (answer m) (authority m) (additional m) new_EDNS None None
             (length buf) []).
Proof.
  intros Hid Hf Hmask Hop Hc He Ht Hs Hq Ha Hn Hr Hmax La Ln Lr buf. split.
  - apply encode_plain; assumption.
  - pose proof (wire_questions_count _ _ Hq).
    apply decode_plain; try assumption. lia.
Qed.

Lemma decode_encode_plain_witness :
  encode
    (mkMessage 4660 256 0 0 [mkQuestion "a.b." 1 1]
       [mkRecord "a." types.CNAME 1 60 (CNAMERecord "b.c.")] []
       [mkRecord "a." 65280 1 60 (UNKNOWNRecord [8; 9])] new_EDNS None None
       0 [])
    false
  = Ok ([18; 52; 1; 0; 0; 1; 0; 1; 0; 0; 0; 1;
         1; 97; 1; 98; 0; 0; 1; 0; 1;
         1; 97; 0; 0; 5; 0; 1; 0; 0; 0; 60; 0; 5; 1; 98; 1; 99; 0;
         1; 97; 0; 255; 0; 0; 1; 0; 0; 0; 60; 0; 2; 8; 9],
        mkMessage 4660 256 0 0 [mkQuestion "a.b." 1 1]
          [mkRecord "a." types.CNAME 1 60 (CNAMERecord "b.c.")] []
          [mkRecord "a." 65280 1 60 (UNKNOWNRecord [8; 9])] new_EDNS None
          None 0 [])
  /\ decode
       [18; 52; 1; 0; 0; 1; 0; 1; 0; 0; 0; 1;
        1; 97; 1; 98; 0; 0; 1; 0; 1;
        1; 97; 0; 0; 5; 0; 1; 0; 0; 0; 60; 0; 5; 1; 98; 1; 99; 0;
        1; 97; 0; 255; 0; 0; 1; 0; 0; 0; 60; 0; 2; 8; 9]
     = Ok (mkMessage 4660 256 0 0 [mkQuestion "a.b." 1 1]
             [mkRecord "a." types.CNAME 1 60 (CNAMERecord "b.c.")] []
             [mkRecord "a." 65280 1 60 (UNKNOWNRecord [8; 9])] new_EDNS None
             None 54 []).
Proof.
  apply (decode_encode_plain
           (mkMessage 4660 256 0 0 [mkQuestion "a.b." 1 1]
              [mkRecord "a." types.CNAME 1 60 (CNAMERecord "b.c.")] []
              [mkRecord "a." 65280 1 60 (UNKNOWNRecord [8; 9])] new_EDNS None
              None 0 [])
           [[1; 97; 1; 98; 0; 0; 1; 0; 1]]
           [[1; 97; 0; 0; 5; 0; 1; 0; 0; 0; 60; 0; 5; 1; 98; 1; 99; 0]]
           []
           [[1; 97; 0; 255; 0; 0; 1; 0; 0; 0; 60; 0; 2; 8; 9]]).
  - simpl. lia.
  - simpl. lia.
  - reflexivity.
  - simpl. lia.
  - simpl. lia.
  - reflexivity.
  - reflexivity.
  - reflexivity.
  - constructor; [|constructor].
    apply (wire_question_intro [[97]; [98]] 1 1).
    + split; [repeat constructor; simpl; lia | simpl; lia].
    + simpl. lia.
    + lia.
    + lia.
  - constructor; [|constructor].
    apply (wire_record_cname [[97]] [[98]; [99]] 1 60).
    + split; [repeat constructor; simpl; lia | simpl; lia].
    + simpl. lia.
    + split; [repeat constructor; simpl; lia | simpl; lia].
    + simpl. lia.
    + lia.
    + lia.
  - constructor.
  - constructor; [|constructor].
    apply (wire_record_opaque [[97]] 65280 1 60 [8; 9]).
    + split; [repeat constructor; simpl; lia | simpl; lia].
    + simpl. lia.
    + lia.
    + lia.
    + lia.
    + simpl. lia.
    + discriminate.
    + discriminate.
    + discriminate.
    + discriminate.
    + apply (bool_decide_unpack (65280 ∉ typed_records)). vm_compute. exact I.
  - simpl. lia.
  - simpl. lia.
  - simpl. lia.
  - simpl. lia.
Defined.

(** ** lib/util.js: label offsets *)

Lemma nextLabel_loop_spec s k : forall i q,
  (snd (util.nextLabel_loop s k i q) = true ->
   fst (util.nextLabel_loop s k i q) = (i + k + 1)%nat)
  /\ (snd (util.nextLabel_loop s k i q) = false ->
      (i < fst (util.nextLabel_loop s k i q) <= i + k)%nat
      /\ util.charCodeAt s (fst (util.nextLabel_loop s k i q) - 1) = 0x2e).
Proof.
  induction k as [|k IH]; intros i q.
  - simpl. split; [intros _; lia | discriminate].
  - cbn [util.nextLabel_loop]. cbv zeta.
    destruct (util.charCodeAt s i =? 92) eqn:E1.
    { destruct (IH (i + 1)%nat (negb q)) as [A B]. split.
      - intros H. rewrite (A H). lia.
      - intros H. destruct (B H) as [C D]. split; [lia | exact D]. }
    destruct (util.charCodeAt s i =? 46) eqn:E2.
    { destruct q.
      - destruct (IH (i + 1)%nat (negb true)) as [A B]. split.
        + intros H. rewrite (A H). lia.
        + intros H. destruct (B H) as [C D]. split; [lia | exact D].
      - cbn [fst snd]. split; [discriminate|]. intros _. split; [lia|].
        replace (i + 1 - 1)%nat with i by lia. apply Z.eqb_eq, E2. }
    destruct (IH (i + 1)%nat false) as [A B]. split.
    + intros H. rewrite (A H). lia.
    + intros H. destruct (B H) as [C D]. split; [lia | exact D].
Qed.

Lemma nextLabel_more s off off' :
  util.nextLabel s off = (off', false) ->
  (off < off' < String.length s)%nat /\ util.charCodeAt s (off' - 1) = 0x2e.
Proof.
  unfold util.nextLabel. intros H.
  destruct (nextLabel_loop_spec s (String.length s - 1 - off) off false)
    as [_ B].
  rewrite H in B. cbn [fst snd] in B. destruct (B eq_refl) as [C D].
  split; [lia | exact D].
Qed.

Lemma split_loop_spec s fuel : forall off idx n,
  (String.length s - off < fuel)%nat ->
  exists new,
    util.split_loop fuel s off idx = Ok (idx ++ new)
    /\ util.countLabels_loop fuel s off n = Ok (n + 1 + length new)%nat
    /\ Forall (label_start s) new
    /\ Forall (fun x => off < x)%nat new
    /\ StronglySorted lt new.
Proof.
  induction fuel as [|fuel IH]; intros off idx n Hf; [lia|].
  cbn [util.split_loop util.countLabels_loop].
  destruct (util.nextLabel s off) as [off' e] eqn:E. destruct e.
  - exists []. rewrite app_nil_r. cbn [length]. rewrite Nat.add_0_r.
    repeat split; constructor.
  - destruct (nextLabel_more _ _ _ E) as [C D].
    destruct (IH off' (idx ++ [off']) (n + 1)%nat ltac:(lia))
      as (new & A1 & A2 & A3 & A4 & A5).
    exists (off' :: new). rewrite A1, A2, <- app_assoc. cbn [length app].
    split; [reflexivity|]. split; [f_equal; lia|].
    split; [constructor; [split; [lia | exact D] | exact A3]|].
    split.
    + constructor; [lia|]. eapply Forall_impl; [exact A4|].
      cbv beta. intros x Hx. lia.
    + constructor; assumption.
Qed.

Lemma split_spec s :
  exists idx,
    util.split s = Ok idx
    /\ util.countLabels s = Ok (length idx)
    /\ (s = "." /\ idx = []
        \/ s <> "." /\ exists rest,
             idx = 0%nat :: rest /\ Forall (label_start s) rest
             /\ StronglySorted lt rest).
Proof.
  unfold util.split, util.countLabels.
  destruct (String.eqb_spec s ".") as [->|Hs].
  - exists []. repeat split. left. split; reflexivity.
  - destruct (split_loop_spec s (String.length s + 1) 0 [0%nat] 0 ltac:(lia))
      as (new & A1 & A2 & A3 & A4 & A5).
    exists (0%nat :: new). split; [exact A1|]. split; [exact A2|].
    right. split; [exact Hs|]. exists new. repeat split; assumption.
Qed.

(** X16. [split] and [countLabels] return on every string, and the number
    [countLabels] returns is the number of offsets [split] returns. *)
Theorem countLabels_split s :
  exists idx, util.split s = Ok idx /\ util.countLabels s = Ok (length idx).
Proof.
  destruct (split_spec s) as (idx & A & B & _). exists idx. split; assumption.
Qed.

(** X17. For a name other than the root, the offsets [split] returns start
    with 0 and increase strictly, and every later offset lies inside the
    string, right after a dot. *)
Theorem split_offsets s idx :
  util.split s = Ok idx -> s <> "." ->
  exists rest,
    idx = 0%nat :: rest
    /\ StronglySorted lt idx
    /\ Forall (fun x => (x < String.length s)%nat
                        /\ util.charCodeAt s (x - 1) = 0x2e) rest.
Proof.
  intros H Hs. destruct (split_spec s) as (idx' & A & _ & [[E _]|[_ C]]);
    [contradiction|].
  rewrite H in A. injection A as <-. destruct C as (rest & -> & F & S).
  exists rest. split; [reflexivity|]. split.
  - constructor; [exact S|]. eapply Forall_impl; [exact F|].
    intros x [Hx _]. lia.
  - eapply Forall_impl; [exact F|]. intros x [Hx Hd]. split; [lia | exact Hd].
Qed.

Lemma split_offsets_witness :
  exists rest,
    [0; 4; 12]%nat = 0%nat :: rest
    /\ StronglySorted lt [0; 4; 12]%nat
    /\ Forall (fun x => (x < String.length "www.example.com.")%nat
                        /\ util.charCodeAt "www.example.com." (x - 1) = 0x2e)
         rest.
Proof.
  apply (split_offsets "www.example.com." [0; 4; 12]%nat).
  - reflexivity.
  - discriminate.
Defined.

(** ** lib/util.js: labels *)

Lemma substring_add (s : string) : forall n m1 m2,
  String.substring n (m1 + m2) s
  = String.substring n m1 s +:+ String.substring (n + m1) m2 s.
Proof.
  induction s as [|c s IH]; intros n m1 m2.
  - destruct n, m1, m2; reflexivity.
  - destruct n as [|n].
    + destruct m1 as [|m1].
      * reflexivity.
      * cbn [Nat.add String.substring]. rewrite string_app_cons.
        f_equal. apply (IH 0%nat).
    + cbn [Nat.add String.substring]. apply IH.
Qed.

Lemma substring_prefix_split (s : string) b c :
  (b <= c)%nat ->
  String.substring 0 c s
  = String.substring 0 b s +:+ String.substring b (c - b) s.
Proof.
  intros H. replace c with (b + (c - b))%nat at 1 by lia.
  apply (substring_add s 0).
Qed.

Lemma substring_dot (s : string) : forall i,
  util.charCodeAt s i = 0x2e -> String.substring i 1 s = ".".
Proof.
  unfold util.charCodeAt. induction s as [|c s IH]; intros i H.
  - destruct i; discriminate.
  - destruct i as [|i].
    + cbn [String.get] in H. cbn [String.substring].
      assert (c = "."%char) as ->.
      { rewrite <- (ascii_nat_embedding c).
        replace (nat_of_ascii c) with 46%nat by lia. reflexivity. }
      destruct s; reflexivity.
    + cbn [String.get] in H. cbn [String.substring]. apply IH, H.
Qed.

Lemma js_substring_in (s : string) a b :
  (a <= b <= String.length s)%nat ->
  util.js_substring s a b = String.substring a (b - a) s.
Proof.
  intros H. unfold util.js_substring. cbv zeta.
  rewrite !Nat.min_l, Nat.max_r by lia.
  - reflexivity.
Qed.

Lemma concat_snoc sep (ls : list string) x :
  String.concat sep (ls ++ [x])
  = fold_right (fun l acc => l +:+ sep +:+ acc) "" ls +:+ x.
Proof.
  induction ls as [|l ls IH]; [reflexivity|].
  cbn [app fold_right]. rewrite !string_app_assoc, <- IH.
  destruct ls; reflexivity.
Qed.

Lemma fold_dotted_snoc sep (ls : list string) x :
  fold_right (fun l acc => l +:+ sep +:+ acc) "" (ls ++ [x])
  = fold_right (fun l acc => l +:+ sep +:+ acc) "" ls +:+ x +:+ sep.
Proof.
  induction ls as [|l ls IH].
  - cbn [app fold_right]. rewrite string_app_nil_r. reflexivity.
  - cbn [app fold_right]. rewrite IH, !string_app_assoc. reflexivity.
Qed.

Lemma splitName_loop_spec s rest : forall begin labels,
  Forall (label_start s) rest ->
  StronglySorted lt (begin :: rest) ->
  (begin < String.length s)%nat ->
  fold_right (fun l acc => l +:+ "." +:+ acc) "" labels
  = String.substring 0 begin s ->
  exists b' labels',
    util.splitName_loop s rest begin labels = (b', labels')
    /\ (b' < String.length s)%nat
    /\ length labels' = (length labels + length rest)%nat
    /\ fold_right (fun l acc => l +:+ "." +:+ acc) "" labels'
       = String.substring 0 b' s.
Proof.
  induction rest as [|e rest IH]; intros begin labels HF HS Hb Hl.
  - exists begin, labels. cbn [length]. rewrite Nat.add_0_r.
    repeat split; assumption.
  - apply Forall_cons in HF as [[He Hd] HF].
    apply StronglySorted_inv in HS as [HS Hlt].
    apply Forall_cons in Hlt as [Hlt _].
    cbn [util.splitName_loop].
    destruct (IH e (labels ++ [util.js_substring s begin (e - 1)]) HF HS
                ltac:(lia)) as (b' & labels' & A & B & C & D).
    { rewrite fold_dotted_snoc, Hl, js_substring_in by lia.
      rewrite (substring_prefix_split s (e - 1) e) by lia.
      rewrite (substring_prefix_split s begin (e - 1)) by lia.
      replace (e - (e - 1))%nat with 1%nat by lia.
      rewrite (substring_dot s (e - 1) Hd). symmetry. apply string_app_assoc. }
    exists b', labels'. rewrite A. split; [reflexivity|]. split; [exact B|].
    split; [|exact D]. rewrite C, length_app. cbn [length]. lia.
Qed.

Lemma isFQDN_charCode s :
  (String.length s =? 0)%nat = false ->
  util.isFQDN s = (util.charCodeAt s (String.length s - 1) =? 0x2e).
Proof.
  intros H. unfold util.isFQDN, util.charCodeAt. rewrite H.
  destruct (String.get (String.length s - 1) s) as [c|]; [|reflexivity].
  destruct (Ascii.eqb_spec c ".") as [->|N]; [reflexivity|].
  symmetry. apply Z.eqb_neq. intros E. apply N.
  rewrite <- (ascii_nat_embedding c).
  replace (nat_of_ascii c) with 46%nat by lia. reflexivity.
Qed.

(** X18. [splitName] returns on every string; joining its labels with dots
    gives the name without its final dot, as [trimFQDN] returns it, and for
    a non-empty name there are as many labels as [countLabels] counts. *)
Theorem splitName_join s :
  exists labels,
    util.splitName s = Ok labels
    /\ String.concat "." labels = util.trimFQDN s
    /\ (s <> "" -> util.countLabels s = Ok (length labels)).
Proof.
  unfold util.splitName, util.trimFQDN.
  destruct (String.length s =? 0)%nat eqn:E0.
  { exists []. destruct s; [|discriminate]. repeat split. contradiction. }
  apply Nat.eqb_neq in E0.
  destruct (split_spec s) as (idx & A & B & [[-> ->]|[Hs (rest & -> & F & S)]]).
  { exists []. repeat split. }
  rewrite A. cbn [mbind result_bind]. cbv zeta.
  rewrite (isFQDN_charCode s) by (apply Nat.eqb_neq; exact E0).
  assert (HS : StronglySorted lt (0%nat :: rest)).
  { constructor; [exact S|]. eapply Forall_impl; [exact F|].
    intros x [Hx _]. lia. }
  destruct (splitName_loop_spec s rest 0 [] F HS ltac:(lia)
              ltac:(destruct s; reflexivity))
    as (b' & labels' & L1 & L2 & L3 & L4).
  rewrite L1.
  eexists. split; [reflexivity|]. split.
  - rewrite concat_snoc, L4.
    set (fend := if util.charCodeAt s (String.length s - 1) =? 46
                 then (String.length s - 1)%nat else String.length s).
    assert (Hf : (b' <= fend <= String.length s)%nat).
    { unfold fend. destruct (_ =? _); lia. }
    rewrite js_substring_in by exact Hf.
    rewrite <- (substring_prefix_split s b' fend) by lia.
    unfold fend, util.slice_0_m1.
    destruct (_ =? _); [reflexivity | apply substring_0_length].
  - intros _. rewrite B. rewrite length_app, L3. cbn [length].
    f_equal. lia.
Qed.

Lemma splitName_join_witness :
  exists labels,
    util.splitName "www.example.com." = Ok labels
    /\ String.concat "." labels = util.trimFQDN "www.example.com."
    /\ ("www.example.com." <> "" ->
        util.countLabels "www.example.com." = Ok (length labels)).
Proof. apply (splitName_join "www.example.com."). Defined.

(** ** lib/util.js: parents *)

Lemma split_loop_offsets s fuel : forall off idx n,
  (String.length s - off < fuel)%nat ->
  exists new,
    util.split_loop fuel s off idx = Ok (idx ++ new)
    /\ util.countLabels_loop fuel s off n = Ok (n + 1 + length new)%nat
    /\ offsets_from s off new.
Proof.
  induction fuel as [|fuel IH]; intros off idx n Hf; [lia|].
  cbn [util.split_loop util.countLabels_loop].
  destruct (util.nextLabel s off) as [off' e] eqn:E. destruct e.
  - exists []. rewrite app_nil_r. cbn [length]. rewrite Nat.add_0_r.
    repeat split. econstructor. exact E.
  - destruct (nextLabel_more _ _ _ E) as [C D].
    destruct (IH off' (idx ++ [off']) (n + 1)%nat ltac:(lia))
      as (new & A1 & A2 & A3).
    exists (off' :: new). rewrite A1, A2, <- app_assoc. cbn [length app].
    split; [reflexivity|]. split; [f_equal; lia|].
    econstructor; eassumption.
Qed.

Lemma split_offsets_from s :
  s <> "." ->
  exists new,
    util.split s = Ok (0%nat :: new)
    /\ util.countLabels s = Ok (S (length new))
    /\ offsets_from s 0 new.
Proof.
  intros Hs. unfold util.split, util.countLabels.
  destruct (String.eqb_spec s ".") as [E|_]; [contradiction|].
  destruct (split_loop_offsets s (String.length s + 1) 0 [0%nat] 0 ltac:(lia))
    as (new & A1 & A2 & A3).
  exists new. split; [exact A1|]. split; [exact A2 | exact A3].
Qed.

Lemma offsets_from_unique s off new :
  offsets_from s off new -> forall new', offsets_from s off new' -> new = new'.
Proof.
  induction 1 as [off off' E|off off' new E H IH]; intros new' H';
    inversion H' as [o o' E'|o o' n' E' H'']; subst.
  - reflexivity.
  - rewrite E in E'. discriminate.
  - rewrite E in E'. discriminate.
  - rewrite E in E'. injection E' as <-. f_equal. apply IH, H''.
Qed.

Lemma offsets_from_member s off new k :
  offsets_from s off new -> k ∈ new ->
  exists a b, new = a ++ k :: b /\ offsets_from s k b.
Proof.
  induction 1 as [off off' E|off off' new E H IH]; intros Hk.
  - inversion Hk.
  - apply elem_of_cons in Hk as [->|Hk].
    + exists [], new. split; [reflexivity | exact H].
    + destruct (IH Hk) as (a & b & -> & Hb).
      exists (off' :: a), b. split; [reflexivity | exact Hb].
Qed.

Lemma get_app_skip (pre p : string) i :
  String.get (String.length pre + i) (pre +:+ p) = String.get i p.
Proof. induction pre as [|c pre IH]; [reflexivity | exact IH]. Qed.

Lemma charCodeAt_app_skip (pre p : string) i :
  util.charCodeAt (pre +:+ p) (String.length pre + i) = util.charCodeAt p i.
Proof. unfold util.charCodeAt. rewrite get_app_skip. reflexivity. Qed.

Lemma nextLabel_loop_shift (pre p : string) k : forall i q,
  util.nextLabel_loop (pre +:+ p) k (String.length pre + i) q
  = ((String.length pre + fst (util.nextLabel_loop p k i q))%nat,
     snd (util.nextLabel_loop p k i q)).
Proof.
  induction k as [|k IH]; intros i q.
  - cbn [util.nextLabel_loop fst snd]. f_equal. lia.
  - cbn [util.nextLabel_loop]. cbv zeta. rewrite charCodeAt_app_skip.
    replace (String.length pre + i + 1)%nat
      with (String.length pre + (i + 1))%nat by lia.
    destruct (util.charCodeAt p i =? 92); [apply IH|].
    destruct (util.charCodeAt p i =? 46); [|apply IH].
    destruct q; [apply IH|]. reflexivity.
Qed.

Lemma nextLabel_shift (pre p : string) off off' e :
  util.nextLabel p off = (off', e) ->
  util.nextLabel (pre +:+ p) (String.length pre + off)
  = ((String.length pre + off')%nat, e).
Proof.
  unfold util.nextLabel. intros H.
  replace (String.length (pre +:+ p) - 1 - (String.length pre + off))%nat
    with (String.length p - 1 - off)%nat
    by (rewrite string_length_app; lia).
  rewrite nextLabel_loop_shift, H. reflexivity.
Qed.

Lemma offsets_from_shift (pre p : string) off new :
  offsets_from p off new ->
  offsets_from (pre +:+ p) (String.length pre + off)
    (Nat.add (String.length pre) <$> new).
Proof.
  induction 1 as [off off' E|off off' new E H IH].
  - econstructor. apply nextLabel_shift, E.
  - cbn [fmap list_fmap]. econstructor; [apply nextLabel_shift, E | exact IH].
Qed.

Lemma substring_app_skip (pre p : string) n m :
  String.substring (String.length pre + n) m (pre +:+ p)
  = String.substring n m p.
Proof. induction pre as [|c pre IH]; [reflexivity | exact IH]. Qed.

Lemma js_substring_shift (pre p : string) x y :
  util.js_substring (pre +:+ p) (String.length pre + x) (String.length pre + y)
  = util.js_substring p x y.
Proof.
  unfold util.js_substring. cbv zeta. rewrite string_length_app.
  rewrite !Nat.add_min_distr_l, Nat.add_max_distr_l.
  replace (String.length pre + (x `min` String.length p) `max` (y `min` String.length p)
           - (String.length pre + (x `min` String.length p) `min` (y `min` String.length p)))%nat
    with ((x `min` String.length p) `max` (y `min` String.length p)
          - (x `min` String.length p) `min` (y `min` String.length p))%nat by lia.
  apply substring_app_skip.
Qed.

Lemma index_in (l : list nat) (t : nat) :
  util.index l (Z.of_nat t) = l !! t.
Proof.
  unfold util.index. destruct (Z.ltb_spec (Z.of_nat t) 0); [lia|].
  rewrite Nat2Z.id. reflexivity.
Qed.

Section Parent.

Variables (pre p : string) (A l1 : list nat).
Let child := pre +:+ p.
Let k := String.length pre.
Let l2 := A ++ (Nat.add k <$> l1).

Lemma index_child t x :
  l1 !! t = Some x ->
  util.index l2 (Z.of_nat (length A) + Z.of_nat t) = Some (k + x)%nat.
Proof.
  intros H. rewrite <- Nat2Z.inj_add, index_in. unfold l2.
  rewrite lookup_app_r by lia.
  replace (length A + t - length A)%nat with t by lia.
  rewrite list_lookup_fmap, H. reflexivity.
Qed.

Lemma compareName_loop_parent fuel : forall t n,
  (t < length l1)%nat -> (t < fuel)%nat ->
  util.compareName_loop fuel p child l1 l2
    (Z.of_nat t - 1) (Z.of_nat t)
    (Z.of_nat (length A) + Z.of_nat t - 1) (Z.of_nat (length A) + Z.of_nat t)
    n
  = Ok (n + t)%nat.
Proof.
  induction fuel as [|fuel IH]; intros t n Ht Hf; [lia|].
  cbn [util.compareName_loop].
  destruct t as [|t].
  - change (Z.of_nat 0 - 1 <? 0) with true. cbn [orb]. f_equal. lia.
  - destruct (Z.ltb_spec (Z.of_nat (S t) - 1) 0); [lia|].
    destruct (Z.ltb_spec (Z.of_nat (length A) + Z.of_nat (S t) - 1) 0); [lia|].
    cbn [orb]. cbv zeta.
    destruct (lookup_lt_is_Some_2 l1 t ltac:(lia)) as [x Hx].
    destruct (lookup_lt_is_Some_2 l1 (S t) ltac:(lia)) as [y Hy].
    replace (Z.of_nat (S t) - 1) with (Z.of_nat t) by lia.
    replace (Z.of_nat (length A) + Z.of_nat (S t) - 1)
      with (Z.of_nat (length A) + Z.of_nat t) by lia.
    rewrite !index_in, Hx, Hy.
    rewrite (index_child t x Hx), (index_child (S t) y Hy).
    unfold util.js_substring_opt. cbn [from_option Datatypes.id].
    unfold child, k.
    rewrite js_substring_shift, String.eqb_refl. cbn [negb].
    fold child. fold k.
    rewrite (IH t (n + 1)%nat) by lia. f_equal. lia.
Qed.

Lemma compareName_parent :
  p <> "." -> child <> "." ->
  util.split p = Ok l1 -> util.split child = Ok l2 -> l1 <> [] ->
  util.compareName p child = Ok (length l1).
Proof.
  intros Hp Hc H1 H2 Hne. unfold util.compareName.
  destruct (String.eqb_spec p "."); [contradiction|].
  destruct (String.eqb_spec child "."); [contradiction|].
  cbn [orb]. rewrite H1, H2. cbn [mbind result_bind]. cbv zeta.
  assert (Hl : (0 < length l1)%nat).
  { apply Nat.neq_0_lt_0. intros E. apply Hne, nil_length_inv, E. }
  set (t := (length l1 - 1)%nat).
  assert (L2 : Z.of_nat (length l2)
               = Z.of_nat (length A) + Z.of_nat (S t)).
  { unfold l2. rewrite length_app, length_fmap. unfold t. lia. }
  destruct (lookup_lt_is_Some_2 l1 t ltac:(unfold t; lia)) as [x Hx].
  replace (Z.of_nat (length l1) - 1) with (Z.of_nat t) by (unfold t; lia).
  replace (Z.of_nat (length l2) - 1)
    with (Z.of_nat (length A) + Z.of_nat t) by lia.
  rewrite index_in, Hx, (index_child _ x Hx).
  unfold util.js_substring_opt. cbn [from_option Datatypes.id].
  replace (String.length child) with (k + String.length p)%nat
    by (unfold child, k; rewrite string_length_app; reflexivity).
  unfold child at 1, k. rewrite js_substring_shift, String.eqb_refl.
  cbn [negb]. fold k.
  replace (Z.of_nat (length l1) - 2) with (Z.of_nat t - 1) by (unfold t; lia).
  replace (Z.of_nat (length l2) - 2)
    with (Z.of_nat (length A) + Z.of_nat t - 1) by lia.
  rewrite compareName_loop_parent by (unfold t; lia).
  f_equal. unfold t. lia.
Qed.

End Parent.

(** X19. If the child name is [pre] followed by the parent name, and the
    parent starts at one of the label offsets [split] finds in the child,
    then [isSubdomain(parent, child)] is true. *)
Theorem isSubdomain_label_suffix (pre p : string) idx :
  util.split (pre +:+ p) = Ok idx -> String.length pre ∈ idx ->
  util.isSubdomain p (pre +:+ p) = Ok true.
Proof.
  intros H Hk. unfold util.isSubdomain.
  destruct (String.eqb_spec p ".") as [->|Hp].
  { unfold util.compareName. cbn [String.eqb Ascii.eqb orb].
    reflexivity. }
  destruct (String.eqb_spec (pre +:+ p) ".") as [Ec|Hc].
  { rewrite Ec in H. injection H as <-. inversion Hk. }
  destruct (split_offsets_from p Hp) as (np & P1 & P2 & P3).
  destruct (split_offsets_from _ Hc) as (nc & C1 & C2 & C3).
  rewrite H in C1. injection C1 as ->.
  assert (D : exists A, 0%nat :: nc
                        = A ++ (Nat.add (String.length pre) <$> 0%nat :: np)).
  { apply elem_of_cons in Hk as [E0|Hk].
    - exists []. pose proof (offsets_from_shift pre p 0 np P3) as S.
      rewrite Nat.add_0_r in S. rewrite E0 in S |- *.
      rewrite (offsets_from_unique _ _ _ C3 _ S). reflexivity.
    - destruct (offsets_from_member _ _ _ _ C3 Hk) as (a & b & -> & Hb).
      pose proof (offsets_from_shift pre p 0 np P3) as S.
      rewrite Nat.add_0_r in S.
      rewrite (offsets_from_unique _ _ _ Hb _ S).
      exists (0%nat :: a). cbn [app fmap list_fmap].
      rewrite Nat.add_0_r. reflexivity. }
  destruct D as (A & D). rewrite D in H.
  rewrite (compareName_parent pre p A (0%nat :: np) Hp Hc P1 H ltac:(discriminate)).
  rewrite P2. cbn [mbind result_bind length]. rewrite Nat.eqb_refl.
  reflexivity.
Qed.

Lemma isSubdomain_label_suffix_witness :
  util.isSubdomain "example.com." "www.example.com." = Ok true.
Proof.
  apply (isSubdomain_label_suffix "www." "example.com." [0; 4; 12]%nat).
  - reflexivity.
  - apply (bool_decide_unpack (4%nat ∈ [0; 4; 12]%nat)). vm_compute. exact I.
Defined.

(** X20. Every name is a subdomain of itself and of the root, and the root
    is a subdomain of no other name. *)
Theorem isSubdomain_self_root (s : string) :
  util.isSubdomain s s = Ok true
  /\ util.isSubdomain "." s = Ok true
  /\ (s <> "." -> util.isSubdomain s "." = Ok false).
Proof.
  split; [|split].
  - destruct (String.eqb_spec s ".") as [->|Hs]; [reflexivity|].
    destruct (split_offsets_from s Hs) as (new & A & B & _).
    pose proof (compareName_parent "" s [] (0%nat :: new) Hs Hs A) as C.
    cbv zeta in C. cbn [app String.length] in C.
    change (Nat.add 0) with (@Datatypes.id nat) in C.
    rewrite list_fmap_id in C. change ("" +:+ s) with s in C.
    unfold util.isSubdomain.
    rewrite (C A ltac:(discriminate)).
    rewrite B. cbn [mbind result_bind length]. rewrite Nat.eqb_refl.
    reflexivity.
  - reflexivity.
  - intros Hs. unfold util.isSubdomain, util.compareName.
    cbn [String.eqb Ascii.eqb]. rewrite orb_true_r.
    cbn [mbind result_bind].
    destruct (split_offsets_from s Hs) as (new & _ & B & _).
    rewrite B. reflexivity.
Qed.

Lemma isSubdomain_self_root_witness :
  util.isSubdomain "example.com." "example.com." = Ok true
  /\ util.isSubdomain "." "example.com." = Ok true
  /\ ("example.com." <> "." -> util.isSubdomain "example.com." "." = Ok false).
Proof. apply (isSubdomain_self_root "example.com."). Defined.

(** ** lib/util.js: prefixes and suffixes *)

Lemma prefix_app (pre s : string) : String.prefix pre (pre +:+ s) = true.
Proof.
  induction pre as [|c pre IH]; [destruct s; reflexivity|].
  simpl. destruct (ascii_dec c c); [exact IH | contradiction].
Qed.

Lemma substring_app_prefix (a b : string) :
  String.substring 0 (String.length a) (a +:+ b) = a.
Proof.
  induction a as [|c a IH]; [destruct b; reflexivity|].
  simpl. rewrite IH. reflexivity.
Qed.

Lemma substring_none (s : string) : forall n, String.substring n 0 s = "".
Proof.
  induction s as [|c s IH]; intros [|n]; try reflexivity. apply IH.
Qed.

Lemma endsWith_app (s suf : string) : util.endsWith (s +:+ suf) suf = true.
Proof.
  unfold util.endsWith. rewrite string_length_app.
  replace (String.length s + String.length suf - String.length suf)%nat
    with (String.length s + 0)%nat by lia.
  rewrite substring_app_skip, substring_0_length, String.eqb_refl.
  rewrite andb_true_r. apply Nat.leb_le. lia.
Qed.

(** X21. [trimPrefix] removes a prefix that is there and [trimSuffix] a
    non-empty suffix that is there; with the empty suffix [trimSuffix]
    returns the empty string, whatever the string. *)
Theorem trimPrefix_trimSuffix (pre s suf : string) :
  util.trimPrefix (pre +:+ s) pre = s
  /\ (suf <> "" -> util.trimSuffix (s +:+ suf) suf = s)
  /\ util.trimSuffix s "" = "".
Proof.
  split; [|split].
  - unfold util.trimPrefix, util.startsWith. rewrite prefix_app.
    rewrite string_length_app.
    replace (String.length pre + String.length s - String.length pre)%nat
      with (String.length s) by lia.
    rewrite <- (Nat.add_0_r (String.length pre)) at 1.
    rewrite substring_app_skip. apply substring_0_length.
  - intros Hs. unfold util.trimSuffix. rewrite endsWith_app.
    destruct (Nat.eqb_spec (String.length suf) 0) as [E|_].
    { destruct suf; [contradiction | discriminate]. }
    rewrite string_length_app.
    replace (String.length s + String.length suf - String.length suf)%nat
      with (String.length s) by lia.
    apply substring_app_prefix.
  - unfold util.trimSuffix.
    rewrite <- (string_app_nil_r s) at 1. rewrite endsWith_app.
    apply substring_none.
Qed.

Lemma trimPrefix_trimSuffix_witness :
  util.trimPrefix "www.example.com." "www." = "example.com."
  /\ util.trimSuffix "www.example.com." ".com." = "www.example"
  /\ util.trimSuffix "www.example" "" = "".
Proof.
  destruct (trimPrefix_trimSuffix "www." "example.com." ".com.")
    as (A & _ & _).
  destruct (trimPrefix_trimSuffix "" "www.example" ".com.") as (_ & B & C).
  split; [exact A|]. split; [apply B; discriminate | exact C].
Defined.

(** ** Responding to a request *)

Lemma respond_fields DO m req :
  let m1 := mkMessage (id req) (flags m) (opcode req) (code m) (question m)
              (answer m) (authority m) (additional m) (edns m) (tsig m)
              (sig0 m) (size m) (trailing m) in
  let m4 := (setFlag (setFlag (setFlag m1 flags.QR true).1 flags.RD
                        (getFlag req flags.RD)).1 flags.CD
               (getFlag req flags.CD)).1 in
  let r := respond DO m req in
  flags r = flags m4
  /\ id r = id req /\ opcode r = opcode req /\ question r = question req
  /\ answer r = answer m /\ authority r = authority m
  /\ additional r = additional m /\ tsig r = tsig m /\ sig0 r = sig0 m.
Proof.
  cbv zeta. unfold respond. cbv zeta.
  destruct (e_enabled (edns req)).
  - repeat split.
  - unfold unsetEDNS. cbv zeta.
    match goal with |- context [if ?c then _ else _] => destruct c end;
      repeat split.
Qed.

(** X22. [respond(req)], called on a message other than [req], takes the
    identifier, the opcode and the questions of the request, sets QR, copies
    RD and CD from the request and leaves every other flag, the record
    sections and the signatures as they were.  EDNS is enabled exactly when
    the request has it: then with the request's size, its DO flag and no
    options, and the code is kept; otherwise EDNS is reset and an extended
    code (above 15) becomes NOERROR. *)
Theorem respond_request DO m req :
  let r := respond DO m req in
  id r = id req /\ opcode r = opcode req /\ question r = question req
  /\ getFlag r flags.QR = true
  /\ getFlag r flags.RD = getFlag req flags.RD
  /\ getFlag r flags.CD = getFlag req flags.CD
  /\ (forall other,
        js.and flags.QR other = 0 -> js.and flags.RD other = 0 ->
        js.and flags.CD other = 0 -> getFlag r other = getFlag m other)
  /\ answer r = answer m /\ authority r = authority m
  /\ additional r = additional m /\ tsig r = tsig m /\ sig0 r = sig0 m
  /\ isEDNS r = isEDNS req
  /\ (isEDNS req = true ->
      e_size (edns r) = e_size (edns req) /\ e_options (edns r) = []
      /\ code r = code m
      /\ (js.toInt32 DO <> 0 -> isDNSSEC DO r = isDNSSEC DO req))
  /\ (isEDNS req = false ->
      edns r = new_EDNS
      /\ code r = if 0x0f <? code m then codes.NOERROR else code m).
Proof.
  cbv zeta.
  destruct (respond_fields DO m req)
    as (F & H1 & H2 & H3 & H4 & H5 & H6 & H7 & H8).
  assert (G : forall b,
            getFlag (respond DO m req) b
            = getFlag
                (setFlag
                   (setFlag
                      (setFlag
                         (mkMessage (id req) (flags m) (opcode req) (code m)
                            (question m) (answer m) (authority m)
                            (additional m) (edns m) (tsig m) (sig0 m)
                            (size m) (trailing m)) flags.QR true).1
                      flags.RD (getFlag req flags.RD)).1 flags.CD
                   (getFlag req flags.CD)).1 b).
  { intros b. unfold getFlag at 1 2. rewrite F. reflexivity. }
  repeat match goal with |- _ /\ _ => split end; try assumption.
  - rewrite G, getFlag_setFlag_other, getFlag_setFlag_other,
      getFlag_setFlag_same; [reflexivity | discriminate | reflexivity..].
  - rewrite G, getFlag_setFlag_other, getFlag_setFlag_same;
      [reflexivity | discriminate | reflexivity].
  - rewrite G, getFlag_setFlag_same; [reflexivity | discriminate].
  - intros other A B C.
    rewrite G, !getFlag_setFlag_other by assumption. reflexivity.
  - unfold isEDNS, respond. cbv zeta.
    destruct (e_enabled (edns req)); [reflexivity|].
    unfold unsetEDNS. cbv zeta.
    match goal with |- context [if ?c then _ else _] => destruct c end;
      reflexivity.
  - unfold isEDNS, respond. cbv zeta. intros E. rewrite E.
    repeat split. intros HD. unfold isDNSSEC. rewrite E.
    unfold setEDNS, set_edns, set_dnssec, EDNS_setFlag, EDNS_reset.
    cbv zeta. cbn [edns e_enabled e_flags fst negb].
    unfold dnssec, EDNS_getFlag. cbn [e_flags].
    apply (flag_set_same 0 DO _ HD).
  - unfold isEDNS, respond. cbv zeta. intros E. rewrite E.
    unfold unsetEDNS. cbv zeta.
    match goal with |- context [if ?c then _ else _] =>
      change c with (0x0f <? code m) end.
    destruct (0x0f <? code m); split; reflexivity.
Qed.


Lemma respond_request_witness :
  id (respond 0x8000 new_Message examples.tc_query) = id examples.tc_query
  /\ getFlag (respond 0x8000 new_Message examples.tc_query) flags.QR = true
  /\ getFlag (respond 0x8000 new_Message examples.tc_query) flags.TC
     = getFlag new_Message flags.TC
  /\ isEDNS (respond 0x8000 new_Message examples.tc_query)
     = isEDNS examples.tc_query.
Proof.
  destruct (respond_request 0x8000 new_Message examples.tc_query)
    as (A & _ & _ & B & _ & _ & C & _ & _ & _ & _ & _ & D & _).
  split; [exact A|]. split; [exact B|]. split; [|exact D].
  apply C; vm_compute; reflexivity.
Defined.

(** ** Buffers that end early *)

(** X23. [decode] of a buffer shorter than the twelve octets of the header
    throws an out-of-bounds encoding error, at the offset of the first
    16-bit field that does not fit. *)
Theorem decode_short_header (data : list Z) :
  (length data < 12)%nat ->
  decode data
  = Err (EncodingError (2 * (length data / 2)) "Out of bounds read").
Proof.
  intros H.
  do 12 (destruct data as [|? data]; [reflexivity|]).
  simpl in H. lia.
Qed.

Lemma decode_short_header_witness :
  decode [0; 1; 2; 3; 4] = Err (EncodingError 4 "Out of bounds read").
Proof. apply (decode_short_header [0; 1; 2; 3; 4]). simpl. lia. Defined.

Lemma read_questions_short d qs qb extra : forall m o,
  Forall2 wire_question qs qb -> holds d o (concat qb) ->
  length d = (o + length (concat qb))%nat ->
  read_questions (length qs + S extra) m (BufferReader.mk d o)
  = Ok (RReturn (foldl push_question m qs)).
Proof.
  intros m o H. revert m o.
  induction H as [|q bs qs qb Hq _ IH]; intros m o Hh Hl.
  - cbn [length Nat.add read_questions foldl concat] in *.
    unfold BufferReader.left. cbn [BufferReader.data BufferReader.offset].
    replace (length d - o)%nat with 0%nat by lia. reflexivity.
  - cbn [concat] in *. apply holds_app in Hh as [H1 H2].
    pose proof (wire_question_length _ _ Hq).
    assert (Hne : bs <> []) by (destruct bs; [simpl in *; lia | discriminate]).
    cbn [length Nat.add read_questions].
    rewrite (holds_left _ _ bs H1 Hne).
    rewrite (wire_question_read _ _ _ _ Hq H1). cbn [mbind result_bind].
    rewrite length_app in Hl.
    rewrite IH by (try assumption; lia). reflexivity.
Qed.

(** X24. When the header announces more questions than the buffer holds
    and the buffer ends right after a question, [decode] returns without an
    error: the message has the questions read so far and no records, and its
    size is still 0, since the early return skips the end of [read]. *)
Theorem decode_truncated_questions id_ bits qd an ns ar qs qb :
  0 <= id_ < 65536 -> 0 <= bits < 65536 -> Z.of_nat qd < 65536 ->
  0 <= an < 65536 -> 0 <= ns < 65536 -> 0 <= ar < 65536 ->
  Forall2 wire_question qs qb -> (length qs < qd)%nat ->
  decode (StaticWriter.u16be id_ ++ StaticWriter.u16be bits
          ++ StaticWriter.u16be (Z.of_nat qd) ++ StaticWriter.u16be an
          ++ StaticWriter.u16be ns ++ StaticWriter.u16be ar ++ concat qb)
  = Ok (mkMessage id_
          (js.and (js.and bits (js.not (js.shl 0x0f 11))) (js.not 0x0f))
          (js.and (js.ushr bits 11) 0x0f) (js.and bits 0x0f)
          qs [] [] [] new_EDNS None None 0 []).
Proof.
  intros Hid Hb Hq Ha Hn Hr HF Hlt.
  set (buf := StaticWriter.u16be id_ ++ _).
  assert (H : holds buf 0 buf).
  { unfold holds. rewrite drop_0. apply firstn_all. }
  unfold buf in H at 2.
  apply holds_app in H as [H1 H]. apply holds_app in H as [H2 H].
  apply holds_app in H as [H3 H]. apply holds_app in H as [H4 H].
  apply holds_app in H as [H5 H]. apply holds_app in H as [H6 H7].
  cbn [length StaticWriter.u16be Nat.add] in *.
  unfold decode, Message_read. cbv zeta. unfold read_header.
  rewrite (readU16BE_holds _ _ id_) by assumption.
  cbn [mbind result_bind Nat.add].
  rewrite (readU16BE_holds _ _ bits) by assumption.
  cbn [mbind result_bind Nat.add].
  rewrite (readU16BE_holds _ _ (Z.of_nat qd)) by (try assumption; lia).
  cbn [mbind result_bind Nat.add].
  rewrite (readU16BE_holds _ _ an) by assumption.
  cbn [mbind result_bind Nat.add].
  rewrite (readU16BE_holds _ _ ns) by assumption.
  cbn [mbind result_bind Nat.add].
  rewrite (readU16BE_holds _ _ ar) by assumption.
  cbn [mbind result_bind Nat.add]. rewrite Nat2Z.id.
  unfold read_body.
  replace qd with (length qs + S (qd - length qs - 1))%nat by lia.
  rewrite (read_questions_short buf qs qb) by
    (try assumption; unfold buf; rewrite !length_app; reflexivity).
  cbn [mbind result_bind]. rewrite foldl_push_question. reflexivity.
Qed.

Lemma decode_truncated_questions_witness :
  decode [18; 52; 1; 0; 0; 2; 0; 0; 0; 0; 0; 0;
          1; 97; 1; 98; 0; 0; 1; 0; 1]
  = Ok (mkMessage 4660 256 0 0 [mkQuestion "a.b." 1 1] [] [] [] new_EDNS
          None None 0 []).
Proof.
  apply (decode_truncated_questions 4660 256 2 0 0 0
           [mkQuestion "a.b." 1 1] [[1; 97; 1; 98; 0; 0; 1; 0; 1]]);
    try lia.
  - constructor; [|constructor].
    apply (wire_question_intro [[97]; [98]] 1 1).
    + split; [repeat constructor; simpl; lia | simpl; lia].
    + simpl. lia.
    + lia.
    + lia.
  - simpl. lia.
Defined.

(** ** The size limit on the question section *)

Lemma Forall2_replicate_both {A B} (P : A -> B -> Prop) n a b :
  P a b -> Forall2 P (replicate n a) (replicate n b).
Proof. intros H. induction n; constructor; assumption. Qed.

(** X25. A message whose header and questions take more octets than the
    size limit cannot be encoded: [encode] throws an assertion error.  The
    limit is the advertised EDNS size only for UDP with EDNS enabled and a
    size of at least 512; in every other case, also when [udp] is false, it
    is 512. *)
Theorem encode_questions_over_limit m udp qb :
  Forall2 wire_question (question m) qb ->
  (if udp && e_enabled (edns m) && (512 <=? e_size (edns m))
   then e_size (edns m) else 512)
  < 12 + Z.of_nat (length (concat qb)) ->
  encode m udp = Err AssertionError.
Proof.
  intros Hq Hmax. unfold encode, getSizes. cbv zeta.
  rewrite (size_questions_wire _ qb) by assumption.
  cbn [mbind result_bind].
  change (Z.of_nat MAX_UDP_SIZE) with 512.
  match goal with |- context [assert ?c] =>
    assert (E : c = false); [|rewrite E; reflexivity] end.
  apply Z.leb_gt. lia.
Qed.

Lemma encode_questions_over_limit_witness :
  encode
    (mkMessage 1 0 0 0 (replicate 56 (mkQuestion "a.b." 1 1)) [] [] []
       new_EDNS None None 0 [])
    false
  = Err AssertionError.
Proof.
  apply (encode_questions_over_limit _ false
           (replicate 56 [1; 97; 1; 98; 0; 0; 1; 0; 1])).
  - apply Forall2_replicate_both.
    apply (wire_question_intro [[97]; [98]] 1 1).
    + split; [repeat constructor; simpl; lia | simpl; lia].
    + simpl. lia.
    + lia.
    + lia.
  - vm_compute. reflexivity.
Defined.

(** ** lib/util.js: one label *)

Lemma splitName_loop_zip s rest : forall begin labels,
  util.splitName_loop s rest begin labels
  = (default begin (last rest),
     labels ++ zip_with (fun a e => util.js_substring s a (e - 1))
                 (begin :: rest) rest).
Proof.
  induction rest as [|e rest IH]; intros begin labels.
  - cbn. rewrite app_nil_r. reflexivity.
  - cbn [util.splitName_loop]. rewrite IH. f_equal.
    + destruct rest as [|n rest]; [reflexivity|].
      change (last (e :: n :: rest)) with (last (n :: rest)).
      destruct (proj2 (last_is_Some (n :: rest)) ltac:(discriminate))
        as [x ->].
      reflexivity.
    + rewrite <- app_assoc. reflexivity.
Qed.

(** X26. For a non-empty name, [label(s, split(s), i)] is the label that
    [splitName(s)] returns at position [i], for every [i] below the number
    of labels. *)
Theorem label_splitName s idx labels i :
  util.split s = Ok idx -> util.splitName s = Ok labels -> s <> "" ->
  (i < length idx)%nat ->
  labels !! i = Some (util.label s idx (Z.of_nat i)).
Proof.
  intros Hsp Hsn Hs Hi.
  assert (E0 : (String.length s =? 0)%nat = false).
  { destruct s; [contradiction | reflexivity]. }
  destruct (split_spec s) as (idx' & A & _ & [[-> ->]|[_ (rest & -> & F & HS)]]).
  { rewrite Hsp in A. injection A as ->. simpl in Hi. lia. }
  rewrite Hsp in A. injection A as ->.
  unfold util.splitName in Hsn. rewrite E0, Hsp in Hsn.
  cbn [mbind result_bind] in Hsn. cbv zeta in Hsn.
  rewrite splitName_loop_zip in Hsn. rewrite app_nil_l in Hsn.
  set (zs := zip_with _ _ _) in Hsn.
  assert (Hlen : length zs = length rest).
  { unfold zs. rewrite length_zip_with. cbn [length]. lia. }
  assert (Hz : forall j a e, (0%nat :: rest) !! j = Some a ->
                 rest !! j = Some e ->
                 zs !! j = Some (util.js_substring s a (e - 1))).
  { intros j a e Ha He. unfold zs. rewrite lookup_zip_with, Ha.
    cbn [mbind option_bind]. rewrite He. reflexivity. }
  clearbody zs.
  injection Hsn as <-.
  unfold util.label. cbv zeta.
  destruct (Z.ltb_spec (Z.of_nat i) 0) as [|_]; [lia|].
  destruct (Z.leb_spec (Z.of_nat (length (0%nat :: rest))) (Z.of_nat i))
    as [|_]; [lia|].
  rewrite index_in.
  destruct (lookup_lt_is_Some_2 (0%nat :: rest) i Hi) as [a Ha].
  rewrite Ha. cbn [length] in Hi.
  destruct (Z.eqb_spec (Z.of_nat i + 1) (Z.of_nat (length (0%nat :: rest))))
    as [El|El]; cbn [length] in El.
  - assert (i = length rest) as -> by lia.
    rewrite lookup_app_r by (rewrite Hlen; lia). rewrite Hlen, Nat.sub_diag. cbn [lookup list_lookup].
    assert (Ea : default 0%nat (last rest) = a).
    { destruct rest as [|e rest'] using rev_ind.
      - cbn in Ha. injection Ha as <-. reflexivity.
      - rewrite last_snoc. cbn [from_option Datatypes.id].
        rewrite length_app in Ha. cbn [length] in Ha.
        change (0%nat :: rest' ++ [e]) with ((0%nat :: rest') ++ [e]) in Ha.
        rewrite lookup_app_r in Ha by (cbn [length]; lia).
        replace (length rest' + 1 - length (0%nat :: rest'))%nat with 0%nat
          in Ha by (cbn [length]; lia).
        cbn in Ha. injection Ha as <-. reflexivity. }
    rewrite Ea.
    assert (Hb : (a < String.length s)%nat).
    { destruct (length rest) as [|n] eqn:En.
      - cbn in Ha. injection Ha as <-. destruct s; [contradiction|]. simpl. lia.
      - cbn [lookup list_lookup] in Ha.
        apply list_elem_of_lookup_2 in Ha.
        rewrite Forall_forall in F. destruct (F a Ha) as [? _]. lia. }
    rewrite (isFQDN_charCode s E0).
    destruct (util.charCodeAt s (String.length s - 1) =? 46).
    + rewrite js_substring_in by lia. do 2 f_equal.
      * cbn [from_option Datatypes.id]. lia.
      * cbn [from_option Datatypes.id]. lia.
    + reflexivity.
  - assert (Hi' : (i < length rest)%nat) by lia.
    rewrite lookup_app_l by (rewrite Hlen; lia).
    replace (Z.of_nat i + 1) with (Z.of_nat (Datatypes.S i)) by lia.
    rewrite index_in.
    change ((0%nat :: rest) !! Datatypes.S i) with (rest !! i).
    destruct (lookup_lt_is_Some_2 rest i Hi') as [e He]. rewrite He.
    rewrite (Hz i a e Ha He). reflexivity.
Qed.

Lemma label_splitName_witness :
  ["www"; "example"; "com"] !! 1%nat
  = Some (util.label "www.example.com." [0; 4; 12]%nat (Z.of_nat 1)).
Proof.
  apply (label_splitName "www.example.com." [0; 4; 12]%nat
           ["www"; "example"; "com"] 1).
  - reflexivity.
  - reflexivity.
  - discriminate.
  - simpl. lia.
Defined.

(** ** lib/util.js: record sets *)

Lemma extractSet_type rs name ts :
  Forall (fun rr => rr_type rr ∈ ts /\ (name = "" \/ name = rr_name rr))
    (rrsets.extractSet rs name ts).
Proof.
  unfold rrsets.extractSet. apply Forall_forall. intros rr Hin.
  apply list_elem_of_In, filter_In in Hin as [_ H].
  apply andb_true_iff in H as [H1 H2].
  split; [apply bool_decide_eq_true in H1; exact H1|].
  destruct (String.eqb_spec name ""); [left; assumption|].
  destruct (String.eqb_spec name (rr_name rr)); [right; assumption|].
  discriminate.
Qed.

(** X27. [extractSet] with an empty name and [filterSet] split a list of
    records in two: together they hold every record once.  Every record
    [extractSet] returns for a single type passes [hasAll] for that type,
    and for a non-empty name and records of one class the result is empty
    or an RRset for [isRRSet]. *)
Theorem record_sets rs name ts t c :
  rrsets.extractSet rs "" ts ++ rrsets.filterSet rs ts ≡ₚ rs
  /\ rrsets.hasAll (rrsets.extractSet rs name [t]) t = true
  /\ (name <> "" -> Forall (fun rr => rr_class rr = c) rs ->
      rrsets.extractSet rs name [t] = []
      \/ rrsets.isRRSet (rrsets.extractSet rs name [t]) = true).
Proof.
  split; [|split].
  - unfold rrsets.extractSet, rrsets.filterSet.
    induction rs as [|rr rs IH]; [reflexivity|].
    cbn [List.filter String.eqb]. rewrite andb_true_r.
    destruct (bool_decide (rr_type rr ∈ ts)); cbn [negb app].
    + constructor. exact IH.
    + rewrite <- Permutation_middle. constructor. exact IH.
  - pose proof (extractSet_type rs name [t]) as H.
    induction H as [|rr l [Ht _] _ IH]; [reflexivity|].
    cbn [rrsets.hasAll forallb]. apply list_elem_of_singleton in Ht.
    rewrite Ht, Z.eqb_refl. exact IH.
  - intros Hn Hc.
    assert (H : Forall (fun rr => rr_type rr = t /\ rr_name rr = name
                                  /\ rr_class rr = c)
                  (rrsets.extractSet rs name [t])).
    { pose proof (extractSet_type rs name [t]) as H.
      apply Forall_forall. intros rr Hin.
      rewrite Forall_forall in H. destruct (H rr Hin) as [Ht [E|E]];
        [contradiction|].
      apply list_elem_of_singleton in Ht. split; [exact Ht|].
      split; [symmetry; exact E|].
      rewrite Forall_forall in Hc. apply Hc.
      unfold rrsets.extractSet in Hin.
      apply list_elem_of_In, filter_In in Hin as [Hin _].
      apply list_elem_of_In, Hin. }
    destruct (rrsets.extractSet rs name [t]) as [|rr0 [|rr1 rest]];
      [left; reflexivity | right; reflexivity | right].
    apply Forall_cons in H as [(T0 & N0 & C0) H].
    unfold rrsets.isRRSet. apply forallb_forall. intros rr Hin.
    rewrite Forall_forall in H.
    destruct (H rr (proj2 (list_elem_of_In _ _) Hin)) as (T & N & C).
    rewrite T, T0, N, N0, C, C0, !Z.eqb_refl, String.eqb_refl. reflexivity.
Qed.

Lemma record_sets_witness :
  rrsets.extractSet [examples.rr_cname; examples.rr_a] "" [types.A]
    ++ rrsets.filterSet [examples.rr_cname; examples.rr_a] [types.A]
  ≡ₚ [examples.rr_cname; examples.rr_a]
  /\ rrsets.isRRSet
       (rrsets.extractSet [examples.rr_cname; examples.rr_a]
          "www.example.com." [types.A]) = true.
Proof.
  destruct (record_sets [examples.rr_cname; examples.rr_a]
              "www.example.com." [types.A] types.A classes.IN)
    as (A & _ & B).
  split; [exact A|].
  destruct B as [B|B]; [discriminate | repeat constructor | discriminate |].
  exact B.
Defined.

(** ** Octets after the last record *)

(** X28. Octets that follow the wire form of a message without
    pseudo-records do not disturb [decode]: it returns the same identifier,
    flags, opcode, code and sections, keeps the extra octets in [trailing]
    and sets the size to the length of the whole buffer. *)
Theorem decode_keeps_trailing m qb ab nb rb (extra : list Z) :
  0 <= id m < 65536 ->
  0 <= flags m < 65536 -> Z.land (flags m) 0x780f = 0 ->
  0 <= opcode m < 16 -> 0 <= code m < 16 ->
  e_enabled (edns m) = false -> tsig m = None -> sig0 m = None ->
  Forall2 wire_question (question m) qb ->
  Forall2 wire_record (answer m) ab ->
  Forall2 wire_record (authority m) nb ->
  Forall2 wire_record (additional m) rb ->
  Z.of_nat (length (question m)) < 65536 ->
  Z.of_nat (length (answer m)) < 65536 ->
  Z.of_nat (length (authority m)) < 65536 ->
  Z.of_nat (length (additional m)) < 65536 ->
  let buf :=
    header_octets m ++ concat qb ++ concat ab ++ concat nb ++ concat rb
    ++ extra in
  decode buf
  = Ok (mkMessage (id m) (flags m) (opcode m) (code m) (question m)
          (answer m) (authority m) (additional m) new_EDNS None None
          (length buf) extra).
Proof.
  intros Hid Hf Hmask Hop Hc He Ht Hs Hq Ha Hn Hr Lq La Ln Lr buf.
  assert (Ear : arcount m = length (additional m)).
  { unfold arcount. rewrite He, Ht, Hs. simpl. lia. }
  assert (H : holds buf 0 buf).
  { unfold holds. rewrite drop_0. apply firstn_all. }
  unfold buf in H at 2.
  apply holds_app in H as [Hh H].
  change (length (header_octets m)) with 12%nat in H.
  apply holds_app in H as [H1 H]. apply holds_app in H as [H2 H].
  apply holds_app in H as [H3 H]. apply holds_app in H as [H4 H5].
  assert (H5' : take (length extra)
                  (drop (12 + length (concat qb) + length (concat ab)
                         + length (concat nb) + length (concat rb)) buf)
                = extra) by exact H5.
  clear H5. cbn [Nat.add] in H1, H2, H3, H4.
  unfold decode, Message_read. cbn zeta. cbn [BufferReader.data].
  rewrite (read_header_wire new_Message m buf) by (try assumption; lia).
  cbn [mbind result_bind]. unfold read_body.
  rewrite (read_questions_wire _ _ qb) by assumption. cbn [mbind result_bind].
  rewrite (read_section_wire _ _ _ ab) by assumption. cbn [mbind result_bind].
  rewrite (read_section_wire _ _ _ nb) by assumption. cbn [mbind result_bind].
  rewrite Ear.
  rewrite (read_additional_wire _ _ rb) by assumption. cbn [mbind result_bind].
  unfold read_finish.
  assert (L : BufferReader.left
                (BufferReader.mk buf
                   (12 + length (concat qb) + length (concat ab)
                    + length (concat nb) + length (concat rb)))
              = length extra).
  { unfold BufferReader.left. cbn [BufferReader.data BufferReader.offset].
    unfold buf. rewrite !length_app.
    change (length (header_octets m)) with 12%nat. lia. }
  rewrite L.
  set (m' := foldl push_additional _ _).
  assert (Em : m' = mkMessage (id m) (flags m) (opcode m) (code m)
                      (question m) (answer m) (authority m) (additional m)
                      new_EDNS None None 0 []).
  { unfold m'.
    rewrite foldl_push_additional, foldl_push_authority, foldl_push_answer,
      foldl_push_question. reflexivity. }
  clearbody m'. subst m'.
  cbn [id flags opcode code question answer authority additional edns tsig
       sig0 trailing].
  destruct (Nat.ltb_spec 0 (length extra)) as [Hpos|Hz].
  - unfold BufferReader.readBytes, BufferReader.check.
    cbn [BufferReader.data BufferReader.offset].
    match goal with |- context [(?a <? ?b)%nat] =>
      destruct (Nat.ltb_spec a b) as [Hlt|_] end.
    { unfold buf in Hlt. rewrite !length_app in Hlt.
      change (length (header_octets m)) with 12%nat in Hlt. lia. }
    cbn [mbind result_bind]. rewrite H5'. reflexivity.
  - assert (extra = []) as -> by (apply nil_length_inv; lia).
    reflexivity.
Qed.


Lemma decode_keeps_trailing_witness :
  decode
    [18; 52; 1; 0; 0; 1; 0; 0; 0; 0; 0; 0;
     1; 97; 1; 98; 0; 0; 1; 0; 1; 7; 7]
  = Ok (mkMessage 4660 256 0 0 [mkQuestion "a.b." 1 1] [] [] [] new_EDNS
          None None 23 [7; 7]).
Proof.
  apply (decode_keeps_trailing
           (mkMessage 4660 256 0 0 [mkQuestion "a.b." 1 1] [] [] [] new_EDNS
              None None 0 [])
           [[1; 97; 1; 98; 0; 0; 1; 0; 1]] [] [] [] [7; 7]).
  - simpl. lia.
  - simpl. lia.
  - reflexivity.
  - simpl. lia.
  - simpl. lia.
  - reflexivity.
  - reflexivity.
  - reflexivity.
  - constructor; [|constructor].
    apply (wire_question_intro [[97]; [98]] 1 1).
    + split; [repeat constructor; simpl; lia | simpl; lia].
    + simpl. lia.
    + lia.
    + lia.
  - constructor.
  - constructor.
  - constructor.
  - simpl. lia.
  - simpl. lia.
  - simpl. lia.
  - simpl. lia.
Defined.
